(** * MIT-JOS user library and kernel monitor: a shallow embedding

    The development follows the C sources of the repository:
    - [lib/ipc.c] (two revisions: the lab 4 tree and the later tree),
    - [lib/spawn.c] ([spawn], [spawnl] and [init_stack]),
    - [kern/monitor.c] ([monitor], [runcmd] and the monitor commands).

    32-bit quantities are integers in [Z] with the wrap-around written
    out ([u32], [s32]); user memory is byte addressed and reached through
    page tables; system calls are recorded in the order they are issued. *)

From Stdlib Require Import ZArith Lia Ascii String.
From stdpp Require Import base gmap strings list.

Local Open Scope Z_scope.

(** ** Machine integers *)

Definition u32 (z : Z) : Z := z mod 2 ^ 32.

Definition s32 (z : Z) : Z :=
  let r := u32 z in if r <? 2 ^ 31 then r else r - 2 ^ 32.

(** [ROUNDDOWN(a, n)] and [ROUNDUP(a, n)] of [inc/types.h]: both cast
    their operand to [uint32_t]. *)
Definition ROUNDDOWN (a n : Z) : Z := let a' := u32 a in u32 (a' - a' mod n).
Definition ROUNDUP (a n : Z) : Z := ROUNDDOWN (u32 (u32 a + n - 1)) n.

(** ** Constants of the headers

    Modelled from the spec: the headers [inc/mmu.h], [inc/memlayout.h],
    [inc/error.h], [inc/elf.h] and [inc/env.h] are not part of the sources
    at hand; the values below are the ones of the JOS tree the sources
    were written for. *)

Definition NULL : Z := 0.
Definition PGSIZE : Z := 4096.
Definition PTSIZE : Z := PGSIZE * 1024.
Definition UTEMP : Z := PTSIZE.
Definition UTOP : Z := 0xeec00000.
Definition USTACKTOP : Z := 0xeebfe000.

Definition PTE_P : Z := 1.
Definition PTE_W : Z := 2.
Definition PTE_U : Z := 4.

Definition E_BAD_ENV : Z := 2.
Definition E_INVAL : Z := 3.
Definition E_NO_MEM : Z := 4.
Definition E_IPC_NOT_RECV : Z := 7.
Definition E_NOT_FOUND : Z := 11.

Definition LOG2NENV : Z := 10.
Definition NENV : Z := Z.shiftl 1 LOG2NENV.
Definition ENVX (envid : Z) : Z := Z.land envid (NENV - 1).

(** ** Results of a run

    A C function of the user library either returns, or stops in
    [panic] (which does not return), or takes a page fault on a store, or
    is still running when the fuel given to its loop is used up. *)

Inductive result (A : Type) : Type :=
| Ok (a : A)
| Panicked (msg : string) (code : Z)
| Faulted (va : Z)
| Spinning.

Arguments Ok {A} a.
Arguments Panicked {A} msg code.
Arguments Faulted {A} va.
Arguments Spinning {A}.

(** A computation over a state [S]: the state is threaded through, the
    first result other than [Ok] stops the run. *)
Definition M (S A : Type) : Type := S -> result A * S.

Definition ret {S A} (a : A) : M S A := fun s => (Ok a, s).

Definition bind {S A B} (m : M S A) (f : A -> M S B) : M S B :=
  fun s =>
    match m s with
    | (Ok a, s') => f a s'
    | (Panicked msg c, s') => (Panicked msg c, s')
    | (Faulted va, s') => (Faulted va, s')
    | (Spinning, s') => (Spinning, s')
    end.

Notation "'do' x <- m ; k" := (bind m (fun x => k))
  (at level 10, x name, m at level 100, k at level 200,
   format "'[v' 'do'  x  <-  m ; '/' k ']'").
Notation "'do' ' p <- m ; k" := (bind m (fun x => let 'p := x in k))
  (at level 10, p pattern, m at level 100, k at level 200,
   format "'[v' 'do'  ' p  <-  m ; '/' k ']'").
Notation "'run' m ; k" := (bind m (fun _ => k))
  (at level 10, m at level 100, k at level 200,
   format "'[v' 'run'  m ; '/' k ']'").

(** [panic(msg, code)] does not return. *)
Definition panic {S A} (msg : string) (code : Z) : M S A :=
  fun s => (Panicked msg code, s).

(** The loop has used up its fuel. *)
Definition spin {S A} : M S A := fun s => (Spinning, s).

(** [if (b) m;] *)
Definition when {S} (b : bool) (m : M S unit) : M S unit :=
  if b then m else ret tt.

(** ** lib/ipc.c *)

Module Ipc.

(** The part of [struct Env] that [ipc.c] reads. *)
Record Env : Type := mkEnv {
  env_id : Z;
  env_ipc_from : Z;
  env_ipc_perm : Z;
  env_ipc_value : Z
}.

Inductive syscall : Type :=
| SYS_ipc_recv (dstva : Z)
| SYS_ipc_try_send (to_env val srcva perm : Z)
| SYS_yield
| SYS_getenvid.

(** The kernel seen from user space: what a system call returns after
    the calls issued so far, and the read-only [envs] array as it stands
    after them. *)
Record Kernel : Type := mkKernel {
  k_ret : list syscall -> syscall -> Z;
  k_envs : list syscall -> Z -> Env
}.

(** User state: the calls issued so far (oldest first), the words of
    user memory written through out-parameters, and the index in [envs]
    that the global [env] points to. *)
Record UState : Type := mkUState {
  calls : list syscall;
  mem : gmap Z Z;
  env : Z
}.

Section WithKernel.

Variable k : Kernel.

Definition syscall_ (c : syscall) : M UState Z :=
  fun s => (Ok (k_ret k (calls s) c),
            {| calls := calls s ++ [c]; mem := mem s; env := env s |}).

Definition sys_ipc_recv (dstva : Z) : M UState Z := syscall_ (SYS_ipc_recv dstva).
Definition sys_ipc_try_send (to_env val srcva perm : Z) : M UState Z :=
  syscall_ (SYS_ipc_try_send to_env val srcva perm).
Definition sys_yield : M UState unit := run syscall_ SYS_yield; ret tt.
Definition sys_getenvid : M UState Z := syscall_ SYS_getenvid.

(** [*p = v] for an out-parameter [p]. *)
Definition store (p v : Z) : M UState unit :=
  fun s => (Ok tt, {| calls := calls s; mem := <[p := v]> (mem s); env := env s |}).

(** [envs[i]], read from the kernel's read-only mapping. *)
Definition read_envs (i : Z) : M UState Env :=
  fun s => (Ok (k_envs k (calls s) i), s).

(** [*env]. *)
Definition read_env : M UState Env :=
  fun s => (Ok (k_envs k (calls s) (env s)), s).


End WithKernel.

(** [ipc_recv] and [ipc_send] of [lab4/lib/ipc.c]. *)
Module Lab4.
Section WithKernel.
Variable k : Kernel.

Definition ipc_recv (from_env_store pg perm_store : Z) : M UState Z :=
  do err <- (if negb (pg =? NULL)
             then sys_ipc_recv k UTOP
             else sys_ipc_recv k pg);
  run when (negb (from_env_store =? NULL))
        (if err <? 0 then store from_env_store 0
         else do id <- sys_getenvid k;
              do e <- read_envs k (ENVX id);
              store from_env_store (env_ipc_from e));
  run when (negb (perm_store =? NULL))
        (if err <? 0 then store perm_store 0
         else do id <- sys_getenvid k;
              do e <- read_envs k (ENVX id);
              store perm_store (env_ipc_perm e));
  if err <? 0 then ret err
  else do e <- read_env k; ret (s32 (env_ipc_value e)).

Fixpoint ipc_send (fuel : nat) (to_env val pg perm : Z) : M UState unit :=
  match fuel with
  | O => spin
  | S fuel' =>
      do err <- sys_ipc_try_send k to_env val
                  (if negb (pg =? NULL) then pg else UTOP) perm;
      if err <? 0 then
        run when (negb (err =? - E_IPC_NOT_RECV))
              (panic "ipc_send: send message failed. %e" err);
        run sys_yield k;
        ipc_send fuel' to_env val pg perm
      else ret tt
  end.
End WithKernel.
End Lab4.

(** [ipc_recv] and [ipc_send] of the later tree's [lib/ipc.c]. *)
Module Lab5.
Section WithKernel.
Variable k : Kernel.

Definition ipc_recv (from_env_store pg perm_store : Z) : M UState Z :=
  do err <- (if pg =? NULL
             then sys_ipc_recv k UTOP
             else sys_ipc_recv k pg);
  run when (negb (from_env_store =? NULL))
        (if err <? 0 then store from_env_store 0
         else do e <- read_env k;
              store from_env_store (env_ipc_from e));
  run when (negb (perm_store =? NULL))
        (if err <? 0 then store perm_store 0
         else do e <- read_env k;
              store perm_store (env_ipc_perm e));
  if err <? 0 then ret err
  else do e <- read_env k; ret (s32 (env_ipc_value e)).

Fixpoint ipc_send (fuel : nat) (to_env val pg perm : Z) : M UState unit :=
  match fuel with
  | O => spin
  | S fuel' =>
      do err <- sys_ipc_try_send k to_env val
                  (if negb (pg =? NULL) then pg else UTOP) perm;
      if err <? 0 then
        run when (negb (err =? - E_IPC_NOT_RECV))
              (panic "ipc_send: send message failed. %e" err);
        run sys_yield k;
        ipc_send fuel' to_env val pg perm
      else ret tt
  end.
End WithKernel.
End Lab5.
End Ipc.

(** ** lib/spawn.c *)

Module Spawn.

(** *** Constants

    Modelled from the spec: [inc/elf.h], [inc/env.h], [inc/fd.h] and
    [inc/fs.h] are not part of the sources at hand. *)

Definition ELF_MAGIC : Z := 0x464C457F.
Definition ELF_PROG_LOAD : Z := 1.
Definition ELF_PROG_FLAG_WRITE : Z := 2.
Definition O_RDWR : Z := 2.
Definition ENV_FREE : Z := 0.
Definition ENV_RUNNABLE : Z := 1.
Definition ENV_NOT_RUNNABLE : Z := 2.
Definition E_NO_FREE_ENV : Z := 5.
Definition E_NO_DISK : Z := 9.
Definition E_MAX_OPEN : Z := 10.
Definition PTE_USER : Z := 0xE07.
Definition MAXFD : Z := 32.
Definition FDTABLE : Z := 0xD0000000.
Definition FILEDATA : Z := FDTABLE + MAXFD * PGSIZE.
Definition MAXFILESIZE : Z := PTSIZE.
Definition fd2data (fdnum : Z) : Z := FILEDATA + fdnum * PTSIZE.

(** The macros at the head of [spawn.c]. *)
Definition UTEMP2USTACK (addr : Z) : Z := u32 (addr + (USTACKTOP - PGSIZE) - UTEMP).
Definition UTEMP2 : Z := UTEMP + PGSIZE.
Definition UTEMP3 : Z := UTEMP2 + PGSIZE.

(** *** Data *)

(** A byte is an integer in [0, 256); a C string is given by the bytes
    before its terminator. *)
Definition cstring (s : list Z) : Prop := Forall (fun b => 1 <= b <= 255) s.

#[global] Instance cstring_dec (s : list Z) : Decision (cstring s).
Proof. unfold cstring. apply _. Defined.

Record Trapframe : Type := mkTrapframe {
  tf_eip : Z;
  tf_esp : Z;
  tf_eflags : Z
}.

(** A page-table entry: the physical page and the permission bits. *)
Definition pte : Type := nat * Z.

Record Env : Type := mkEnv {
  env_id : Z;
  env_parent_id : Z;
  env_status : Z;
  env_tf : Trapframe;
  env_pgdir : gmap Z pte
}.

(** A file of the file server: its size and the physical pages of the
    block cache that hold its blocks. *)
Record File : Type := mkFile {
  f_size : Z;
  f_blocks : list nat
}.

Record Fd : Type := mkFd {
  fd_path : string;
  fd_offset : Z
}.

Record Proghdr : Type := mkProghdr {
  p_type : Z;
  p_offset : Z;
  p_va : Z;
  p_pa : Z;
  p_filesz : Z;
  p_memsz : Z;
  p_flags : Z;
  p_align : Z
}.

Inductive syscall : Type :=
| SYS_exofork
| SYS_page_alloc (envid va perm : Z)
| SYS_page_map (srcenvid srcva dstenvid dstva perm : Z)
| SYS_page_unmap (envid va : Z)
| SYS_env_set_trapframe (envid : Z) (tf : Trapframe)
| SYS_env_set_status (envid status : Z).

(** The machine: physical pages, the page allocator's free list, the
    [envs] array (by index), the running environment, the environment
    ids the kernel hands out next, the file system, the open file
    descriptors of the running environment, the failures a test
    substrate injects into the coming system calls, and the system calls
    issued so far (oldest first). *)
Record Machine : Type := mkMachine {
  phys : gmap nat (list Z);
  page_free_list : list nat;
  envs : gmap Z Env;
  curenv : Z;
  env_free_list : list Z;
  fs : gmap string File;
  fds : list Fd;
  inject : list (option Z);
  trace : list syscall
}.

Definition set_phys (f : gmap nat (list Z) -> gmap nat (list Z)) (m : Machine) : Machine :=
  mkMachine (f (phys m)) (page_free_list m) (envs m) (curenv m) (env_free_list m)
            (fs m) (fds m) (inject m) (trace m).
Definition set_page_free_list (l : list nat) (m : Machine) : Machine :=
  mkMachine (phys m) l (envs m) (curenv m) (env_free_list m)
            (fs m) (fds m) (inject m) (trace m).
Definition set_envs (f : gmap Z Env -> gmap Z Env) (m : Machine) : Machine :=
  mkMachine (phys m) (page_free_list m) (f (envs m)) (curenv m) (env_free_list m)
            (fs m) (fds m) (inject m) (trace m).
Definition set_env_free_list (l : list Z) (m : Machine) : Machine :=
  mkMachine (phys m) (page_free_list m) (envs m) (curenv m) l
            (fs m) (fds m) (inject m) (trace m).
Definition set_fds (f : list Fd -> list Fd) (m : Machine) : Machine :=
  mkMachine (phys m) (page_free_list m) (envs m) (curenv m) (env_free_list m)
            (fs m) (f (fds m)) (inject m) (trace m).
Definition set_inject (l : list (option Z)) (m : Machine) : Machine :=
  mkMachine (phys m) (page_free_list m) (envs m) (curenv m) (env_free_list m)
            (fs m) (fds m) l (trace m).
Definition log (c : syscall) (m : Machine) : Machine :=
  mkMachine (phys m) (page_free_list m) (envs m) (curenv m) (env_free_list m)
            (fs m) (fds m) (inject m) (trace m ++ [c]).

Definition set_pgdir (f : gmap Z pte -> gmap Z pte) (e : Env) : Env :=
  mkEnv (env_id e) (env_parent_id e) (env_status e) (env_tf e) (f (env_pgdir e)).
Definition set_tf (tf : Trapframe) (e : Env) : Env :=
  mkEnv (env_id e) (env_parent_id e) (env_status e) tf (env_pgdir e).
Definition set_status (st : Z) (e : Env) : Env :=
  mkEnv (env_id e) (env_parent_id e) st (env_tf e) (env_pgdir e).

(** *** User memory of the running environment *)

Definition PGOFF (va : Z) : Z := Z.land va (PGSIZE - 1).

(** The page-table entry that covers [va] in the running environment. *)
Definition translate (m : Machine) (va : Z) : option pte :=
  e ← envs m !! curenv m; env_pgdir e !! ROUNDDOWN va PGSIZE.

Definition writable (perm : Z) : bool := negb (Z.land perm PTE_W =? 0).

(** A one-byte store at [va]. *)
Definition store8 (va b : Z) : M Machine unit :=
  fun m =>
    match translate m va with
    | Some (ppn, perm) =>
        match phys m !! ppn with
        | Some pg =>
            if writable perm
            then (Ok tt, set_phys (insert ppn (<[Z.to_nat (PGOFF va) := b mod 256]> pg)) m)
            else (Faulted va, m)
        | None => (Faulted va, m)
        end
    | None => (Faulted va, m)
    end.

(** A four-byte store at [va], little endian. *)
Definition store32 (va v : Z) : M Machine unit :=
  run store8 va v;
  run store8 (u32 (va + 1)) (v / 2 ^ 8);
  run store8 (u32 (va + 2)) (v / 2 ^ 16);
  store8 (u32 (va + 3)) (v / 2 ^ 24).

(** [memset(va, c, n)] *)
Fixpoint memset_ (va c : Z) (n : nat) : M Machine unit :=
  match n with
  | O => ret tt
  | S n' => run store8 va c; memset_ (u32 (va + 1)) c n'
  end.
Definition memset (va c n : Z) : M Machine unit := memset_ va c (Z.to_nat n).

(** [memmove(va, bytes, length bytes)] from a buffer outside the pages
    being written. *)
Fixpoint store_bytes (va : Z) (bs : list Z) : M Machine unit :=
  match bs with
  | [] => ret tt
  | b :: bs' => run store8 va b; store_bytes (u32 (va + 1)) bs'
  end.

Definition strlen (s : list Z) : Z := Z.of_nat (length s).

(** [strcpy(dst, s)]: the bytes of [s] and the terminator. *)
Definition strcpy (dst : Z) (s : list Z) : M Machine unit :=
  store_bytes dst (s ++ [0]).

(** Reading the bytes of a physical page. *)
Definition page_byte (pg : list Z) (off : Z) : Z := default 0 (pg !! Z.to_nat off).
Definition page_word (pg : list Z) (off : Z) : Z :=
  page_byte pg off + 2 ^ 8 * page_byte pg (off + 1)
  + 2 ^ 16 * page_byte pg (off + 2) + 2 ^ 24 * page_byte pg (off + 3).
Definition page_bytes (pg : list Z) (off : Z) (n : nat) : list Z :=
  take n (drop (Z.to_nat off) pg).

(** *** The substrate

    Modelled from the spec: the system calls of [kern/syscall.c] and the
    file operations of [lib/file.c] and [lib/fd.c] are not part of the
    sources at hand. Section 6 of the specification lists them; the
    error cases are those documented for the JOS system calls. *)

(** [envid2env(envid, &e, 1)]: 0 names the running environment; any
    other id must name the running environment or one of its
    children. The result is the index in [envs]. *)
Definition envid2env (m : Machine) (envid : Z) : option Z :=
  if envid =? 0 then Some (curenv m)
  else
    match envs m !! ENVX envid, envs m !! curenv m with
    | Some e, Some cur =>
        if (env_id e =? envid) && negb (env_status e =? ENV_FREE)
           && ((ENVX envid =? curenv m) || (env_parent_id e =? env_id cur))
        then Some (ENVX envid) else None
    | _, _ => None
    end.

Definition va_ok (va : Z) : bool := (va <? UTOP) && (va mod PGSIZE =? 0).

Definition perm_ok (perm : Z) : bool :=
  (Z.land perm (Z.lor PTE_U PTE_P) =? Z.lor PTE_U PTE_P)
  && (Z.ldiff perm PTE_USER =? 0).

(** A system call: it is logged; an injected failure, when one is
    pending for it, is returned and the call has no effect. *)
Definition syscall_ (c : syscall) (body : Machine -> Z * Machine) : M Machine Z :=
  fun m =>
    let m1 := log c m in
    match inject m1 with
    | Some e :: rest => (Ok e, set_inject rest m1)
    | None :: rest => let '(r, m2) := body (set_inject rest m1) in (Ok r, m2)
    | [] => let '(r, m2) := body m1 in (Ok r, m2)
    end.

Definition sys_page_alloc (envid va perm : Z) : M Machine Z :=
  syscall_ (SYS_page_alloc envid va perm) (fun m =>
    match envid2env m envid with
    | None => (- E_BAD_ENV, m)
    | Some e =>
        if negb (va_ok va) || negb (perm_ok perm) then (- E_INVAL, m)
        else
          match page_free_list m with
          | [] => (- E_NO_MEM, m)
          | p :: rest =>
              (0, set_envs (alter (set_pgdir (insert va (p, perm))) e)
                    (set_phys (insert p (replicate (Z.to_nat PGSIZE) 0))
                       (set_page_free_list rest m)))
          end
    end).

Definition sys_page_map (srcenvid srcva dstenvid dstva perm : Z) : M Machine Z :=
  syscall_ (SYS_page_map srcenvid srcva dstenvid dstva perm) (fun m =>
    match envid2env m srcenvid, envid2env m dstenvid with
    | Some se, Some de =>
        if negb (va_ok srcva) || negb (va_ok dstva) || negb (perm_ok perm)
        then (- E_INVAL, m)
        else
          match envs m !! se ≫= fun e => env_pgdir e !! srcva with
          | None => (- E_INVAL, m)
          | Some (p, sperm) =>
              if writable perm && negb (writable sperm) then (- E_INVAL, m)
              else (0, set_envs (alter (set_pgdir (insert dstva (p, perm))) de) m)
          end
    | _, _ => (- E_BAD_ENV, m)
    end).

Definition sys_page_unmap (envid va : Z) : M Machine Z :=
  syscall_ (SYS_page_unmap envid va) (fun m =>
    match envid2env m envid with
    | None => (- E_BAD_ENV, m)
    | Some e =>
        if negb (va_ok va) then (- E_INVAL, m)
        else (0, set_envs (alter (set_pgdir (delete va)) e) m)
    end).

(** [sys_exofork()], seen from the parent: a new environment with the
    parent's trapframe, an empty address space, not runnable. *)
Definition sys_exofork : M Machine Z :=
  syscall_ SYS_exofork (fun m =>
    match env_free_list m, envs m !! curenv m with
    | id :: rest, Some cur =>
        (id, set_envs (insert (ENVX id)
                         (mkEnv id (env_id cur) ENV_NOT_RUNNABLE (env_tf cur) ∅))
               (set_env_free_list rest m))
    | _, _ => (- E_NO_FREE_ENV, m)
    end).

Definition sys_env_set_trapframe (envid : Z) (tf : Trapframe) : M Machine Z :=
  syscall_ (SYS_env_set_trapframe envid tf) (fun m =>
    match envid2env m envid with
    | None => (- E_BAD_ENV, m)
    | Some e => (0, set_envs (alter (set_tf tf) e) m)
    end).

Definition sys_env_set_status (envid status : Z) : M Machine Z :=
  syscall_ (SYS_env_set_status envid status) (fun m =>
    match envid2env m envid with
    | None => (- E_BAD_ENV, m)
    | Some e =>
        if (status =? ENV_RUNNABLE) || (status =? ENV_NOT_RUNNABLE)
        then (0, set_envs (alter (set_status status) e) m)
        else (- E_INVAL, m)
    end).

(** [envs[i].env_tf], read from the kernel's read-only mapping. *)
Definition read_env_tf (i : Z) : M Machine Trapframe :=
  fun m => (Ok (default (mkTrapframe 0 0 0) (env_tf <$> envs m !! i)), m).

(** The byte of a file at offset [off], held in the block cache. *)
Definition file_byte (m : Machine) (f : File) (off : Z) : Z :=
  default 0 (p ← f_blocks f !! Z.to_nat (off / PGSIZE);
             pg ← phys m !! p;
             pg !! Z.to_nat (off mod PGSIZE)).

Definition file_bytes (m : Machine) (f : File) (off : Z) (n : nat) : list Z :=
  (fun i => file_byte m f (off + Z.of_nat i)) <$> seq 0 n.

Definition fd_lookup (m : Machine) (fdnum : Z) : option (Fd * File) :=
  if fdnum <? 0 then None
  else fd ← fds m !! Z.to_nat fdnum; f ← fs m !! fd_path fd; Some (fd, f).

(** The page mappings that [open] installs for a file at the data area
    of descriptor [fdnum]. *)
Fixpoint map_blocks (va : Z) (blocks : list nat) (pgdir : gmap Z pte) : gmap Z pte :=
  match blocks with
  | [] => pgdir
  | p :: rest =>
      map_blocks (va + PGSIZE) rest
        (<[va := (p, Z.lor PTE_P (Z.lor PTE_U PTE_W))]> pgdir)
  end.

(** [open(path, mode)] *)
Definition open (path : string) (mode : Z) : M Machine Z :=
  fun m =>
    match fs m !! path with
    | None => (Ok (- E_NOT_FOUND), m)
    | Some f =>
        let fdnum := Z.of_nat (length (fds m)) in
        if MAXFD <=? fdnum then (Ok (- E_MAX_OPEN), m)
        else
          (Ok fdnum,
           set_envs (alter (set_pgdir (map_blocks (fd2data fdnum) (f_blocks f))) (curenv m))
             (set_fds (fun l => l ++ [mkFd path 0]) m))
    end.

(** The number of bytes a [read] of [n] bytes delivers at offset [pos]
    of a file of [size] bytes. *)
Definition read_count (size pos n : Z) : Z := Z.max 0 (Z.min n (size - pos)).

Definition set_fd_offset (fdnum off : Z) (m : Machine) : Machine :=
  set_fds (alter (fun fd => mkFd (fd_path fd) off) (Z.to_nat fdnum)) m.

(** [read(fdnum, buf, n)] into a buffer on the caller's stack: the count
    and the bytes delivered. *)
Definition read_local (fdnum n : Z) : M Machine (Z * list Z) :=
  fun m =>
    match fd_lookup m fdnum with
    | None => (Ok (- E_INVAL, []), m)
    | Some (fd, f) =>
        let cnt := read_count (f_size f) (fd_offset fd) n in
        (Ok (cnt, file_bytes m f (fd_offset fd) (Z.to_nat cnt)),
         set_fd_offset fdnum (fd_offset fd + cnt) m)
    end.

(** [read(fdnum, va, n)] into user memory at [va]. *)
Definition read (fdnum va n : Z) : M Machine Z :=
  do '(cnt, bytes) <- read_local fdnum n;
  run store_bytes va bytes;
  ret cnt.

(** [seek(fdnum, offset)] *)
Definition seek (fdnum offset : Z) : M Machine Z :=
  fun m =>
    match fd_lookup m fdnum with
    | None => (Ok (- E_INVAL), m)
    | Some _ => (Ok 0, set_fd_offset fdnum offset m)
    end.

(** [read_map(fdnum, offset, &blk)]: the result and [*blk]. *)
Definition read_map (fdnum offset : Z) : M Machine (Z * Z) :=
  fun m =>
    match fd_lookup m fdnum with
    | None => (Ok (- E_INVAL, 0), m)
    | Some _ =>
        if MAXFILESIZE <=? offset then (Ok (- E_NO_DISK, 0), m)
        else
          match translate m (fd2data fdnum + offset) with
          | None => (Ok (- E_NO_DISK, 0), m)
          | Some _ => (Ok (0, fd2data fdnum + offset), m)
          end
    end.

(** *** The ELF header in [elf_buf]

    Modelled from the spec: [struct Elf] and [struct Proghdr] of
    [inc/elf.h] are not part of the sources at hand; the field offsets
    are those of the 32-bit ELF format. [buf] holds the bytes that [read]
    delivered into [elf_buf]. A field that lies outside them is, in C,
    whatever the stack held in [elf_buf] before, or memory beyond
    [elf_buf]; here it reads as zero, and the properties of [spawn] that
    depend on the fields are stated for headers that lie within the bytes
    read. *)

Definition get8 (buf : list Z) (off : Z) : Z :=
  if off <? 0 then 0 else default 0 (buf !! Z.to_nat off).
Definition get16 (buf : list Z) (off : Z) : Z :=
  get8 buf off + 2 ^ 8 * get8 buf (off + 1).
Definition get32 (buf : list Z) (off : Z) : Z :=
  get16 buf off + 2 ^ 16 * get16 buf (off + 2).

Definition e_magic (buf : list Z) : Z := get32 buf 0.
Definition e_entry (buf : list Z) : Z := get32 buf 24.
Definition e_phoff (buf : list Z) : Z := get32 buf 28.
Definition e_phnum (buf : list Z) : Z := get16 buf 44.

Definition proghdr_at (buf : list Z) (off : Z) : Proghdr :=
  mkProghdr (get32 buf off) (get32 buf (off + 4)) (get32 buf (off + 8))
            (get32 buf (off + 12)) (get32 buf (off + 16)) (get32 buf (off + 20))
            (get32 buf (off + 24)) (get32 buf (off + 28)).

(** The program headers [ph], [ph + 1], ... up to [eph]. *)
Definition proghdrs (buf : list Z) : list Proghdr :=
  (fun i => proghdr_at buf (e_phoff buf + 32 * Z.of_nat i))
    <$> seq 0 (Z.to_nat (e_phnum buf)).

(** *** [init_stack] *)

(** The loop that stores the argument pointers and copies the strings;
    it returns the final [string_store]. *)
Fixpoint init_stack_args (argv : list (list Z)) (argv_store string_store i : Z)
  : M Machine Z :=
  match argv with
  | [] => ret string_store
  | s :: rest =>
      run store32 (u32 (argv_store + 4 * i)) (UTEMP2USTACK string_store);
      run strcpy string_store s;
      init_stack_args rest argv_store (u32 (string_store + (strlen s + 1))) (i + 1)
  end.

(** [string_size] after the counting loop. *)
Definition string_size (argv : list (list Z)) : Z :=
  fold_left (fun acc s => u32 (acc + (strlen s + 1))) argv 0.

Definition stack_perm : Z := Z.lor PTE_P (Z.lor PTE_U PTE_W).

(** [init_stack(child, argv, init_esp)]: the result and the word at
    [init_esp] after the call ([esp0] is the word before it). *)
Definition init_stack (child : Z) (argv : list (list Z)) (esp0 : Z)
  : M Machine (Z * Z) :=
  let argc := Z.of_nat (length argv) in
  let string_store := u32 (UTEMP + PGSIZE - string_size argv) in
  let argv_store := u32 (ROUNDDOWN string_store 4 - 4 * (argc + 1)) in
  if u32 (argv_store - 8) <? UTEMP then ret (- E_NO_MEM, esp0)
  else
    do r <- sys_page_alloc 0 UTEMP stack_perm;
    if r <? 0 then ret (r, esp0)
    else
      run init_stack_args argv argv_store string_store 0;
      run store32 (u32 (argv_store + 4 * argc)) 0;
      run store32 (u32 (argv_store - 4)) (UTEMP2USTACK argv_store);
      run store32 (u32 (argv_store - 8)) argc;
      let esp := UTEMP2USTACK (u32 (argv_store - 8)) in
      do r <- sys_page_map 0 UTEMP child (USTACKTOP - PGSIZE) stack_perm;
      if r <? 0 then (run sys_page_unmap 0 UTEMP; ret (r, esp))
      else
        do r <- sys_page_unmap 0 UTEMP;
        if r <? 0 then (run sys_page_unmap 0 UTEMP; ret (r, esp))
        else ret (0, esp).

(** *** [spawn] *)

(** The number of iterations that takes [i] from [start] to [end_] in
    steps of a page, plus one for the final test. *)
Definition page_fuel (start end_ : Z) : nat :=
  S (Z.to_nat ((end_ - start + PGSIZE - 1) / PGSIZE)).

(** The loop over the pages of a text segment. [Some r] is an early
    [return r]. *)
Fixpoint map_text (fuel : nat) (fdnum child va start end_ i : Z)
  : M Machine (option Z) :=
  match fuel with
  | O => spin
  | S fuel' =>
      if i <? end_ then
        do '(r, blk) <- read_map fdnum i;
        if r <? 0 then ret (Some r)
        else
          do r <- sys_page_map 0 blk child (u32 (va + i - start)) (Z.lor PTE_U PTE_P);
          if r <? 0 then ret (Some r)
          else map_text fuel' fdnum child va start end_ (u32 (i + PGSIZE))
      else ret None
  end.

Definition data_perm : Z := Z.lor PTE_U (Z.lor PTE_W PTE_P).

(** The loop over the pages of a data and bss segment. *)
Fixpoint map_data (fuel : nat) (fdnum child va start end_ limit i : Z)
  : M Machine (option Z) :=
  match fuel with
  | O => spin
  | S fuel' =>
      if i <? end_ then
        do r <- sys_page_alloc 0 UTEMP data_perm;
        if r <? 0 then ret (Some r)
        else
          run memset UTEMP 0 PGSIZE;
          do early <-
            (if i <? limit then
               do r <- read fdnum UTEMP PGSIZE;
               if r <? 0 then ret (Some r)
               else
                 run when (i =? ROUNDDOWN limit PGSIZE)
                       (memset (u32 (UTEMP + limit - i)) 0 (u32 (PGSIZE - (limit - i))));
                 ret None
             else ret None);
          match early with
          | Some r => ret (Some r)
          | None =>
              do r <- sys_page_map 0 UTEMP child (u32 (va + i - start)) data_perm;
              if r <? 0 then ret (Some r)
              else
                do r <- sys_page_unmap 0 UTEMP;
                if r <? 0 then ret (Some r)
                else map_data fuel' fdnum child va start end_ limit (u32 (i + PGSIZE))
          end
      else ret None
  end.

(** The body of the loop over the program headers. *)
Definition load_segment (fdnum child : Z) (ph : Proghdr) : M Machine (option Z) :=
  if p_type ph =? ELF_PROG_LOAD then
    let start := ROUNDDOWN (p_offset ph) PGSIZE in
    let va := ROUNDDOWN (p_va ph) PGSIZE in
    if Z.land (p_flags ph) ELF_PROG_FLAG_WRITE =? 0 then
      let end_ := ROUNDUP (u32 (p_filesz ph + p_offset ph)) PGSIZE in
      map_text (page_fuel start end_) fdnum child va start end_ start
    else
      let limit := u32 (p_offset ph + p_filesz ph) in
      let end_ := ROUNDUP (u32 (p_memsz ph + p_offset ph)) PGSIZE in
      run seek fdnum (p_offset ph);
      map_data (page_fuel start end_) fdnum child va start end_ limit start
  else ret None.

Fixpoint load_segments (fdnum child : Z) (phs : list Proghdr) : M Machine (option Z) :=
  match phs with
  | [] => ret None
  | ph :: rest =>
      do early <- load_segment fdnum child ph;
      match early with
      | Some r => ret (Some r)
      | None => load_segments fdnum child rest
      end
  end.

Definition spawn (prog : string) (argv : list (list Z)) : M Machine Z :=
  do fdnum <- open prog O_RDWR;
  if fdnum <? 0 then ret fdnum
  else
    do '(_, elf_buf) <- read_local fdnum 512;
    if negb (e_magic elf_buf =? ELF_MAGIC) then
      run panic (A := unit) "load_icode: Give binary is not a valid ELF.\n" 0;
      ret (- E_INVAL)
    else
      do child <- sys_exofork;
      if child <? 0 then ret child
      else
        do tf <- read_env_tf (ENVX child);
        let child_tf := mkTrapframe (e_entry elf_buf) (tf_esp tf) (tf_eflags tf) in
        do '(r, esp) <- init_stack child argv (tf_esp child_tf);
        let child_tf := mkTrapframe (tf_eip child_tf) esp (tf_eflags child_tf) in
        if r <? 0 then ret r
        else
          do early <- load_segments fdnum child (proghdrs elf_buf);
          match early with
          | Some r => ret r
          | None =>
              do r <- sys_env_set_trapframe child child_tf;
              if r <? 0 then ret r
              else
                do r <- sys_env_set_status child ENV_RUNNABLE;
                if r <? 0 then ret r
                else ret child
          end.

(** [spawnl(prog, arg0, ...)]: the arguments lie on the caller's stack one
    after the other, so that the address of [arg0] is the array that
    [spawn] reads; [args] are the arguments before the null pointer that
    ends them. *)
Definition spawnl (prog : string) (args : list (list Z)) : M Machine Z :=
  spawn prog args.
End Spawn.

(** ** kern/monitor.c *)

Module Monitor.

(** *** Constants and collaborators

    Modelled from the spec: the colour constants of the console, the
    page allocator of [kern/pmap.c] ([page_alloc], [page_free],
    [page_decref], [pa2page], [page2pa], [pgdir_walk]) and
    [debuginfo_eip] of [kern/kdebug.c] are not part of the sources at
    hand. *)

Definition CMDBUF_SIZE : Z := 80.
Definition MAXARGS : Z := 16.
Definition KERNBASE : Z := 0xF0000000.
Definition PGSHIFT : Z := 12.

Inductive color : Type :=
| COLOR_BLK | COLOR_RED | COLOR_GRN | COLOR_YLW | COLOR_PUR | COLOR_CYN.

(** An argument of a [cprintf] call. *)
Inductive carg : Type :=
| Col (c : color)
| Int (z : Z)
| Str (s : string).

Record Page : Type := mkPage { pp_ref : Z }.

Record Eipdebuginfo : Type := mkEipdebuginfo {
  eip_file : string;
  eip_line : Z;
  eip_fn_name : string;
  eip_fn_namelen : Z;
  eip_fn_addr : Z
}.

(** The kernel state the monitor works on: the console (the [cprintf]
    calls made so far, oldest first, each with its format string and
    arguments), the [pages] array, the allocator's free list, the
    entries of the boot page directory by page address, the linker
    symbols, the frame and instruction pointer on entry to a command,
    kernel memory by word address and the debug-info lookup. *)
Record MonState : Type := mkMonState {
  console : list (string * list carg);
  pages : list Page;
  page_free_list : list nat;
  boot_pgdir : gmap Z Z;
  sym_start : Z;
  sym_etext : Z;
  sym_edata : Z;
  sym_end : Z;
  reg_ebp : Z;
  reg_eip : Z;
  kmem : Z -> Z;
  debuginfo : Z -> Eipdebuginfo
}.

Definition set_console (f : list (string * list carg) -> list (string * list carg))
           (m : MonState) : MonState :=
  mkMonState (f (console m)) (pages m) (page_free_list m) (boot_pgdir m)
             (sym_start m) (sym_etext m) (sym_edata m) (sym_end m)
             (reg_ebp m) (reg_eip m) (kmem m) (debuginfo m).
Definition set_pages (f : list Page -> list Page) (m : MonState) : MonState :=
  mkMonState (console m) (f (pages m)) (page_free_list m) (boot_pgdir m)
             (sym_start m) (sym_etext m) (sym_edata m) (sym_end m)
             (reg_ebp m) (reg_eip m) (kmem m) (debuginfo m).
Definition set_page_free_list (f : list nat -> list nat) (m : MonState) : MonState :=
  mkMonState (console m) (pages m) (f (page_free_list m)) (boot_pgdir m)
             (sym_start m) (sym_etext m) (sym_edata m) (sym_end m)
             (reg_ebp m) (reg_eip m) (kmem m) (debuginfo m).

Definition cprintf (fmt : string) (args : list carg) : M MonState unit :=
  fun m => (Ok tt, set_console (fun c => c ++ [(fmt, args)]) m).

Definition get {A} (f : MonState -> A) : M MonState A := fun m => (Ok (f m), m).

(** [PPN(pa)], [pa2page(pa)] and [page2pa(pp)]; a page is named by its
    index in [pages]. *)
Definition PPN (pa : Z) : Z := Z.shiftr (u32 pa) PGSHIFT.

Definition pa2page (pa : Z) : M MonState nat :=
  fun m =>
    if Z.of_nat (length (pages m)) <=? PPN pa
    then (Panicked "pa2page called with invalid pa" 0, m)
    else (Ok (Z.to_nat (PPN pa)), m).

Definition page2pa (pp : nat) : Z := Z.shiftl (Z.of_nat pp) PGSHIFT.

(** [pp->pp_ref], a [uint16_t]. *)
Definition read_ref (pp : nat) : M MonState Z :=
  get (fun m => default 0 (pp_ref <$> pages m !! pp)).

Definition write_ref (pp : nat) (v : Z) : M MonState unit :=
  fun m => (Ok tt, set_pages (<[pp := mkPage (v mod 2 ^ 16)]>) m).

(** [page_alloc(&pp)]: the first page of the free list, or [-E_NO_MEM]. *)
Definition page_alloc : M MonState (Z * nat) :=
  fun m =>
    match page_free_list m with
    | [] => (Ok (- E_NO_MEM, O), m)
    | pp :: rest => (Ok (0, pp), set_page_free_list (fun _ => rest) m)
    end.

Definition page_free (pp : nat) : M MonState unit :=
  fun m => (Ok tt, set_page_free_list (cons pp) m).

(** [page_decref(pp)]: one reference less; the page goes back to the free
    list when none is left. *)
Definition page_decref (pp : nat) : M MonState unit :=
  do r <- read_ref pp;
  run write_ref pp (r - 1);
  do r' <- read_ref pp;
  when (r' =? 0) (page_free pp).

(** [pgdir_walk(boot_pgdir, va, 0)] and the entry it points to, when
    there is a page table for [va]. *)
Definition pgdir_walk (va : Z) : M MonState (option Z) :=
  get (fun m => boot_pgdir m !! va).

(** *** The command line buffer *)

Definition NUL : ascii := Ascii.zero.
Definition WHITESPACE : list ascii :=
  [ascii_of_nat 9; ascii_of_nat 13; ascii_of_nat 10; ascii_of_nat 32].

(** [c && strchr(WHITESPACE, c)] *)
Definition is_space (c : ascii) : bool :=
  negb (Ascii.eqb c NUL) && bool_decide (c ∈ WHITESPACE).

(** [c && !strchr(WHITESPACE, c)] *)
Definition is_word (c : ascii) : bool :=
  negb (Ascii.eqb c NUL) && negb (bool_decide (c ∈ WHITESPACE)).

(** The buffer is kept as the characters before [buf] and those from
    [buf] on. The first inner loop of [runcmd]: white space is
    overwritten with [NUL]. *)
Fixpoint gobble (pre rest : list ascii) : list ascii * list ascii :=
  match rest with
  | c :: rest' => if is_space c then gobble (pre ++ [NUL]) rest' else (pre, rest)
  | [] => (pre, [])
  end.

(** The second inner loop: scan past the argument. *)
Fixpoint scan (pre rest : list ascii) : list ascii * list ascii :=
  match rest with
  | c :: rest' => if is_word c then scan (pre ++ [c]) rest' else (pre, rest)
  | [] => (pre, [])
  end.

(** [*buf]; the buffer ends with its terminator. *)
Definition peek (rest : list ascii) : ascii :=
  match rest with c :: _ => c | [] => NUL end.

(** The outcome of the parsing loop: the offsets stored in [argv] and
    the buffer, or the early return for too many arguments. *)
Inductive parsed : Type :=
| Args (argv : list nat) (buf : list ascii)
| TooMany.

Fixpoint parse (fuel : nat) (argv : list nat) (pre rest : list ascii) : option parsed :=
  match fuel with
  | O => None
  | S fuel' =>
      let '(pre1, rest1) := gobble pre rest in
      if Ascii.eqb (peek rest1) NUL then Some (Args argv (pre1 ++ rest1))
      else if Z.of_nat (length argv) =? MAXARGS - 1 then Some TooMany
      else
        let '(pre2, rest2) := scan pre1 rest1 in
        parse fuel' (argv ++ [length pre1]) pre2 rest2
  end.

(** The C string that starts at offset [off] of the buffer. *)
Fixpoint cstr (l : list ascii) : string :=
  match l with
  | c :: l' => if Ascii.eqb c NUL then EmptyString else String c (cstr l')
  | [] => EmptyString
  end.

Definition cstr_at (buf : list ascii) (off : nat) : string := cstr (drop off buf).

(** *** The commands *)

Section WithStrtol.

(** [strtol(s, 0, 0)] of [lib/string.c], which is not part of the
    sources at hand. *)
Variable strtol : string -> Z.

(** A command handler: the fuel for its loops, [argc], [argv] and the
    trapframe pointer. *)
Definition handler : Type := nat -> Z -> list string -> Z -> M MonState Z.

Record Command : Type := mkCommand {
  name : string;
  desc : string;
  func : handler
}.

(** [argv[i]] *)
Definition arg (argv : list string) (i : nat) : string := nth i argv EmptyString.

(** The names and descriptions of the table [commands], which
    [mon_help] prints. *)
Definition command_info : list (string * string) :=
  [ ("help", "Display this list of commands");
    ("kerninfo", "Display information about the kernel");
    ("backtrace", "Display a listing of function call frames");
    ("showmappings", "Display physical mappings and corresponding info");
    ("alloc_page", "Allocate pages explicitly");
    ("free_page", "Free pages explicitly");
    ("page_status", "Display status of any given page of physical memory") ]%string.

Fixpoint help_loop (l : list (string * string)) : M MonState unit :=
  match l with
  | [] => ret tt
  | (n, d) :: l' =>
      run cprintf "%C%s %C- %C%s\n%C"
            [Col COLOR_GRN; Str n; Col COLOR_CYN; Col COLOR_YLW; Str d; Col COLOR_CYN];
      help_loop l'
  end.

Definition mon_help : handler := fun _ argc argv tf =>
  run help_loop command_info;
  ret 0.

Definition mon_kerninfo : handler := fun _ argc argv tf =>
  do _start <- get sym_start;
  do etext <- get sym_etext;
  do edata <- get sym_edata;
  do end_ <- get sym_end;
  run cprintf "%CSpecial kernel symbols:\n%C" [Col COLOR_GRN; Col COLOR_YLW];
  run cprintf "  _start %08x (virt)  %08x (phys)\n" [Int _start; Int (u32 (_start - KERNBASE))];
  run cprintf "  etext  %08x (virt)  %08x (phys)\n" [Int etext; Int (u32 (etext - KERNBASE))];
  run cprintf "  edata  %08x (virt)  %08x (phys)\n" [Int edata; Int (u32 (edata - KERNBASE))];
  run cprintf "  end    %08x (virt)  %08x (phys)\n" [Int end_; Int (u32 (end_ - KERNBASE))];
  run cprintf "%CKernel executable memory footprint: %dKB\n%C"
        [Col COLOR_GRN; Int ((end_ - _start + 1023) ÷ 1024); Col COLOR_CYN];
  ret 0.

(** [char func_name[36]]. *)
Definition FUNC_NAME_SIZE : Z := 36.

(** A store to [func_name[i]] with [i] outside the array: the C code
    writes over its own stack frame, and nothing is known of what it does
    from there on. The run stops here, with the index of the store. *)
Definition overrun {A} (i : Z) : M MonState A := fun m => (Faulted i, m).

(** [strncpy(func_name, name, namelen); func_name[namelen] = 0]:
    [strncpy] stores [namelen] bytes (the size as a [size_t], so that a
    negative length is a huge one), the characters of [name] and then
    zeros; the terminator is stored after them. A length of
    [FUNC_NAME_SIZE] or more, or a negative one, stores outside the
    array, first at index [FUNC_NAME_SIZE]. *)
Definition copy_func_name (name : string) (namelen : Z) : M MonState string :=
  if (namelen <? 0) || (FUNC_NAME_SIZE <=? namelen) then overrun FUNC_NAME_SIZE
  else ret (substring 0 (Z.to_nat namelen) name).

(** The loop of [mon_backtrace] over the chain of saved frame
    pointers. *)
Fixpoint backtrace_loop (fuel : nat) (ebp eip : Z) : M MonState unit :=
  match fuel with
  | O => spin
  | S fuel' =>
      if negb (ebp =? 0) then
        do info <- get (fun m => debuginfo m eip);
        do func_name <- copy_func_name (eip_fn_name info) (eip_fn_namelen info);
        do w <- get (fun m k => kmem m (u32 (ebp + 4 * k)));
        run cprintf "%C%s:%d: %s+%x\n"
              [Col COLOR_YLW; Str (eip_file info); Int (eip_line info);
               Str func_name; Int (u32 (eip - eip_fn_addr info))];
        run cprintf "  ebp %08x  eip %08x  args %08x %08x %08x %08x %08x\n%C"
              [Int ebp; Int (w 1); Int (w 2); Int (w 3); Int (w 4); Int (w 5); Int (w 6);
               Col COLOR_CYN];
        backtrace_loop fuel' (w 0) (w 1)
      else ret tt
  end.

Definition mon_backtrace : handler := fun fuel argc argv tf =>
  do eip <- get reg_eip;
  do ebp <- get reg_ebp;
  run cprintf "%CStack backtrace:\n" [Col COLOR_GRN];
  run backtrace_loop fuel ebp eip;
  ret 0.

Definition PTE_ADDR (e : Z) : Z := Z.ldiff e 0xFFF.

(** The loop of [mon_showmappings] over the pages from [lva] up to and
    including [hva]. *)
Fixpoint showmappings_loop (fuel : nat) (hva i : Z) : M MonState unit :=
  match fuel with
  | O => spin
  | S fuel' =>
      if i <=? hva then
        do pte <- pgdir_walk i;
        run cprintf "%C0x%x %C- %C0x%x    "
              [Col COLOR_GRN; Int i; Col COLOR_CYN; Col COLOR_GRN; Int (u32 (i + PGSIZE))];
        run match pte with
            | Some e =>
                if negb (Z.land e PTE_P =? 0) then
                  run cprintf "%Cmapped %C0x%x  " [Col COLOR_YLW; Col COLOR_PUR; Int (PTE_ADDR e)];
                  run (if negb (Z.land e PTE_U =? 0)
                       then cprintf "%Cuser: " [Col COLOR_BLK]
                       else cprintf "%Ckernel: " [Col COLOR_BLK]);
                  run (if negb (Z.land e PTE_W =? 0)
                       then cprintf "%Cread/write" [Col COLOR_PUR]
                       else cprintf "%Cread only" [Col COLOR_PUR]);
                  cprintf "\n%C" [Col COLOR_CYN]
                else cprintf "%Cnot mapped\n%C" [Col COLOR_RED; Col COLOR_CYN]
            | None => cprintf "%Cnot mapped\n%C" [Col COLOR_RED; Col COLOR_CYN]
            end;
        showmappings_loop fuel' hva (u32 (i + PGSIZE))
      else ret tt
  end.

Definition mon_showmappings : handler := fun fuel argc argv tf =>
  run (if argc =? 3 then
         let lva := ROUNDDOWN (strtol (arg argv 1)) PGSIZE in
         let hva := ROUNDUP (strtol (arg argv 2)) PGSIZE in
         if lva <=? hva then showmappings_loop fuel hva lva
         else cprintf "%Cshowmappings: Invalid address\n%C" [Col COLOR_RED; Col COLOR_CYN]
       else cprintf "%CUsage: showmappings LOWER_VIRTUAL_ADDR HIGHER_VIRTUAL_ADDR\n%C"
              [Col COLOR_GRN; Col COLOR_CYN]);
  ret 0.

Definition mon_alloc_page : handler := fun _ argc argv tf =>
  do '(r, page) <- page_alloc;
  run (if r =? 0 then
         do n <- read_ref page;
         run write_ref page (n + 1);
         cprintf "    %C0x%x\n%C" [Col COLOR_GRN; Int (page2pa page); Col COLOR_CYN]
       else cprintf "    %CAllocate failed!\n%C" [Col COLOR_RED; Col COLOR_CYN]);
  ret 0.

Definition mon_free_page : handler := fun _ argc argv tf =>
  run (if argc =? 2 then
         do page <- pa2page (strtol (arg argv 1));
         do n <- read_ref page;
         if n =? 1 then
           run page_decref page;
           cprintf "    %CFree successfully!\n%C" [Col COLOR_GRN; Col COLOR_CYN]
         else cprintf "    %CFree failed!\n%C" [Col COLOR_RED; Col COLOR_CYN]
       else cprintf "%CUsage: free_page PHYSIC_ADDR\n%C" [Col COLOR_GRN; Col COLOR_CYN]);
  ret 0.

Definition mon_page_status : handler := fun _ argc argv tf =>
  run (if argc =? 2 then
         do page <- pa2page (strtol (arg argv 1));
         do n <- read_ref page;
         if 0 <? n then cprintf "    %Callocated\n%C" [Col COLOR_GRN; Col COLOR_CYN]
         else cprintf "    %Cfree\n%C" [Col COLOR_GRN; Col COLOR_CYN]
       else cprintf "%CUsage: page_status PHYSIC_ADDR\n%C" [Col COLOR_GRN; Col COLOR_CYN]);
  ret 0.

Definition commands : list Command :=
  [ mkCommand "help" "Display this list of commands" mon_help;
    mkCommand "kerninfo" "Display information about the kernel" mon_kerninfo;
    mkCommand "backtrace" "Display a listing of function call frames" mon_backtrace;
    mkCommand "showmappings" "Display physical mappings and corresponding info"
              mon_showmappings;
    mkCommand "alloc_page" "Allocate pages explicitly" mon_alloc_page;
    mkCommand "free_page" "Free pages explicitly" mon_free_page;
    mkCommand "page_status" "Display status of any given page of physical memory"
              mon_page_status ]%string.

(** *** [runcmd] *)

(** The loop over the table: the first entry whose name equals
    [argv[0]] is called. *)
Fixpoint lookup (cmds : list Command) (fuel : nat) (argc : Z) (argv : list string)
         (tf : Z) : M MonState Z :=
  match cmds with
  | c :: cmds' =>
      if String.eqb (arg argv 0) (name c) then func c fuel argc argv tf
      else lookup cmds' fuel argc argv tf
  | [] =>
      run cprintf "%CUnknown command '%s'\n%C"
            [Col COLOR_RED; Str (arg argv 0); Col COLOR_CYN];
      ret 0
  end.

Definition runcmd (fuel : nat) (buf : list ascii) (tf : Z) : M MonState Z :=
  match parse (S (length buf)) [] [] buf with
  | None => spin
  | Some TooMany =>
      run cprintf "%CToo many arguments (max %d)\n%C"
            [Col COLOR_RED; Int MAXARGS; Col COLOR_CYN];
      ret 0
  | Some (Args offs buf') =>
      let argv := cstr_at buf' <$> offs in
      let argc := Z.of_nat (length offs) in
      if argc =? 0 then ret 0
      else lookup commands fuel argc argv tf
  end.

(** *** [monitor]

    Modelled from the spec: [readline] of [lib/readline.c] is not part of
    the sources at hand. The buffers it returns, one per call, are given
    as [input], a null pointer as [None]; what [readline] itself prints
    (the prompt and the echo) is not recorded. When the input is used up
    the monitor is waiting in [readline]. *)
Fixpoint monitor_loop (fuel : nat) (input : list (option (list ascii))) (tf : Z)
  : M MonState unit :=
  match input with
  | [] => spin
  | buf :: input' =>
      match buf with
      | Some b =>
          do r <- runcmd fuel b tf;
          if r <? 0 then ret tt else monitor_loop fuel input' tf
      | None => monitor_loop fuel input' tf
      end
  end.

Definition monitor (fuel : nat) (input : list (option (list ascii))) (tf : Z)
  : M MonState unit :=
  run cprintf "%CWelcome to the JOS kernel monitor!\n" [Col COLOR_PUR];
  run cprintf "%CType 'help' for a list of commands.\n%C" [Col COLOR_BLK; Col COLOR_CYN];
  monitor_loop fuel input tf.
End WithStrtol.
End Monitor.

(** * Concrete instances

    Kernels, machines and command lines on which the definitions are
    run. *)

Module IpcExamples.
Import Ipc.

Definition no_env : Env := mkEnv 0 0 0 0.

(** A kernel whose target starts to receive after two attempts: the
    first four calls (two attempts, two yields) return "not
    receiving". *)
Definition late_kernel : Kernel :=
  mkKernel (fun hist _ => if (length hist <? 4)%nat then - E_IPC_NOT_RECV else 0)
           (fun _ _ => no_env).

(** The same, with a bad environment found at the third attempt. *)
Definition bad_env_kernel : Kernel :=
  mkKernel (fun hist _ => if (length hist <? 4)%nat then - E_IPC_NOT_RECV else - E_BAD_ENV)
           (fun _ _ => no_env).

Definition start : UState := mkUState [] ∅ 1.

(** A kernel that checks the slot of a receive: [sys_ipc_recv] fails
    with [-E_INVAL] for a slot below [UTOP] that is not page aligned, and
    succeeds for every other slot; every other call succeeds. *)
Definition checking_kernel : Kernel :=
  mkKernel (fun _ c => match c with
                       | SYS_ipc_recv dstva =>
                           if (dstva <? UTOP) && negb (dstva mod PGSIZE =? 0)
                           then - E_INVAL else 0
                       | _ => 0
                       end)
           (fun _ _ => no_env).

(** A kernel that delivers at once: every call returns 0, and every entry
    of [envs] holds a message of 42 from [0x1002] with permission 7. *)
Definition delivering_kernel : Kernel :=
  mkKernel (fun _ _ => 0) (fun _ _ => mkEnv 0x1001 0x1002 7 42).
End IpcExamples.

Module SpawnExamples.
Import Spawn.

Definition le16 (v : Z) : list Z := [v mod 256; v / 256 mod 256].
Definition le32 (v : Z) : list Z := le16 (v mod 65536) ++ le16 (v / 65536).

(** An ELF header that announces [phnum] program headers right after
    it. *)
Definition elf_header (magic entry phnum : Z) : list Z :=
  le32 magic ++ replicate 12 0 ++ le16 2 ++ le16 3 ++ le32 1
  ++ le32 entry ++ le32 52 ++ le32 0 ++ le32 0
  ++ le16 52 ++ le16 32 ++ le16 phnum ++ le16 0 ++ le16 0 ++ le16 0.

Definition proghdr_bytes (ph : Proghdr) : list Z :=
  le32 (p_type ph) ++ le32 (p_offset ph) ++ le32 (p_va ph) ++ le32 (p_pa ph)
  ++ le32 (p_filesz ph) ++ le32 (p_memsz ph) ++ le32 (p_flags ph) ++ le32 (p_align ph).

Definition pad_page (l : list Z) : list Z :=
  take (Z.to_nat PGSIZE) (l ++ replicate (Z.to_nat PGSIZE) 0).

(** A page of non-zero bytes, different from block to block. *)
Definition pattern (k : Z) : list Z :=
  (fun i => (Z.of_nat i * 7 + k) mod 251 + 1) <$> seq 0 (Z.to_nat PGSIZE).

Definition text_ph : Proghdr := mkProghdr ELF_PROG_LOAD 0x1000 0x00800000 0x00800000 0x1000 0x1000 5 0x1000.

(** Data and bss: 16 bytes of the file, two pages of memory. *)
Definition data_ph : Proghdr := mkProghdr ELF_PROG_LOAD 0x2000 0x00801000 0x00801000 0x10 0x1800 6 0x1000.

(** Data and bss whose file-backed part ends on a page boundary: one
    page of the file, a page and a half of memory. *)
Definition boundary_ph : Proghdr := mkProghdr ELF_PROG_LOAD 0x2000 0x00801000 0x00801000 0x1000 0x1800 6 0x1000.

(** Data and bss that start four bytes into a page, in the file and in
    memory alike: 8 bytes of the file, 16 bytes of memory. *)
Definition unaligned_ph : Proghdr := mkProghdr ELF_PROG_LOAD 0x2004 0x00801004 0x00801004 8 16 6 0x1000.

Definition image (magic : Z) (phs : list Proghdr) : list Z :=
  pad_page (elf_header magic 0x00800020 (Z.of_nat (length phs))
            ++ mjoin (proghdr_bytes <$> phs)).

Definition three_blocks (b : nat) : File := mkFile (3 * PGSIZE) [b; S b; S (S b)].

Definition parent : Env := mkEnv 0x1001 0 ENV_RUNNABLE (mkTrapframe 0x00800020 USTACKTOP 0x200) ∅.

(** A machine with the parent environment running, three executables in
    the file system and free pages 10 to 19. *)
Definition machine : Machine :=
  mkMachine
    (list_to_map
       [ (100%nat, image ELF_MAGIC [text_ph; data_ph]); (101%nat, pattern 1); (102%nat, pattern 2);
         (110%nat, image ELF_MAGIC [text_ph; unaligned_ph]); (111%nat, pattern 3); (112%nat, pattern 4);
         (120%nat, image 0x464C457E [text_ph; data_ph]); (121%nat, pattern 5); (122%nat, pattern 6);
       (130%nat, image ELF_MAGIC [text_ph; boundary_ph]); (131%nat, pattern 7); (132%nat, pattern 8) ])
    (seq 10 10)
    {[ 1 := parent ]}
    1
    [0x1002; 0x1003]
    (list_to_map
       [ ("prog"%string, three_blocks 100); ("unaligned"%string, three_blocks 110);
         ("junk"%string, three_blocks 120); ("boundary"%string, three_blocks 130) ])
    []
    []
    [].

Definition str (s : string) : list Z :=
  (fun c => Z.of_nat (nat_of_ascii c)) <$> list_ascii_of_string s.

Definition prog_hello : list (list Z) := [str "prog"; str "hello"].

(** The machine after the parent has called [sys_exofork]: the child
    [0x1002] exists. *)
Definition forked : Machine := (sys_exofork machine).2.

(** One argument of [0x401000] bytes: with its terminator it is one byte
    longer than [UTEMP + PGSIZE]. *)
Definition huge_argv : list (list Z) := [replicate (Z.to_nat 0x401000) 97].

(** The machine [m] with the failures [l] injected into its next system
    calls. *)
Definition with_inject (l : list (option Z)) (m : Machine) : Machine := set_inject l m.


(** The machine after the parent has opened "unaligned", as descriptor 0,
    and called [sys_exofork]. *)
Definition opened_unaligned : Machine := (sys_exofork (open "unaligned" O_RDWR machine).2).2.
End SpawnExamples.

(** * Definitions used to state the properties *)

Module SpawnSpec.
Import Spawn.

(** The bytes [bs] written into a page from offset [off] on. *)
Fixpoint write_bytes (off : nat) (bs : list Z) (pg : list Z) : list Z :=
  match bs with
  | [] => pg
  | b :: bs' => write_bytes (S off) bs' (<[off := b mod 256]> pg)
  end.

(** The four bytes that [store32] stores for [v]. *)
Definition word_bytes (v : Z) : list Z := [v; v / 2 ^ 8; v / 2 ^ 16; v / 2 ^ 24].

(** The layout of the stack page, as offsets in the page, without
    wrap-around: the bytes of the strings with their terminators, the
    offset of the first string, of [argv_store] and of the two trailing
    words. *)
Definition strings_size (argv : list (list Z)) : Z :=
  foldr (fun s acc => strlen s + 1 + acc) 0 argv.
Definition str_off (argv : list (list Z)) : Z := PGSIZE - strings_size argv.
Definition argv_off (argv : list (list Z)) : Z :=
  str_off argv - str_off argv mod 4 - 4 * (Z.of_nat (length argv) + 1).
Definition esp_off (argv : list (list Z)) : Z := argv_off argv - 8.

(** The strings, the pointer array with its null terminator and the two
    trailing words fit in one page. *)
Definition args_fit (argv : list (list Z)) : Prop := 0 <= esp_off argv.

(** The offset of the [i]-th string. *)
Definition string_off (argv : list (list Z)) (i : nat) : Z :=
  str_off argv + strings_size (take i argv).

(** The address in the child of the byte at offset [off] of its stack
    page. *)
Definition child_addr (off : Z) : Z := USTACKTOP - PGSIZE + off.

(** The page [pg] holds the bytes [bs] from offset [off] on. *)
Definition holds (pg : list Z) (off : Z) (bs : list Z) : Prop :=
  ∀ k b, bs !! k = Some b → pg !! Z.to_nat (off + Z.of_nat k) = Some (b mod 256).

(** The page-table entry of environment [e] (an index in [envs]) for
    [va]. *)
Definition env_pte (m : Machine) (e : Z) (va : Z) : option pte :=
  envs m !! e ≫= fun env => env_pgdir env !! va.

(** The blocks of file [f] are mapped, in the running environment, at the
    data area of descriptor [fdnum]: block [k] at
    [fd2data fdnum + k * PGSIZE]. *)
Definition file_mapped (m : Machine) (fdnum : Z) (f : File) : Prop :=
  ∀ k p, f_blocks f !! k = Some p →
         ∃ perm, env_pte m (curenv m) (fd2data fdnum + Z.of_nat k * PGSIZE) = Some (p, perm).

(** What the page of a data and bss segment for the file offset [i] is to
    hold: the bytes of the file before [limit], the end of the file-backed
    part, and zero from there on. *)
Definition data_page_expected (m : Machine) (f : File) (limit i : Z) : list Z :=
  (fun j => if i + Z.of_nat j <? limit then file_byte m f (i + Z.of_nat j) else 0)
    <$> seq 0 (Z.to_nat PGSIZE).

(** The physical page that backs the file at the page-aligned offset
    [off]. *)
Definition file_block (f : File) (off : Z) : option nat :=
  f_blocks f !! Z.to_nat (off / PGSIZE).
End SpawnSpec.

Module SpawnDataSpec.
Import Spawn SpawnSpec.

(** A page of zeros, as [memset(UTEMP, 0, PGSIZE)] leaves it. *)
Definition zero_page : list Z := replicate (Z.to_nat PGSIZE) 0.

(** The page that the data loop of [spawn] builds for the file offset
    [i], with the file positioned at [pos]: zero, then (for a page that
    starts before [limit]) what a [read] of a page delivers, then (for
    the page that holds [limit]) zero from [limit] on. *)
Definition data_page (m : Machine) (f : File) (pos limit i : Z) : list Z :=
  if i <? limit then
    let cnt := read_count (f_size f) pos PGSIZE in
    let pg := write_bytes 0 (file_bytes m f pos (Z.to_nat cnt)) zero_page in
    if i =? ROUNDDOWN limit PGSIZE
    then write_bytes (Z.to_nat (limit - i))
                     (replicate (Z.to_nat (PGSIZE - (limit - i))) 0) pg
    else pg
  else zero_page.

(** The position of the file after the page for [i]. *)
Definition next_pos (f : File) (pos limit i : Z) : Z :=
  if i <? limit then pos + read_count (f_size f) pos PGSIZE else pos.

(** The position of the file before the [k]-th page after [i]. *)
Fixpoint data_cursor (f : File) (limit pos i : Z) (k : nat) : Z :=
  match k with
  | O => pos
  | S k' => data_cursor f limit (next_pos f pos limit i) (i + PGSIZE) k'
  end.
End SpawnDataSpec.

Module MonitorSpec.
Import Monitor.

(** White space, as the specification has it: one of the characters of
    [WHITESPACE]. *)
Definition is_ws (c : ascii) : bool := bool_decide (c ∈ WHITESPACE).

(** A line split on white space: [cur] is the token being read. *)
Fixpoint tokens_from (cur : list ascii) (line : list ascii) : list (list ascii) :=
  match line with
  | [] => match cur with [] => [] | _ => [cur] end
  | c :: line' =>
      if is_ws c then
        match cur with
        | [] => tokens_from [] line'
        | _ => cur :: tokens_from [] line'
        end
      else tokens_from (cur ++ [c]) line'
  end.

(** The argument vector of a line. *)
Definition tokenize (line : list ascii) : list string :=
  string_of_list_ascii <$> tokens_from [] line.

(** The line with its white space overwritten. *)
Definition blank (line : list ascii) : list ascii :=
  (fun c => if is_ws c then NUL else c) <$> line.

(** What the specification says of an argument vector: nothing for an
    empty one; otherwise the first entry of the table whose name is the
    first token is called with the whole vector, and without such an
    entry "Unknown command" is printed. *)
Definition dispatch (strtol : string → Z) (fuel : nat) (argv : list string) (tf : Z)
  : M MonState Z :=
  match argv with
  | [] => ret 0
  | cmd :: _ =>
      match find (fun c => String.eqb cmd (name c)) (commands strtol) with
      | Some c => func c fuel (Z.of_nat (length argv)) argv tf
      | None =>
          run cprintf "%CUnknown command '%s'\n%C"
                [Col COLOR_RED; Str cmd; Col COLOR_CYN];
          ret 0
      end
  end.

(** The state after one more [cprintf]. *)
Definition printed (fmt : string) (args : list carg) (m : MonState) : MonState :=
  set_console (fun c => c ++ [(fmt, args)]) m.
End MonitorSpec.

Module MonitorExamples.
Import Monitor.

(** A [strtol] for decimal numerals. *)
Fixpoint decimal (acc : Z) (s : string) : Z :=
  match s with
  | EmptyString => acc
  | String c s' =>
      let d := Z.of_nat (nat_of_ascii c) - 48 in
      if (0 <=? d) && (d <=? 9) then decimal (10 * acc + d) s' else acc
  end.
Definition strtol (s : string) : Z := decimal 0 s.

(** A kernel with three pages: page 0 is free, page 1 has one reference,
    page 2 has two. *)
Definition kernel : MonState :=
  mkMonState [] [mkPage 0; mkPage 1; mkPage 2] [0%nat] ∅ 0 0 0 0 0 0
             (fun _ => 0) (fun _ => mkEipdebuginfo "" 0 "" 0 0).

Definition line (s : string) : list ascii := list_ascii_of_string s.

(** The same kernel inside a call: the frame at [0xF010FF88] was entered
    from the frame at [0xF010FFB8], which is the outermost one. The name
    that the debug information gives is followed by its type; its length
    is that of the name proper. *)
Definition in_call : MonState :=
  mkMonState [] [mkPage 0; mkPage 1; mkPage 2] [0%nat] ∅ 0 0 0 0
             0xF010FF88 0xF0100A3C
             (fun a => if a =? 0xF010FF88 then 0xF010FFB8
                       else if a =? 0xF010FF8C then 0xF0100068
                       else 0)
             (fun eip => if eip =? 0xF0100A3C
                         then mkEipdebuginfo "kern/monitor.c" 82 "mon_backtrace:F(0,1)" 13
                                             0xF0100A10
                         else mkEipdebuginfo "kern/init.c" 40 "i386_init:F(0,18)" 9
                                             0xF0100040).

(** Sixteen tokens, the first of them a command. *)
Definition sixteen : list ascii := line "help 1 2 3 4 5 6 7 8 9 10 11 12 13 14 15".
End MonitorExamples.

Module SpawnFrameSpec.
Import Spawn.



(** The descriptor that [open] adds, if it adds one. *)
Definition opened_path (prog : string) (m : Machine) : list string :=
  match fs m !! prog with
  | Some _ => if MAXFD <=? Z.of_nat (length (fds m)) then [] else [prog]
  | None => []
  end.
End SpawnFrameSpec.

Module SpawnRunSpec.
Import Spawn.

(** The bytes that [spawn] reads into [elf_buf]: the first 512 bytes of
    the file, or all of a shorter file. *)
Definition header (f : File) (m : Machine) : list Z :=
  file_bytes m f 0 (Z.to_nat (read_count (f_size f) 0 512)).

(** The machine after [open] and the [read] of the header: the file is
    open as the next free descriptor, its blocks are mapped at the data
    area of the descriptor, and it is positioned after the header. *)
Definition header_read (prog : string) (f : File) (m : Machine) : Machine :=
  let fdnum := Z.of_nat (length (fds m)) in
  set_fd_offset fdnum (0 + read_count (f_size f) 0 512)
    (set_envs (alter (set_pgdir (map_blocks (fd2data fdnum) (f_blocks f))) (curenv m))
       (set_fds (fun l => l ++ [mkFd prog 0]) m)).

(** [spawn] from [sys_exofork] on, for the descriptor [fdnum] and the
    header [elf_buf]. *)
Definition spawn_child (fdnum : Z) (elf_buf : list Z) (argv : list (list Z)) : M Machine Z :=
  do child <- sys_exofork;
  if child <? 0 then ret child
  else
    do tf <- read_env_tf (ENVX child);
    let child_tf := mkTrapframe (e_entry elf_buf) (tf_esp tf) (tf_eflags tf) in
    do '(r, esp) <- init_stack child argv (tf_esp child_tf);
    let child_tf := mkTrapframe (tf_eip child_tf) esp (tf_eflags child_tf) in
    if r <? 0 then ret r
    else
      do early <- load_segments fdnum child (proghdrs elf_buf);
      match early with
      | Some r => ret r
      | None =>
          do r <- sys_env_set_trapframe child child_tf;
          if r <? 0 then ret r
          else
            do r <- sys_env_set_status child ENV_RUNNABLE;
            if r <? 0 then ret r
            else ret child
      end.

(** The environment that [sys_exofork] creates for the id [id] as a
    child of [cur]. *)
Definition new_env (id : Z) (cur : Env) : Env :=
  mkEnv id (env_id cur) ENV_NOT_RUNNABLE (env_tf cur) ∅.

(** The machine after [sys_exofork] has handed out the id [id]. *)
Definition exoforked (id : Z) (ids : list Z) (cur : Env) (m : Machine) : Machine :=
  set_envs (insert (ENVX id) (new_env id cur))
    (set_env_free_list ids (log SYS_exofork m)).

(** The pages that [spawn] allocates for the segment [ph]: one for every
    page of a loadable segment with the write flag, none for any other
    segment. *)
Definition seg_pages (ph : Proghdr) : nat :=
  if (p_type ph =? ELF_PROG_LOAD) && negb (Z.land (p_flags ph) ELF_PROG_FLAG_WRITE =? 0)
  then Z.to_nat ((ROUNDUP (u32 (p_memsz ph + p_offset ph)) PGSIZE
                  - ROUNDDOWN (p_offset ph) PGSIZE) / PGSIZE)
  else O.

(** A segment that [spawn] can load from the file [f]: a loadable segment
    without the write flag lies within the blocks of the file; every
    loadable segment ends, in memory, below the stack page. *)
Definition seg_fits (f : File) (ph : Proghdr) : Prop :=
  if p_type ph =? ELF_PROG_LOAD then
    let start := ROUNDDOWN (p_offset ph) PGSIZE in
    let va := ROUNDDOWN (p_va ph) PGSIZE in
    if Z.land (p_flags ph) ELF_PROG_FLAG_WRITE =? 0 then
      let end_ := ROUNDUP (u32 (p_filesz ph + p_offset ph)) PGSIZE in
      end_ <= Z.of_nat (length (f_blocks f)) * PGSIZE
      ∧ end_ <= MAXFILESIZE
      ∧ va + (end_ - start) <= USTACKTOP - PGSIZE
    else
      let end_ := ROUNDUP (u32 (p_memsz ph + p_offset ph)) PGSIZE in
      va + (end_ - start) <= USTACKTOP - PGSIZE
  else True.

(** The ELF header and the program headers that it announces lie within
    the bytes that [read] delivered into [elf_buf]. *)
Definition headers_read (elf_buf : list Z) : Prop :=
  52 <= Z.of_nat (length elf_buf)
  ∧ e_phoff elf_buf + 32 * e_phnum elf_buf <= Z.of_nat (length elf_buf).

(** The pages of a loadable segment: those of the file from [seg_start]
    to [seg_end], at the addresses of the child from [seg_va] on. *)
Definition seg_start (ph : Proghdr) : Z := ROUNDDOWN (p_offset ph) PGSIZE.
Definition seg_va (ph : Proghdr) : Z := ROUNDDOWN (p_va ph) PGSIZE.
Definition seg_end (ph : Proghdr) : Z :=
  if Z.land (p_flags ph) ELF_PROG_FLAG_WRITE =? 0
  then ROUNDUP (u32 (p_filesz ph + p_offset ph)) PGSIZE
  else ROUNDUP (u32 (p_memsz ph + p_offset ph)) PGSIZE.

(** A loadable segment without the write flag. *)
Definition text_seg (ph : Proghdr) : Prop :=
  p_type ph = ELF_PROG_LOAD ∧ Z.land (p_flags ph) ELF_PROG_FLAG_WRITE = 0.

(** The addresses of the child at which [spawn] maps the pages of the
    segment. *)
Definition seg_covers (ph : Proghdr) (w : Z) : Prop :=
  p_type ph = ELF_PROG_LOAD
  ∧ seg_va ph <= w < seg_va ph + (seg_end ph - seg_start ph).

(** No two segments have a page of the child in common. *)
Fixpoint segs_apart (phs : list Proghdr) : Prop :=
  match phs with
  | [] => True
  | ph :: phs' =>
      (∀ ph' w, ph' ∈ phs' → seg_covers ph w → ¬ seg_covers ph' w) ∧ segs_apart phs'
  end.

(** The pages that the [j]-th segment takes from the free pages
    [frees], of which every segment before it has taken its own. *)
Definition seg_frees (phs : list Proghdr) (frees : list nat) (j : nat) : list nat :=
  take (default O (seg_pages <$> phs !! j))
       (drop (sum_list (seg_pages <$> take j phs)) frees).
End SpawnRunSpec.

Module MonitorReport.
Import Monitor.

(** A run that returns, returns 0. *)
Definition returns_zero (r : result Z * MonState) : Prop :=
  match r.1 with Ok v => v = 0 | _ => True end.

(** What [parse] leaves for a buffer of [n] characters: at most 15
    offsets, all inside the buffer, and a buffer of the same length. *)
Definition parsed_within (n : nat) (p : parsed) : Prop :=
  match p with
  | Args offs buf' =>
      (length offs <= 15)%nat ∧ length buf' = n ∧ Forall (fun o => (o < n)%nat) offs
  | TooMany => True
  end.

(** The line that [mon_help] prints for an entry of the table. *)
Definition help_line (c : Command) : string * list carg :=
  ("%C%s %C- %C%s\n%C"%string,
   [Col COLOR_GRN; Str (name c); Col COLOR_CYN; Col COLOR_YLW; Str (desc c); Col COLOR_CYN]).

(** The [cprintf] calls of [mon_showmappings] for the page at [i]: the
    range, then what the entry [pte] of the page table says. *)
Definition range_line (i : Z) : string * list carg :=
  ("%C0x%x %C- %C0x%x    "%string,
   [Col COLOR_GRN; Int i; Col COLOR_CYN; Col COLOR_GRN; Int (u32 (i + PGSIZE))]).

Definition mapping_lines (pte : option Z) : list (string * list carg) :=
  match pte with
  | Some e =>
      if negb (Z.land e PTE_P =? 0) then
        [ ("%Cmapped %C0x%x  "%string, [Col COLOR_YLW; Col COLOR_PUR; Int (PTE_ADDR e)]);
          (if negb (Z.land e PTE_U =? 0) then "%Cuser: "%string else "%Ckernel: "%string,
           [Col COLOR_BLK]);
          (if negb (Z.land e PTE_W =? 0) then "%Cread/write"%string else "%Cread only"%string,
           [Col COLOR_PUR]);
          ("\n%C"%string, [Col COLOR_CYN]) ]
      else [ ("%Cnot mapped\n%C"%string, [Col COLOR_RED; Col COLOR_CYN]) ]
  | None => [ ("%Cnot mapped\n%C"%string, [Col COLOR_RED; Col COLOR_CYN]) ]
  end.

Definition page_report (m : MonState) (i : Z) : list (string * list carg) :=
  range_line i :: mapping_lines (boot_pgdir m !! i).

(** The pages [lva], [lva + PGSIZE], ... ([n] of them). *)
Definition pages_from (lva : Z) (n : nat) : list Z :=
  (fun k => lva + Z.of_nat k * PGSIZE) <$> seq 0 n.

(** The saved frame pointer and the return address of the frame at
    [ebp]. *)
Definition saved_ebp (m : MonState) (ebp : Z) : Z := kmem m (u32 (ebp + 4 * 0)).
Definition saved_eip (m : MonState) (ebp : Z) : Z := kmem m (u32 (ebp + 4 * 1)).

(** The saved frame pointers from [ebp] on form a chain of [n] frames
    that ends with a null frame pointer, and the name of the function of
    every frame, as the debug information for its instruction pointer
    gives it, fits in [func_name] with its terminator. *)
Fixpoint frame_chain (m : MonState) (n : nat) (ebp eip : Z) : Prop :=
  match n with
  | O => ebp = 0
  | S n' =>
      ebp ≠ 0
      ∧ 0 <= eip_fn_namelen (debuginfo m eip) < FUNC_NAME_SIZE
      ∧ frame_chain m n' (saved_ebp m ebp) (saved_eip m ebp)
  end.

(** The frame and instruction pointers of the [n] frames from [ebp]
    on. *)
Fixpoint frames (m : MonState) (n : nat) (ebp eip : Z) : list (Z * Z) :=
  match n with
  | O => []
  | S n' => (ebp, eip) :: frames m n' (saved_ebp m ebp) (saved_eip m ebp)
  end.

(** The two [cprintf] calls of [mon_backtrace] for a frame: the source
    position with the name of the function cut to its length, then the
    frame pointer, the return address and five arguments. *)
Definition frame_lines (m : MonState) (fr : Z * Z) : list (string * list carg) :=
  let '(ebp, eip) := fr in
  let info := debuginfo m eip in
  let w k := kmem m (u32 (ebp + 4 * k)) in
  [ ("%C%s:%d: %s+%x\n"%string,
     [Col COLOR_YLW; Str (eip_file info); Int (eip_line info);
      Str (substring 0 (Z.to_nat (eip_fn_namelen info)) (eip_fn_name info));
      Int (u32 (eip - eip_fn_addr info))]);
    ("  ebp %08x  eip %08x  args %08x %08x %08x %08x %08x\n%C"%string,
     [Int ebp; Int (w 1); Int (w 2); Int (w 3); Int (w 4); Int (w 5); Int (w 6);
      Col COLOR_CYN]) ].
End MonitorReport.

(** * Properties *)

(** The test [x <? 0] on a value known to be negative. *)
Ltac case_neg :=
  match goal with
  | |- context [?x <? 0] => destruct (Z.ltb_spec x 0); [|lia]
  end.

(** ** lib/ipc.c *)

Section IpcFacts.
Import Ipc.

Variable k : Kernel.

(** The page slot that is right to pass to [sys_ipc_recv] and
    [sys_ipc_try_send]: the caller's address, or [UTOP] for none. *)
Definition resolved_slot (pg : Z) : Z := if pg =? NULL then UTOP else pg.

(** The store of zero through an out-parameter, when it is not null. *)
Definition zero_out (p : Z) (m : gmap Z Z) : gmap Z Z :=
  if p =? NULL then m else <[p := 0]> m.

Lemma zero_out_lookup p m a :
  zero_out p m !! a = if decide (p ≠ NULL ∧ a = p) then Some 0 else m !! a.
Proof.
  unfold zero_out. destruct (Z.eqb_spec p NULL) as [->|Hp].
  - destruct (decide _) as [[? _]|]; [done|done].
  - destruct (decide (a = p)) as [->|Ha].
    + rewrite lookup_insert_eq. by rewrite decide_True.
    + rewrite lookup_insert_ne by done. rewrite decide_False; [done|]. tauto.
Qed.

(** What both revisions of [ipc_recv] do once [sys_ipc_recv] has
    returned the error [err] for the slot [slot]. *)
Lemma lab5_ipc_recv_failed st from_env_store pg perm_store :
  k_ret k (calls st) (SYS_ipc_recv (resolved_slot pg)) < 0 →
  Lab5.ipc_recv k from_env_store pg perm_store st =
    (Ok (k_ret k (calls st) (SYS_ipc_recv (resolved_slot pg))),
     {| calls := calls st ++ [SYS_ipc_recv (resolved_slot pg)];
        mem := zero_out perm_store (zero_out from_env_store (mem st));
        env := env st |}).
Proof.
  intros Herr. unfold Lab5.ipc_recv, resolved_slot in *.
  unfold bind, sys_ipc_recv, syscall_, when, store, ret, zero_out.
  destruct (pg =? NULL); simpl in *; case_neg;
    destruct (from_env_store =? NULL), (perm_store =? NULL); simpl; reflexivity.
Qed.

(** The slot that the lab 4 revision passes. *)
Definition lab4_slot (pg : Z) : Z := if negb (pg =? NULL) then UTOP else pg.

Lemma lab4_ipc_recv_failed st from_env_store pg perm_store :
  k_ret k (calls st) (SYS_ipc_recv (lab4_slot pg)) < 0 →
  Lab4.ipc_recv k from_env_store pg perm_store st =
    (Ok (k_ret k (calls st) (SYS_ipc_recv (lab4_slot pg))),
     {| calls := calls st ++ [SYS_ipc_recv (lab4_slot pg)];
        mem := zero_out perm_store (zero_out from_env_store (mem st));
        env := env st |}).
Proof.
  intros Herr. unfold Lab4.ipc_recv, lab4_slot in *.
  unfold bind, sys_ipc_recv, syscall_, when, store, ret, zero_out.
  destruct (pg =? NULL); simpl in *; case_neg;
    destruct (from_env_store =? NULL), (perm_store =? NULL); simpl; reflexivity.
Qed.

(** The later revision of [ipc_recv] issues exactly one [sys_ipc_recv],
    first of all its calls, and passes the resolved slot. *)
Lemma lab5_ipc_recv_slot st from_env_store pg perm_store :
  calls (snd (Lab5.ipc_recv k from_env_store pg perm_store st))
  = calls st ++ [SYS_ipc_recv (resolved_slot pg)].
Proof.
  unfold Lab5.ipc_recv, resolved_slot.
  unfold bind, sys_ipc_recv, syscall_, when, store, ret, read_env.
  destruct (pg =? NULL); simpl;
    match goal with |- context [?x <? 0] => destruct (x <? 0) end;
    destruct (from_env_store =? NULL), (perm_store =? NULL); simpl; reflexivity.
Qed.

(** The lab 4 revision issues [sys_ipc_recv] first of all its calls
    too, with the slot of [lab4_slot]. *)
Lemma lab4_ipc_recv_slot st from_env_store pg perm_store :
  calls (snd (Lab4.ipc_recv k from_env_store pg perm_store st)) !! length (calls st)
  = Some (SYS_ipc_recv (lab4_slot pg)).
Proof.
  unfold Lab4.ipc_recv, lab4_slot.
  unfold bind, sys_ipc_recv, sys_getenvid, syscall_, when, store, ret, read_env, read_envs.
  destruct (pg =? NULL); simpl;
    match goal with |- context [?x <? 0] => destruct (x <? 0) end;
    destruct (from_env_store =? NULL), (perm_store =? NULL); simpl;
    rewrite <- ?app_assoc; simpl; by rewrite list_lookup_middle.
Qed.

(** *** The retry loop of [ipc_send] *)

Section Send.
Variables (st : UState) (to_env val pg perm : Z).

(** One attempt, and the calls issued once [j] attempts have failed
    with "not receiving". *)
Definition attempt : syscall := SYS_ipc_try_send to_env val (resolved_slot pg) perm.
Definition after_retries (j : nat) : list syscall :=
  calls st ++ mjoin (replicate j [attempt; SYS_yield]).

Lemma after_retries_S j :
  after_retries (S j) = (after_retries j ++ [attempt]) ++ [SYS_yield].
Proof.
  unfold after_retries. rewrite <- !app_assoc. f_equal.
  replace (S j) with (j + 1)%nat by lia.
  rewrite replicate_add, join_app. simpl. by rewrite ?app_nil_r.
Qed.

(** The state in which the [j + 1]-st attempt is made. *)
Definition retrying (j : nat) : UState :=
  {| calls := after_retries j; mem := mem st; env := env st |}.

(** The state in which the loop is left by the attempt after [n]
    failed ones. *)
Definition left_after (n : nat) : UState :=
  {| calls := after_retries n ++ [attempt]; mem := mem st; env := env st |}.

Lemma lab5_ipc_send_step fuel j :
  k_ret k (after_retries j) attempt = - E_IPC_NOT_RECV →
  Lab5.ipc_send k (S fuel) to_env val pg perm (retrying j)
  = Lab5.ipc_send k fuel to_env val pg perm (retrying (S j)).
Proof.
  intros Hk. cbn [Lab5.ipc_send].
  unfold bind at 1. unfold sys_ipc_try_send, syscall_. cbn [calls retrying].
  replace (if negb (pg =? NULL) then pg else UTOP) with (resolved_slot pg)
    by (unfold resolved_slot; by destruct (pg =? NULL)).
  fold attempt. rewrite Hk. change (- E_IPC_NOT_RECV <? 0) with true. cbn iota.
  rewrite Z.eqb_refl. unfold when, bind, ret, sys_yield, syscall_, bind, ret.
  cbn. unfold retrying. by rewrite after_retries_S.
Qed.

Lemma lab4_ipc_send_step fuel j :
  k_ret k (after_retries j) attempt = - E_IPC_NOT_RECV →
  Lab4.ipc_send k (S fuel) to_env val pg perm (retrying j)
  = Lab4.ipc_send k fuel to_env val pg perm (retrying (S j)).
Proof.
  intros Hk. cbn [Lab4.ipc_send].
  unfold bind at 1. unfold sys_ipc_try_send, syscall_. cbn [calls retrying].
  replace (if negb (pg =? NULL) then pg else UTOP) with (resolved_slot pg)
    by (unfold resolved_slot; by destruct (pg =? NULL)).
  fold attempt. rewrite Hk. change (- E_IPC_NOT_RECV <? 0) with true. cbn iota.
  rewrite Z.eqb_refl. unfold when, bind, ret, sys_yield, syscall_, bind, ret.
  cbn. unfold retrying. by rewrite after_retries_S.
Qed.

(** The last attempt: success returns, any error other than "not
    receiving" panics. *)
Definition send_outcome (r : Z) : result unit :=
  if r <? 0 then Panicked "ipc_send: send message failed. %e" r else Ok tt.

Lemma lab5_ipc_send_last fuel j :
  k_ret k (after_retries j) attempt ≠ - E_IPC_NOT_RECV →
  Lab5.ipc_send k (S fuel) to_env val pg perm (retrying j)
  = (send_outcome (k_ret k (after_retries j) attempt), left_after j).
Proof.
  intros Hk. cbn [Lab5.ipc_send].
  unfold bind at 1. unfold sys_ipc_try_send, syscall_. cbn [calls retrying].
  replace (if negb (pg =? NULL) then pg else UTOP) with (resolved_slot pg)
    by (unfold resolved_slot; by destruct (pg =? NULL)).
  fold attempt. unfold send_outcome.
  destruct (k_ret k (after_retries j) attempt <? 0); [|done].
  apply Z.eqb_neq in Hk. rewrite Hk. done.
Qed.

Lemma lab4_ipc_send_last fuel j :
  k_ret k (after_retries j) attempt ≠ - E_IPC_NOT_RECV →
  Lab4.ipc_send k (S fuel) to_env val pg perm (retrying j)
  = (send_outcome (k_ret k (after_retries j) attempt), left_after j).
Proof.
  intros Hk. cbn [Lab4.ipc_send].
  unfold bind at 1. unfold sys_ipc_try_send, syscall_. cbn [calls retrying].
  replace (if negb (pg =? NULL) then pg else UTOP) with (resolved_slot pg)
    by (unfold resolved_slot; by destruct (pg =? NULL)).
  fold attempt. unfold send_outcome.
  destruct (k_ret k (after_retries j) attempt <? 0); [|done].
  apply Z.eqb_neq in Hk. rewrite Hk. done.
Qed.

(** [send] is either revision of [ipc_send]: the two have the same
    loop. *)
Definition is_ipc_send (send : nat → Z → Z → Z → Z → M UState unit) : Prop :=
  send = Lab4.ipc_send k ∨ send = Lab5.ipc_send k.

Lemma ipc_send_retries send n :
  is_ipc_send send →
  (∀ j, (j < n)%nat → k_ret k (after_retries j) attempt = - E_IPC_NOT_RECV) →
  ∀ fuel, send (n + fuel)%nat to_env val pg perm (retrying 0)
          = send fuel to_env val pg perm (retrying n).
Proof.
  intros Hsend Hk. induction n as [|n IH]; intros fuel; [done|].
  replace (S n + fuel)%nat with (n + S fuel)%nat by lia.
  rewrite IH by (intros; apply Hk; lia).
  destruct Hsend as [-> | ->].
  - apply lab4_ipc_send_step, Hk. lia.
  - apply lab5_ipc_send_step, Hk. lia.
Qed.

Lemma retrying_0 : retrying 0 = st.
Proof. unfold retrying, after_retries. simpl. rewrite app_nil_r. by destruct st. Qed.
End Send.
End IpcFacts.

(** C1 (as the lab 4 revision has it): [ipc_recv] of [lab4/lib/ipc.c]
    passes [UTOP], the "no page" value, to [sys_ipc_recv] when the caller
    supplies the page slot [0x00800000], and passes the null pointer when
    the caller supplies none: the test on [pg] is inverted. *)
Theorem C1_lab4_ipc_recv_slot_inverted
        (k : Ipc.Kernel) (st : Ipc.UState) (from_env_store perm_store : Z) :
  Ipc.calls (snd (Ipc.Lab4.ipc_recv k from_env_store 0x00800000 perm_store st))
    !! length (Ipc.calls st) = Some (Ipc.SYS_ipc_recv UTOP)
  ∧ Ipc.calls (snd (Ipc.Lab4.ipc_recv k from_env_store NULL perm_store st))
    !! length (Ipc.calls st) = Some (Ipc.SYS_ipc_recv NULL).
Proof. split; apply lab4_ipc_recv_slot. Qed.

(** C4: [ipc_send] (either revision) passes [pg], or [UTOP] when [pg] is
    null, to every [sys_ipc_try_send]. While the attempts fail with
    [-E_IPC_NOT_RECV] it yields and tries again: after [fuel <= n] rounds
    it is still in the loop, having issued [fuel] attempts each followed
    by a yield. The first attempt that returns anything else ends the
    call: a negative value makes it panic with that value, any other makes
    it return; no yield follows that attempt. *)
Theorem C4_ipc_send_retry
        (k : Ipc.Kernel) (st : Ipc.UState) (to_env val pg perm : Z)
        (send : nat → Z → Z → Z → Z → M Ipc.UState unit) (n : nat) (r : Z) :
  is_ipc_send k send →
  (∀ j, (j < n)%nat →
        Ipc.k_ret k (after_retries st to_env val pg perm j) (attempt to_env val pg perm)
        = - E_IPC_NOT_RECV) →
  Ipc.k_ret k (after_retries st to_env val pg perm n) (attempt to_env val pg perm) = r →
  r ≠ - E_IPC_NOT_RECV →
  (∀ fuel, (fuel <= n)%nat →
           send fuel to_env val pg perm st = (Spinning, retrying st to_env val pg perm fuel))
  ∧ (∀ fuel, (n < fuel)%nat →
             send fuel to_env val pg perm st
             = (if r <? 0 then Panicked "ipc_send: send message failed. %e" r else Ok tt,
                left_after st to_env val pg perm n)).
Proof.
  intros Hsend Hk Hr Hne. split; intros fuel Hfuel.
  - rewrite <- (retrying_0 st to_env val pg perm) at 1.
    replace fuel with (fuel + 0)%nat at 1 by lia.
    rewrite (ipc_send_retries k st to_env val pg perm send fuel Hsend)
      by (intros; apply Hk; lia).
    by destruct Hsend as [-> | ->].
  - rewrite <- (retrying_0 st to_env val pg perm) at 1.
    replace fuel with (n + S (fuel - S n))%nat by lia.
    rewrite (ipc_send_retries k st to_env val pg perm send n Hsend) by done.
    subst r. destruct Hsend as [-> | ->].
    + by apply lab4_ipc_send_last.
    + by apply lab5_ipc_send_last.
Qed.

Lemma C4_ipc_send_retry_witness :
  Ipc.Lab5.ipc_send IpcExamples.late_kernel 1 7 42 NULL 0 IpcExamples.start
  = (Spinning,
     Ipc.mkUState [Ipc.SYS_ipc_try_send 7 42 UTOP 0; Ipc.SYS_yield] ∅ 1)
  ∧ Ipc.Lab5.ipc_send IpcExamples.late_kernel 3 7 42 NULL 0 IpcExamples.start
    = (Ok tt,
       Ipc.mkUState [Ipc.SYS_ipc_try_send 7 42 UTOP 0; Ipc.SYS_yield;
                     Ipc.SYS_ipc_try_send 7 42 UTOP 0; Ipc.SYS_yield;
                     Ipc.SYS_ipc_try_send 7 42 UTOP 0] ∅ 1).
Proof.
  assert (H := C4_ipc_send_retry IpcExamples.late_kernel IpcExamples.start 7 42 NULL 0
                 (Ipc.Lab5.ipc_send IpcExamples.late_kernel) 2 0).
  destruct H as [H1 H2].
  - right. reflexivity.
  - intros j Hj. destruct j as [|[|j]]; [reflexivity | reflexivity | lia].
  - reflexivity.
  - unfold E_IPC_NOT_RECV. lia.
  - split.
    + apply (H1 1%nat). lia.
    + apply (H2 3%nat). lia.
Defined.

(** C5: when [sys_ipc_recv], called with the slot that [ipc_recv]
    (either revision) passes it, returns an error, [ipc_recv] returns that
    error and not a payload, does not panic, makes no other system call,
    stores zero through [from_env_store] and through [perm_store] where
    they are not null, and stores nothing anywhere else; in particular
    nothing is stored at the null address. *)
Theorem C5_ipc_recv_error
        (k : Ipc.Kernel) (st : Ipc.UState) (from_env_store pg perm_store err slot : Z)
        (recv : Z → Z → Z → M Ipc.UState Z) :
  (recv = Ipc.Lab4.ipc_recv k ∧ slot = lab4_slot pg)
  ∨ (recv = Ipc.Lab5.ipc_recv k ∧ slot = resolved_slot pg) →
  err < 0 →
  Ipc.k_ret k (Ipc.calls st) (Ipc.SYS_ipc_recv slot) = err →
  ∃ st',
    recv from_env_store pg perm_store st = (Ok err, st')
    ∧ Ipc.calls st' = Ipc.calls st ++ [Ipc.SYS_ipc_recv slot]
    ∧ (from_env_store ≠ NULL → Ipc.mem st' !! from_env_store = Some 0)
    ∧ (perm_store ≠ NULL → Ipc.mem st' !! perm_store = Some 0)
    ∧ (∀ a, (from_env_store = NULL ∨ a ≠ from_env_store) →
            (perm_store = NULL ∨ a ≠ perm_store) →
            Ipc.mem st' !! a = Ipc.mem st !! a)
    ∧ Ipc.mem st' !! NULL = Ipc.mem st !! NULL.
Proof.
  intros Hrecv Herr Hk.
  assert (recv from_env_store pg perm_store st =
            (Ok err, {| Ipc.calls := Ipc.calls st ++ [Ipc.SYS_ipc_recv slot];
                        Ipc.mem := zero_out perm_store (zero_out from_env_store (Ipc.mem st));
                        Ipc.env := Ipc.env st |})) as Hrun.
  { destruct Hrecv as [[-> ->] | [-> ->]].
    - rewrite lab4_ipc_recv_failed; rewrite Hk; [done | lia].
    - rewrite lab5_ipc_recv_failed; rewrite Hk; [done | lia]. }
  eexists. split; [exact Hrun|]. cbn [Ipc.mem Ipc.calls].
  split; [reflexivity|].
  repeat split.
  - intros Hf. rewrite !zero_out_lookup.
    destruct (decide (perm_store ≠ NULL ∧ from_env_store = perm_store)); [done|].
    by rewrite decide_True.
  - intros Hp. rewrite zero_out_lookup. by rewrite decide_True.
  - intros a Hf Hp. rewrite !zero_out_lookup.
    rewrite decide_False by (intros [? ->]; tauto).
    by rewrite decide_False by (intros [? ->]; tauto).
  - rewrite !zero_out_lookup.
    rewrite decide_False by (intros [? <-]; tauto).
    by rewrite decide_False by (intros [? <-]; tauto).
Qed.

Lemma C5_ipc_recv_error_witness :
  ∃ st',
    Ipc.Lab5.ipc_recv IpcExamples.checking_kernel 0x1000 0x00800004 NULL IpcExamples.start
    = (Ok (- E_INVAL), st')
    ∧ Ipc.calls st' = [Ipc.SYS_ipc_recv 0x00800004]
    ∧ Ipc.mem st' !! 0x1000 = Some 0
    ∧ Ipc.mem st' !! NULL = None.
Proof.
  destruct (C5_ipc_recv_error IpcExamples.checking_kernel IpcExamples.start
              0x1000 0x00800004 NULL (- E_INVAL) 0x00800004
              (Ipc.Lab5.ipc_recv IpcExamples.checking_kernel))
    as (st' & Hrun & Hcalls & Hfrom & _ & _ & Hnull).
  - right. split; reflexivity.
  - unfold E_INVAL. lia.
  - reflexivity.
  - exists st'. split; [exact Hrun|]. split; [exact Hcalls|].
    split; [apply Hfrom; discriminate | exact Hnull].
Defined.

(** ** Machine arithmetic *)

Lemma u32_range z : 0 <= u32 z < 2 ^ 32.
Proof. unfold u32. apply Z.mod_pos_bound. lia. Qed.

Lemma u32_small z : 0 <= z < 2 ^ 32 → u32 z = z.
Proof. intros. unfold u32. by apply Z.mod_small. Qed.

Lemma ROUNDDOWN_spec a n :
  0 < n →
  ROUNDDOWN a n = u32 a - u32 a mod n.
Proof.
  intros Hn. unfold ROUNDDOWN. cbv zeta. apply u32_small.
  pose proof (u32_range a). pose proof (Z.mod_pos_bound (u32 a) n Hn).
  pose proof (Z.mod_le (u32 a) n). lia.
Qed.

Lemma ROUNDDOWN_bounds a n :
  0 < n → u32 a - n < ROUNDDOWN a n <= u32 a.
Proof.
  intros Hn. rewrite ROUNDDOWN_spec by done.
  pose proof (Z.mod_pos_bound (u32 a) n Hn). lia.
Qed.

Lemma ROUNDDOWN_aligned a n : 0 < n → ROUNDDOWN a n mod n = 0.
Proof.
  intros Hn. rewrite ROUNDDOWN_spec by done.
  replace (u32 a - u32 a mod n) with (u32 a / n * n).
  - apply Z.mod_mul. lia.
  - pose proof (Z.div_mod (u32 a) n). lia.
Qed.

Lemma ROUNDDOWN_range a n : 0 < n → 0 <= ROUNDDOWN a n < 2 ^ 32.
Proof.
  intros Hn. pose proof (u32_range a).
  rewrite ROUNDDOWN_spec by done.
  pose proof (Z.mod_pos_bound (u32 a) n Hn).
  pose proof (Z.mod_le (u32 a) n). lia.
Qed.

Lemma ROUNDUP_aligned a n : 0 < n → ROUNDUP a n mod n = 0.
Proof. intros. by apply ROUNDDOWN_aligned. Qed.

Lemma ROUNDUP_range a n : 0 < n → 0 <= ROUNDUP a n < 2 ^ 32.
Proof. intros. by apply ROUNDDOWN_range. Qed.

(** The page that holds an address of the page at [base], and the offset
    in it. *)
Lemma ROUNDDOWN_in_page base off :
  0 <= base < 2 ^ 32 → base mod PGSIZE = 0 → 0 <= off < PGSIZE →
  ROUNDDOWN (base + off) PGSIZE = base.
Proof.
  intros Hb Ha Ho. assert (HP : PGSIZE = 4096) by reflexivity.
  assert (base + off < 2 ^ 32).
  { assert (base = PGSIZE * (base / PGSIZE)) by (apply Z.div_exact; lia).
    assert (base / PGSIZE < 2 ^ 20) by (apply Z.div_lt_upper_bound; lia).
    lia. }
  rewrite ROUNDDOWN_spec by lia. rewrite u32_small by lia.
  rewrite Zplus_mod, Ha, Z.add_0_l, Z.mod_mod by lia.
  rewrite Z.mod_small by lia. lia.
Qed.

Lemma PGOFF_in_page base off :
  0 <= base → base mod PGSIZE = 0 → 0 <= off < PGSIZE →
  Spawn.PGOFF (base + off) = off.
Proof.
  intros Hb Ha Ho. unfold Spawn.PGOFF.
  change (PGSIZE - 1) with (Z.ones 12). rewrite Z.land_ones by lia.
  change (2 ^ 12) with PGSIZE.
  rewrite Zplus_mod, Ha, Z.add_0_l, Z.mod_mod by (unfold PGSIZE; lia).
  apply Z.mod_small. lia.
Qed.

(** The four bytes of a stored word read back as the word. *)
Lemma le_bytes_word v :
  v mod 256 + 2 ^ 8 * ((v / 2 ^ 8) mod 256)
  + 2 ^ 16 * ((v / 2 ^ 16) mod 256) + 2 ^ 24 * ((v / 2 ^ 24) mod 256) = u32 v.
Proof.
  unfold u32.
  change (2 ^ 32) with (256 * (256 * (256 * 256))).
  change (2 ^ 8) with 256. change (2 ^ 16) with (256 * 256).
  change (2 ^ 24) with (256 * 256 * 256).
  rewrite !Z.rem_mul_r by lia.
  rewrite <- !Z.div_div by lia. lia.
Qed.

(** ** lib/spawn.c: user memory *)

Lemma bind_ok {S A B} (m : M S A) (f : A → M S B) s a s' :
  m s = (Ok a, s') → bind m f s = f a s'.
Proof. intros H. unfold bind. by rewrite H. Qed.

Section SpawnMemory.
Import Spawn SpawnSpec.

Lemma length_write_bytes bs off pg : length (write_bytes off bs pg) = length pg.
Proof.
  revert off pg. induction bs as [|b bs IH]; intros off pg; [done|].
  simpl. by rewrite IH, length_insert.
Qed.

Lemma lookup_write_bytes bs off (pg : list Z) i :
  (off + length bs <= length pg)%nat →
  write_bytes off bs pg !! i =
    if decide (off <= i < off + length bs)%nat
    then (fun b => b mod 256) <$> bs !! (i - off)%nat
    else pg !! i.
Proof.
  revert off pg. induction bs as [|b bs IH]; intros off pg Hlen; simpl in *.
  - rewrite decide_False by lia. done.
  - rewrite IH by (rewrite length_insert; lia).
    destruct (decide (i = off)) as [->|Hne].
    + rewrite decide_False by lia. rewrite decide_True by lia.
      rewrite Nat.sub_diag. simpl. apply list_lookup_insert_eq. lia.
    + rewrite list_lookup_insert_ne by done.
      destruct (decide (S off <= i < S off + length bs)%nat).
      * rewrite decide_True by lia.
        replace (i - off)%nat with (S (i - S off)) by lia. done.
      * rewrite decide_False by lia. done.
Qed.

Lemma write_bytes_app bs1 bs2 off pg :
  write_bytes off (bs1 ++ bs2) pg
  = write_bytes (off + length bs1) bs2 (write_bytes off bs1 pg).
Proof.
  revert off pg. induction bs1 as [|b bs1 IH]; intros off pg; simpl.
  - by rewrite Nat.add_0_r.
  - rewrite IH. f_equal. lia.
Qed.

(** A machine whose running environment has the physical page [p], with
    contents [pg], mapped writable at [UTEMP]. *)
Definition scratch (m : Machine) (p : nat) (pg : list Z) : Prop :=
  (∃ perm, translate m UTEMP = Some (p, perm) ∧ writable perm = true)
  ∧ phys m !! p = Some pg.

Lemma translate_scratch m off :
  0 <= off < PGSIZE → translate m (UTEMP + off) = translate m UTEMP.
Proof.
  intros Hoff. unfold translate.
  rewrite (ROUNDDOWN_in_page UTEMP off) by (done || (unfold UTEMP, PTSIZE, PGSIZE; lia)).
  done.
Qed.

Lemma scratch_set_phys m p pg pg' :
  scratch m p pg → scratch (set_phys (insert p pg') m) p pg'.
Proof.
  intros [Htr _]. split; [exact Htr|]. simpl. apply lookup_insert_eq.
Qed.

Lemma set_phys_twice m p (pg pg' : list Z) :
  set_phys (insert p pg') (set_phys (insert p pg) m) = set_phys (insert p pg') m.
Proof. unfold set_phys. simpl. by rewrite insert_insert_eq. Qed.

Lemma set_phys_same m p (pg : list Z) :
  phys m !! p = Some pg → set_phys (insert p pg) m = m.
Proof. intros H. destruct m. unfold set_phys. simpl in *. by rewrite insert_id. Qed.

Lemma store8_scratch m p pg off b :
  scratch m p pg → 0 <= off < PGSIZE →
  store8 (UTEMP + off) b m
  = (Ok tt, set_phys (insert p (<[Z.to_nat off := b mod 256]> pg)) m).
Proof.
  intros [(perm & Htr & Hw) Hpg] Hoff. unfold store8.
  rewrite translate_scratch, Htr, Hpg, Hw by done.
  rewrite (PGOFF_in_page UTEMP off) by (done || (unfold UTEMP, PTSIZE, PGSIZE; lia)).
  done.
Qed.

Lemma u32_scratch off : 0 <= off <= PGSIZE → u32 (UTEMP + off) = UTEMP + off.
Proof. intros. apply u32_small. unfold UTEMP, PTSIZE, PGSIZE in *. lia. Qed.

Lemma store_bytes_scratch bs m p pg off :
  scratch m p pg → 0 <= off → off + Z.of_nat (length bs) <= PGSIZE →
  store_bytes (UTEMP + off) bs m
  = (Ok tt, set_phys (insert p (write_bytes (Z.to_nat off) bs pg)) m).
Proof.
  revert m pg off. induction bs as [|b bs IH]; intros m pg off Hs Hoff Hlen.
  - simpl. unfold ret. rewrite set_phys_same; [done|]. apply Hs.
  - cbn [store_bytes write_bytes]. simpl in Hlen.
    erewrite bind_ok by (apply store8_scratch; [done | lia]).
    replace (u32 (UTEMP + off + 1)) with (UTEMP + (off + 1))
      by (rewrite <- Z.add_assoc, u32_scratch; lia).
    rewrite (IH _ (<[Z.to_nat off := b mod 256]> pg)); [| by eapply scratch_set_phys | lia | lia].
    rewrite set_phys_twice. do 4 f_equal. lia.
Qed.

Lemma store32_scratch m p pg off v :
  scratch m p pg → 0 <= off → off + 4 <= PGSIZE →
  store32 (UTEMP + off) v m
  = (Ok tt, set_phys (insert p (write_bytes (Z.to_nat off) (word_bytes v) pg)) m).
Proof.
  intros Hs Hoff Hlen. unfold store32.
  replace (u32 (UTEMP + off + 1)) with (UTEMP + (off + 1))
    by (rewrite <- Z.add_assoc, u32_scratch; lia).
  replace (u32 (UTEMP + off + 2)) with (UTEMP + (off + 2))
    by (rewrite <- Z.add_assoc, u32_scratch; lia).
  replace (u32 (UTEMP + off + 3)) with (UTEMP + (off + 3))
    by (rewrite <- Z.add_assoc, u32_scratch; lia).
  erewrite bind_ok by (apply store8_scratch; [done | lia]).
  erewrite bind_ok by (apply store8_scratch; [by eapply scratch_set_phys | lia]).
  rewrite set_phys_twice.
  erewrite bind_ok by (apply store8_scratch; [by eapply scratch_set_phys | lia]).
  rewrite set_phys_twice.
  erewrite store8_scratch; [| by eapply scratch_set_phys | lia].
  rewrite set_phys_twice. unfold word_bytes. cbn [write_bytes].
  replace (Z.to_nat (off + 1)) with (S (Z.to_nat off)) by lia.
  replace (Z.to_nat (off + 2)) with (S (S (Z.to_nat off))) by lia.
  replace (Z.to_nat (off + 3)) with (S (S (S (Z.to_nat off)))) by lia.
  done.
Qed.

(** *** What a page holds *)

Lemma holds_write_bytes bs off pg :
  0 <= off → (Z.to_nat off + length bs <= length pg)%nat →
  holds (write_bytes (Z.to_nat off) bs pg) off bs.
Proof.
  intros Hoff Hlen k b Hk. rewrite lookup_write_bytes by done.
  pose proof (lookup_lt_Some _ _ _ Hk).
  rewrite decide_True by lia.
  replace (Z.to_nat (off + Z.of_nat k) - Z.to_nat off)%nat with k by lia.
  by rewrite Hk.
Qed.

(** Bytes written elsewhere leave what a page holds. *)
Lemma holds_write_bytes_other bs' off' bs off pg :
  0 <= off → 0 <= off' →
  (Z.to_nat off' + length bs' <= length pg)%nat →
  off + Z.of_nat (length bs) <= off' ∨ off' + Z.of_nat (length bs') <= off →
  holds pg off bs → holds (write_bytes (Z.to_nat off') bs' pg) off bs.
Proof.
  intros Hoff Hoff' Hlen Hdisj H k b Hk. rewrite lookup_write_bytes by done.
  pose proof (lookup_lt_Some _ _ _ Hk).
  rewrite decide_False by lia. by apply H.
Qed.

Lemma holds_ext pg pg' off bs :
  (∀ o, off <= Z.of_nat o < off + Z.of_nat (length bs) → pg' !! o = pg !! o) →
  0 <= off → holds pg off bs → holds pg' off bs.
Proof.
  intros Hext Hoff H k b Hk. pose proof (lookup_lt_Some _ _ _ Hk).
  rewrite Hext by lia. by apply H.
Qed.

Lemma holds_page_byte pg off bs k b :
  holds pg off bs → bs !! k = Some b → page_byte pg (off + Z.of_nat k) = b mod 256.
Proof. intros H Hk. unfold page_byte. by rewrite (H k b Hk). Qed.

Lemma holds_page_word pg off v :
  holds pg off (word_bytes v) → page_word pg off = u32 v.
Proof.
  intros H. unfold page_word.
  pose proof (holds_page_byte pg off _ 0 _ H eq_refl) as H0.
  pose proof (holds_page_byte pg off _ 1 _ H eq_refl) as H1.
  pose proof (holds_page_byte pg off _ 2 _ H eq_refl) as H2.
  pose proof (holds_page_byte pg off _ 3 _ H eq_refl) as H3.
  change (Z.of_nat 0) with 0 in H0. change (Z.of_nat 1) with 1 in H1.
  change (Z.of_nat 2) with 2 in H2. change (Z.of_nat 3) with 3 in H3.
  rewrite Z.add_0_r in H0. rewrite H0, H1, H2, H3.
  apply le_bytes_word.
Qed.

Lemma holds_page_bytes pg off bs :
  0 <= off → holds pg off bs →
  page_bytes pg off (length bs) = (fun b => b mod 256) <$> bs.
Proof.
  intros Hoff H. unfold page_bytes. apply list_eq. intros k.
  rewrite list_lookup_fmap.
  destruct (bs !! k) as [b|] eqn:Hk.
  - pose proof (lookup_lt_Some _ _ _ Hk).
    rewrite lookup_take_lt by done. rewrite lookup_drop. simpl.
    rewrite <- (H k b Hk). f_equal. lia.
  - apply lookup_ge_None in Hk. simpl. apply lookup_ge_None.
    rewrite length_take. lia.
Qed.

Lemma holds_app_l pg off bs1 bs2 : holds pg off (bs1 ++ bs2) → holds pg off bs1.
Proof. intros H k b Hk. apply H. by apply lookup_app_l_Some. Qed.

Lemma cstring_bytes s : cstring s → (fun b => b mod 256) <$> s = s.
Proof.
  intros Hs. induction Hs as [|b s Hb _ IH]; [done|].
  rewrite fmap_cons, IH. f_equal. apply Z.mod_small. lia.
Qed.
End SpawnMemory.

(** ** lib/spawn.c: the stack page *)

Section SpawnStack.
Import Spawn SpawnSpec.

Lemma strings_size_nonneg argv : 0 <= strings_size argv.
Proof. induction argv as [|s argv IH]; simpl; unfold strlen in *; lia. Qed.

Lemma strings_size_cons s argv :
  strings_size (s :: argv) = Z.of_nat (length s) + 1 + strings_size argv.
Proof. done. Qed.

Lemma strings_size_app argv1 argv2 :
  strings_size (argv1 ++ argv2) = strings_size argv1 + strings_size argv2.
Proof. induction argv1 as [|s argv1 IH]; simpl; lia. Qed.

(** The loop of [init_stack] over the arguments, on the page mapped at
    [UTEMP]: slot [i + j] of the array at offset [aoff] receives the
    child address of string [j], the strings are laid out one after the
    other from offset [soff] on, and nothing else is written. *)
Lemma init_stack_args_scratch p aoff argv :
  ∀ m pg soff i,
    scratch m p pg → length pg = Z.to_nat PGSIZE →
    0 <= aoff → 0 <= i → 0 <= soff →
    aoff + 4 * (i + Z.of_nat (length argv)) <= soff →
    soff + strings_size argv <= PGSIZE →
    ∃ pg',
      init_stack_args argv (UTEMP + aoff) (UTEMP + soff) i m
      = (Ok (UTEMP + (soff + strings_size argv)), set_phys (insert p pg') m)
      ∧ length pg' = length pg
      ∧ (∀ o : nat,
            ¬ (aoff + 4 * i <= Z.of_nat o < aoff + 4 * (i + Z.of_nat (length argv))) →
            ¬ (soff <= Z.of_nat o < soff + strings_size argv) →
            pg' !! o = pg !! o)
      ∧ (∀ j s, argv !! j = Some s →
            holds pg' (aoff + 4 * (i + Z.of_nat j))
                  (word_bytes (UTEMP2USTACK (UTEMP + (soff + strings_size (take j argv)))))
            ∧ holds pg' (soff + strings_size (take j argv)) (s ++ [0])).
Proof.
  induction argv as [|s argv IH]; intros m pg soff i Hs Hlen Haoff Hi Hsoff Hlow Hhigh.
  - exists pg. simpl. unfold ret. rewrite Z.add_0_r.
    rewrite set_phys_same by apply Hs. repeat split; done.
  - rewrite strings_size_cons in Hhigh. cbn [length] in Hlow.
    pose proof (strings_size_nonneg argv) as Hnn.
    assert (HP : PGSIZE = 4096) by reflexivity.
    cbn [init_stack_args].
    replace (u32 (UTEMP + aoff + 4 * i)) with (UTEMP + (aoff + 4 * i))
      by (rewrite <- Z.add_assoc, u32_scratch; lia).
    erewrite bind_ok by (apply store32_scratch; [done | lia | lia]).
    set (pg1 := write_bytes (Z.to_nat (aoff + 4 * i))
                  (word_bytes (UTEMP2USTACK (UTEMP + soff))) pg).
    unfold strcpy.
    erewrite bind_ok
      by (apply store_bytes_scratch;
          [by eapply scratch_set_phys | lia | rewrite length_app; simpl; lia]).
    rewrite set_phys_twice.
    set (pg2 := write_bytes (Z.to_nat soff) (s ++ [0]) pg1).
    assert (Hlen1 : length pg1 = length pg) by apply length_write_bytes.
    assert (Hlen2 : length pg2 = length pg)
      by (unfold pg2; by rewrite length_write_bytes).
    replace (u32 (UTEMP + soff + (strlen s + 1)))
      with (UTEMP + (soff + (Z.of_nat (length s) + 1)))
      by (unfold strlen; rewrite <- Z.add_assoc, u32_scratch; lia).
    destruct (IH (set_phys (insert p pg2) m) pg2 (soff + (Z.of_nat (length s) + 1)) (i + 1))
      as (pg' & Hrun & Hlen' & Hout & Hargs);
      [by eapply scratch_set_phys | lia | lia | lia | lia | lia | lia |].
    exists pg'. rewrite Hrun, set_phys_twice.
    split; [do 3 f_equal; rewrite strings_size_cons; lia|].
    split; [lia|].
    assert (Hword : holds pg2 (aoff + 4 * i) (word_bytes (UTEMP2USTACK (UTEMP + soff)))).
    { apply holds_write_bytes_other;
        [lia | lia | rewrite length_app, Hlen1, Hlen; simpl; lia | simpl; lia |].
      apply holds_write_bytes; [lia | rewrite Hlen; simpl; lia]. }
    assert (Hstr : holds pg2 soff (s ++ [0])).
    { apply holds_write_bytes; [lia | rewrite length_app, Hlen1, Hlen; simpl; lia]. }
    split.
    + intros o Ho1 Ho2. cbn [length] in Ho1. rewrite strings_size_cons in Ho2.
      rewrite Hout by lia.
      unfold pg2. rewrite lookup_write_bytes
        by (rewrite length_app, Hlen1, Hlen; simpl; lia).
      rewrite decide_False by (rewrite length_app; simpl; lia).
      unfold pg1. rewrite lookup_write_bytes by (rewrite Hlen; simpl; lia).
      rewrite decide_False by (simpl; lia). done.
    + intros [|j] s' Hj.
      * injection Hj as <-. simpl. rewrite !Z.add_0_r. split.
        -- eapply holds_ext; [| lia | exact Hword].
           intros o Ho. simpl in Ho. apply Hout; lia.
        -- eapply holds_ext; [| lia | exact Hstr].
           intros o Ho. rewrite length_app in Ho. simpl in Ho. apply Hout; lia.
      * simpl in Hj. destruct (Hargs j s' Hj) as [Hw Hs'].
        cbn [take]. rewrite strings_size_cons.
        replace (aoff + 4 * (i + Z.of_nat (S j))) with (aoff + 4 * (i + 1 + Z.of_nat j)) by lia.
        replace (soff + (Z.of_nat (length s) + 1 + strings_size (take j argv)))
          with (soff + (Z.of_nat (length s) + 1) + strings_size (take j argv)) by lia.
        done.
Qed.
End SpawnStack.

(** ** lib/spawn.c: the system calls when no failure is injected *)

(** The fields of a machine built by the setters. *)
Ltac machine_simpl :=
  cbn [Spawn.envs Spawn.curenv Spawn.phys Spawn.inject Spawn.trace
       Spawn.page_free_list Spawn.fds Spawn.fs Spawn.env_free_list
       Spawn.set_envs Spawn.set_phys Spawn.set_page_free_list
       Spawn.set_env_free_list Spawn.set_fds Spawn.set_inject Spawn.log
       Spawn.set_fd_offset].

Section SpawnSyscalls.
Import Spawn SpawnSpec.

Lemma syscall_plain c body m :
  inject m = [] →
  syscall_ c body m = (Ok (body (log c m)).1, (body (log c m)).2).
Proof.
  intros Hinj. unfold syscall_. cbn [inject log]. rewrite Hinj.
  by destruct (body _).
Qed.

Lemma envid2env_self m : envid2env m 0 = Some (curenv m).
Proof. done. Qed.

(** Changing page tables or trapframes changes no environment id. *)
Lemma envid2env_set_pgdir m f e envid :
  envid2env (set_envs (alter (set_pgdir f) e) m) envid = envid2env m envid.
Proof.
  unfold envid2env. cbn [envs curenv set_envs].
  destruct (envid =? 0); [done|].
  assert (Hl : ∀ x, alter (set_pgdir f) e (envs m) !! x
                   = (if decide (e = x) then set_pgdir f else id) <$> envs m !! x).
  { intros x. rewrite lookup_alter.
    case_decide; [by subst | by rewrite option_fmap_id]. }
  rewrite !Hl.
  destruct (envs m !! ENVX envid) as [e1|], (envs m !! curenv m) as [e2|];
    simpl; try done; repeat case_decide; done.
Qed.

Lemma env_pte_set_pgdir m f e e' va :
  env_pte (set_envs (alter (set_pgdir f) e) m) e' va
  = if decide (e = e') then envs m !! e ≫= fun env => f (env_pgdir env) !! va
    else env_pte m e' va.
Proof.
  unfold env_pte. cbn [envs set_envs]. rewrite lookup_alter.
  destruct (decide (e = e')) as [->|]; [|done].
  by destruct (envs m !! e').
Qed.

Lemma translate_env_pte m va :
  translate m va = env_pte m (curenv m) (ROUNDDOWN va PGSIZE).
Proof. done. Qed.

Lemma sys_page_alloc_plain m envid e va perm p rest :
  inject m = [] → envid2env m envid = Some e →
  va_ok va = true → perm_ok perm = true →
  page_free_list m = p :: rest →
  sys_page_alloc envid va perm m
  = (Ok 0,
     set_envs (alter (set_pgdir (insert va (p, perm))) e)
       (set_phys (insert p (replicate (Z.to_nat PGSIZE) 0))
          (set_page_free_list rest (log (SYS_page_alloc envid va perm) m)))).
Proof.
  intros Hinj He Hva Hperm Hfree. unfold sys_page_alloc.
  rewrite syscall_plain by done.
  change (envid2env (log _ m) envid) with (envid2env m envid).
  rewrite He, Hva, Hperm. cbn [negb orb page_free_list log]. by rewrite Hfree.
Qed.

Lemma sys_page_map_plain m srcenvid srcva dstenvid dstva perm se de p sperm :
  inject m = [] → envid2env m srcenvid = Some se → envid2env m dstenvid = Some de →
  va_ok srcva = true → va_ok dstva = true → perm_ok perm = true →
  env_pte m se srcva = Some (p, sperm) →
  writable perm && negb (writable sperm) = false →
  sys_page_map srcenvid srcva dstenvid dstva perm m
  = (Ok 0,
     set_envs (alter (set_pgdir (insert dstva (p, perm))) de)
       (log (SYS_page_map srcenvid srcva dstenvid dstva perm) m)).
Proof.
  intros Hinj Hse Hde Hsva Hdva Hperm Hpte Hw. unfold sys_page_map.
  rewrite syscall_plain by done.
  change (envid2env (log _ m) srcenvid) with (envid2env m srcenvid).
  change (envid2env (log _ m) dstenvid) with (envid2env m dstenvid).
  rewrite Hse, Hde, Hsva, Hdva, Hperm. cbn [negb orb].
  change (envs (log _ m) !! se ≫= _) with (env_pte m se srcva).
  by rewrite Hpte, Hw.
Qed.

Lemma sys_page_unmap_plain m envid e va :
  inject m = [] → envid2env m envid = Some e → va_ok va = true →
  sys_page_unmap envid va m
  = (Ok 0,
     set_envs (alter (set_pgdir (delete va)) e) (log (SYS_page_unmap envid va) m)).
Proof.
  intros Hinj He Hva. unfold sys_page_unmap.
  rewrite syscall_plain by done.
  change (envid2env (log _ m) envid) with (envid2env m envid).
  by rewrite He, Hva.
Qed.
End SpawnSyscalls.

(** ** lib/spawn.c: [init_stack] *)

Section SpawnInitStack.
Import Spawn SpawnSpec.

Lemma string_size_from argv acc :
  0 <= acc → acc + strings_size argv < 2 ^ 32 →
  fold_left (fun acc s => u32 (acc + (strlen s + 1))) argv acc = acc + strings_size argv.
Proof.
  revert acc. induction argv as [|s argv IH]; intros acc Hacc Hlt; simpl in *; [lia|].
  pose proof (strings_size_nonneg argv). unfold strlen in *.
  rewrite u32_small by lia. rewrite IH by lia. lia.
Qed.

Lemma string_size_exact argv :
  strings_size argv < 2 ^ 32 → string_size argv = strings_size argv.
Proof.
  intros H. unfold string_size. rewrite string_size_from; lia.
Qed.

(** The layout when the arguments fit. *)
Lemma layout_bounds argv :
  args_fit argv →
  0 <= esp_off argv
  ∧ esp_off argv + 8 = argv_off argv
  ∧ argv_off argv + 4 * (Z.of_nat (length argv) + 1) <= str_off argv
  ∧ str_off argv + strings_size argv = PGSIZE
  ∧ argv_off argv mod 4 = 0.
Proof.
  unfold args_fit, esp_off, argv_off, str_off. intros Hfit.
  pose proof (strings_size_nonneg argv).
  pose proof (Z.mod_pos_bound (PGSIZE - strings_size argv) 4).
  repeat split; try lia.
  pose proof (Z.div_mod (PGSIZE - strings_size argv) 4).
  replace (PGSIZE - strings_size argv - (PGSIZE - strings_size argv) mod 4
           - 4 * (Z.of_nat (length argv) + 1))
    with (((PGSIZE - strings_size argv) / 4 - (Z.of_nat (length argv) + 1)) * 4) by lia.
  apply Z.mod_mul. lia.
Qed.

(** The values of the locals of [init_stack] when the arguments fit. *)
Lemma init_stack_locals argv :
  args_fit argv →
  u32 (UTEMP + PGSIZE - string_size argv) = UTEMP + str_off argv
  ∧ u32 (ROUNDDOWN (UTEMP + str_off argv) 4 - 4 * (Z.of_nat (length argv) + 1))
    = UTEMP + argv_off argv.
Proof.
  intros Hfit. destruct (layout_bounds argv Hfit) as (H1 & H2 & H3 & H4 & H5).
  pose proof (strings_size_nonneg argv).
  assert (HP : PGSIZE = 4096) by reflexivity.
  assert (HU : UTEMP = 4194304) by reflexivity.
  rewrite string_size_exact by lia.
  split.
  - unfold str_off. rewrite u32_small; lia.
  - rewrite ROUNDDOWN_spec by lia. rewrite (u32_small (UTEMP + _)) by lia.
    replace ((UTEMP + str_off argv) mod 4) with (str_off argv mod 4).
    + unfold argv_off in *. rewrite u32_small; lia.
    + rewrite HU. replace (4194304 + str_off argv) with (str_off argv + 1048576 * 4) by lia.
      by rewrite Z.mod_add.
Qed.

(** The translation of a parent address of the scratch page to the
    child's stack page is a constant offset. *)
Lemma UTEMP2USTACK_scratch off :
  0 <= off <= PGSIZE → UTEMP2USTACK (UTEMP + off) = child_addr off.
Proof.
  intros H. unfold UTEMP2USTACK, child_addr. rewrite u32_small.
  - lia.
  - unfold UTEMP, PTSIZE, USTACKTOP, PGSIZE in *. lia.
Qed.

Lemma UTEMP2USTACK_offset off :
  0 <= off <= PGSIZE →
  UTEMP2USTACK (UTEMP + off) = (UTEMP + off) + ((USTACKTOP - PGSIZE) - UTEMP).
Proof. intros H. rewrite UTEMP2USTACK_scratch by done. unfold child_addr. lia. Qed.

(** The machine after [sys_page_alloc(0, UTEMP, perm)] has taken page
    [p] from the free list. *)
Definition scratch_allocated (m : Machine) (perm : Z) (p : nat) (rest : list nat) : Machine :=
  set_envs (alter (set_pgdir (insert UTEMP (p, perm))) (curenv m))
    (set_phys (insert p (replicate (Z.to_nat PGSIZE) 0))
       (set_page_free_list rest (log (SYS_page_alloc 0 UTEMP perm) m))).

Lemma scratch_allocated_scratch m perm p rest :
  is_Some (envs m !! curenv m) → writable perm = true →
  scratch (scratch_allocated m perm p rest) p (replicate (Z.to_nat PGSIZE) 0).
Proof.
  intros [cur Hcur] Hw. split.
  - exists perm. split; [|done].
    rewrite translate_env_pte. change (ROUNDDOWN UTEMP PGSIZE) with UTEMP.
    unfold scratch_allocated. rewrite env_pte_set_pgdir.
    cbn [curenv set_envs set_phys set_page_free_list log envs].
    rewrite decide_True by done. rewrite Hcur. simpl. apply lookup_insert_eq.
  - unfold scratch_allocated. cbn [phys set_envs set_phys]. apply lookup_insert_eq.
Qed.

(** The machine after the finished page [pg] has been mapped into the
    child and unmapped from the parent. *)
Definition page_handed_over (m : Machine) (perm : Z) (p : nat) (pg : list Z)
           (child ci dstva : Z) : Machine :=
  set_envs (alter (set_pgdir (delete UTEMP)) (curenv m))
    (log (SYS_page_unmap 0 UTEMP)
       (set_envs (alter (set_pgdir (insert dstva (p, perm))) ci)
          (log (SYS_page_map 0 UTEMP child dstva perm)
             (set_phys (insert p pg) m)))).

Lemma env_pte_log m c e va : env_pte (log c m) e va = env_pte m e va.
Proof. done. Qed.

Lemma env_pte_set_phys m f e va : env_pte (set_phys f m) e va = env_pte m e va.
Proof. done. Qed.

(** The page tables after the hand-over: the scratch address is gone
    from the parent, the child has the page at [dstva]. *)
Lemma env_pte_handed_over m perm p pg child ci dstva e va :
  is_Some (envs m !! curenv m) → is_Some (envs m !! ci) →
  env_pte (page_handed_over m perm p pg child ci dstva) e va
  = if decide (e = curenv m ∧ va = UTEMP) then None
    else if decide (e = ci ∧ va = dstva) then Some (p, perm)
    else env_pte m e va.
Proof.
  intros [cur Hcur] [cenv Hcenv]. unfold page_handed_over.
  rewrite env_pte_set_pgdir. machine_simpl.
  destruct (decide (curenv m = e)) as [<-|Hne1].
  - rewrite lookup_alter.
    destruct (decide (ci = curenv m)) as [->|Hne2].
    + rewrite Hcur. simpl. rewrite lookup_delete, lookup_insert.
      unfold env_pte. rewrite Hcur. simpl.
      repeat case_decide; first [done | tauto | intuition congruence].
    + rewrite Hcur. simpl. rewrite lookup_delete.
      unfold env_pte. rewrite Hcur. simpl.
      repeat case_decide; first [done | tauto | intuition congruence].
  - rewrite env_pte_log, env_pte_set_pgdir, env_pte_log, env_pte_set_phys.
    machine_simpl.
    destruct (decide (ci = e)) as [<-|Hne2].
    + rewrite Hcenv. simpl. rewrite lookup_insert.
      unfold env_pte. rewrite Hcenv. simpl.
      repeat case_decide; first [done | tauto | intuition congruence].
    + repeat case_decide; first [done | tauto | intuition congruence].
Qed.

Lemma envid2env_is_Some m envid e :
  is_Some (envs m !! curenv m) → envid2env m envid = Some e → is_Some (envs m !! e).
Proof.
  intros Hcur. unfold envid2env. destruct (envid =? 0).
  - by intros [= <-].
  - destruct (envs m !! ENVX envid) eqn:He; [|done].
    destruct (envs m !! curenv m); [|done].
    destruct (_ && _); [|done]. intros [= <-]. eauto.
Qed.

(** Mapping the scratch page into the child and unmapping it from the
    parent, as [init_stack] and the data loop of [spawn] do. *)
Lemma hand_over m perm p pg child ci dstva :
  inject m = [] → env_pte m (curenv m) UTEMP = Some (p, perm) →
  envid2env m child = Some ci →
  va_ok dstva = true → perm_ok perm = true →
  let m2 := set_phys (insert p pg) m in
  let m3 := set_envs (alter (set_pgdir (insert dstva (p, perm))) ci)
              (log (SYS_page_map 0 UTEMP child dstva perm) m2) in
  sys_page_map 0 UTEMP child dstva perm m2 = (Ok 0, m3)
  ∧ sys_page_unmap 0 UTEMP m3 = (Ok 0, page_handed_over m perm p pg child ci dstva).
Proof.
  intros Hinj Hpte Hchild Hva Hperm m2 m3. split.
  - apply (sys_page_map_plain m2 0 UTEMP child dstva perm (curenv m) ci p perm);
      try done.
    by destruct (writable perm).
  - by apply sys_page_unmap_plain.
Qed.

Lemma handed_over_facts m perm p pg child ci dstva :
  let m' := page_handed_over m perm p pg child ci dstva in
  phys m' = <[p := pg]> (phys m)
  ∧ inject m' = inject m
  ∧ page_free_list m' = page_free_list m
  ∧ curenv m' = curenv m
  ∧ fds m' = fds m ∧ fs m' = fs m
  ∧ (∀ envid, envid2env m' envid = envid2env m envid)
  ∧ trace m' = trace m ++ [SYS_page_map 0 UTEMP child dstva perm; SYS_page_unmap 0 UTEMP].
Proof.
  repeat split.
  - intros envid. unfold page_handed_over. rewrite envid2env_set_pgdir.
    change (envid2env (log ?c ?x) envid) with (envid2env x envid).
    by rewrite envid2env_set_pgdir.
  - unfold page_handed_over. machine_simpl. by rewrite <- app_assoc.
Qed.

Lemma scratch_allocated_pte m perm p rest :
  is_Some (envs m !! curenv m) →
  env_pte (scratch_allocated m perm p rest) (curenv m) UTEMP = Some (p, perm).
Proof.
  intros [cur Hcur]. unfold scratch_allocated. rewrite env_pte_set_pgdir.
  machine_simpl. rewrite decide_True by done. rewrite Hcur. simpl.
  apply lookup_insert_eq.
Qed.

Lemma scratch_allocated_envid2env m perm p rest envid :
  envid2env (scratch_allocated m perm p rest) envid = envid2env m envid.
Proof. unfold scratch_allocated. by rewrite envid2env_set_pgdir. Qed.

Lemma strings_size_take argv j :
  0 <= strings_size (take j argv) <= strings_size argv.
Proof.
  rewrite <- (take_drop j argv) at 3. rewrite strings_size_app.
  pose proof (strings_size_nonneg (take j argv)).
  pose proof (strings_size_nonneg (drop j argv)). lia.
Qed.

Lemma stack_perm_ok : perm_ok stack_perm = true ∧ writable stack_perm = true.
Proof. done. Qed.

(** [init_stack] when the arguments fit, a page is free, the child
    exists and no failure is injected. *)
Lemma init_stack_ok m child argv esp0 ci p rest :
  args_fit argv → inject m = [] → is_Some (envs m !! curenv m) →
  envid2env m child = Some ci → page_free_list m = p :: rest →
  ∃ pg,
    init_stack child argv esp0 m
    = (Ok (0, child_addr (esp_off argv)),
       page_handed_over (scratch_allocated m stack_perm p rest) stack_perm p pg
                        child ci (USTACKTOP - PGSIZE))
    ∧ length pg = Z.to_nat PGSIZE
    ∧ holds pg (esp_off argv) (word_bytes (Z.of_nat (length argv)))
    ∧ holds pg (esp_off argv + 4) (word_bytes (child_addr (argv_off argv)))
    ∧ holds pg (argv_off argv + 4 * Z.of_nat (length argv)) (word_bytes 0)
    ∧ (∀ j s, argv !! j = Some s →
          holds pg (argv_off argv + 4 * Z.of_nat j)
                (word_bytes (child_addr (string_off argv j)))
          ∧ holds pg (string_off argv j) (s ++ [0])).
Proof.
  intros Hfit Hinj Hcur Hchild Hfree.
  destruct (layout_bounds argv Hfit) as (He & Hea & Has & Hstr & Hal).
  destruct (init_stack_locals argv Hfit) as [Hl1 Hl2].
  pose proof (strings_size_nonneg argv) as Hnn.
  assert (HP : PGSIZE = 4096) by reflexivity.
  set (m1 := scratch_allocated m stack_perm p rest).
  assert (Hs1 : scratch m1 p (replicate (Z.to_nat PGSIZE) 0))
    by (by apply scratch_allocated_scratch).
  unfold init_stack. cbv zeta. rewrite Hl1, Hl2.
  replace (u32 (UTEMP + argv_off argv - 8)) with (UTEMP + esp_off argv)
    by (rewrite <- Z.add_sub_assoc, u32_scratch; lia).
  destruct (Z.ltb_spec (UTEMP + esp_off argv) UTEMP) as [|_]; [lia|].
  erewrite bind_ok
    by (apply (sys_page_alloc_plain m 0 (curenv m) UTEMP stack_perm p rest); done).
  fold (scratch_allocated m stack_perm p rest). fold m1.
  change (0 <? 0) with false. cbn iota.
  destruct (init_stack_args_scratch p (argv_off argv) argv m1 _ (str_off argv) 0 Hs1)
    as (pg1 & Hrun & Hlen1 & _ & Hargs);
    [by rewrite length_replicate | lia | lia | lia | lia | lia |].
  rewrite length_replicate in Hlen1.
  erewrite bind_ok by exact Hrun.
  replace (u32 (UTEMP + argv_off argv + 4 * Z.of_nat (length argv)))
    with (UTEMP + (argv_off argv + 4 * Z.of_nat (length argv)))
    by (rewrite <- Z.add_assoc, u32_scratch; lia).
  erewrite bind_ok
    by (apply store32_scratch; [by eapply scratch_set_phys | lia | lia]).
  rewrite set_phys_twice.
  set (pg2 := write_bytes _ (word_bytes 0) pg1).
  replace (u32 (UTEMP + argv_off argv - 4)) with (UTEMP + (esp_off argv + 4))
    by (rewrite u32_small; unfold UTEMP, PTSIZE in *; lia).
  erewrite bind_ok
    by (apply store32_scratch; [by eapply scratch_set_phys | lia | lia]).
  rewrite set_phys_twice.
  set (pg3 := write_bytes _ (word_bytes (UTEMP2USTACK _)) pg2).
  erewrite bind_ok
    by (apply store32_scratch; [by eapply scratch_set_phys | lia | lia]).
  rewrite set_phys_twice.
  set (pg4 := write_bytes _ (word_bytes (Z.of_nat (length argv))) pg3).
  assert (Hlen2 : length pg2 = Z.to_nat PGSIZE)
    by (unfold pg2; by rewrite length_write_bytes).
  assert (Hlen3 : length pg3 = Z.to_nat PGSIZE)
    by (unfold pg3; by rewrite length_write_bytes).
  assert (Hlen4 : length pg4 = Z.to_nat PGSIZE)
    by (unfold pg4; by rewrite length_write_bytes).
  destruct (hand_over m1 stack_perm p pg4 child ci (USTACKTOP - PGSIZE)) as [Hmap Hunmap];
    [done | exact (scratch_allocated_pte m stack_perm p rest Hcur)
     | unfold m1; by rewrite scratch_allocated_envid2env | done | done |].
  erewrite bind_ok by exact Hmap. change (0 <? 0) with false. cbn iota.
  erewrite bind_ok by exact Hunmap. change (0 <? 0) with false. cbn iota.
  exists pg4. split; [unfold ret; by rewrite UTEMP2USTACK_scratch by lia|].
  split; [done|].
  assert (Hw4 : ∀ off bs, 0 <= off → (off + Z.of_nat (length bs) <= esp_off argv
                                       ∨ esp_off argv + 4 <= off) →
                holds pg3 off bs → holds pg4 off bs).
  { intros off bs Hoff Hd H. apply holds_write_bytes_other;
      [lia | lia | rewrite Hlen3; simpl; lia | simpl; lia | done]. }
  assert (Hw3 : ∀ off bs, 0 <= off → (off + Z.of_nat (length bs) <= esp_off argv + 4
                                       ∨ argv_off argv <= off) →
                holds pg2 off bs → holds pg3 off bs).
  { intros off bs Hoff Hd H. apply holds_write_bytes_other;
      [lia | lia | rewrite Hlen2; simpl; lia | simpl; lia | done]. }
  assert (Hw2 : ∀ off bs, 0 <= off →
                (off + Z.of_nat (length bs) <= argv_off argv + 4 * Z.of_nat (length argv)
                 ∨ argv_off argv + 4 * Z.of_nat (length argv) + 4 <= off) →
                holds pg1 off bs → holds pg2 off bs).
  { intros off bs Hoff Hd H. apply holds_write_bytes_other;
      [lia | lia | rewrite Hlen1; simpl; lia | simpl; lia | done]. }
  split; [|split; [|split]].
  - apply holds_write_bytes; [lia | rewrite Hlen3; simpl; lia].
  - apply Hw4; [lia | simpl; lia |].
    rewrite <- (UTEMP2USTACK_scratch (argv_off argv)) by lia.
    apply holds_write_bytes; [lia | rewrite Hlen2; simpl; lia].
  - apply Hw4; [lia | simpl; lia |]. apply Hw3; [lia | simpl; lia |].
    apply holds_write_bytes; [lia | rewrite Hlen1; simpl; lia].
  - intros j s Hj. destruct (Hargs j s Hj) as [Hw Hs].
    pose proof (lookup_lt_Some _ _ _ Hj) as Hjlt.
    pose proof (strings_size_take argv j) as Htake.
    pose proof (strings_size_take argv (S j)) as HtakeS.
    rewrite (take_S_r _ _ _ Hj), strings_size_app in HtakeS. simpl in HtakeS.
    unfold strlen in HtakeS.
    rewrite Z.add_0_l in Hw.
    rewrite UTEMP2USTACK_scratch in Hw by lia.
    unfold string_off. split.
    + apply Hw4; [lia | simpl; lia |]. apply Hw3; [lia | simpl; lia |].
      apply Hw2; [lia | simpl; lia | done].
    + apply Hw4; [lia | right; lia |]. apply Hw3; [lia | right; lia |].
      apply Hw2; [lia | right; lia | done].
Qed.

Lemma scratch_allocated_is_Some m perm p rest e :
  is_Some (envs m !! e) → is_Some (envs (scratch_allocated m perm p rest) !! e).
Proof.
  intros [env He]. unfold scratch_allocated. machine_simpl.
  rewrite lookup_alter. case_decide; subst; rewrite He; eauto.
Qed.
End SpawnInitStack.

(** ** lib/spawn.c: text segments *)

Section SpawnText.
Import Spawn SpawnSpec.

Variables (fdnum child ci va start end_ : Z) (fd : Fd) (f : File).

(** What the text loop needs of the machine: no injected failure, a
    running environment, the child (another environment), the open file
    with its blocks mapped at the descriptor's data area. *)
Definition text_ready (m : Machine) : Prop :=
  inject m = []
  ∧ is_Some (envs m !! curenv m)
  ∧ envid2env m child = Some ci
  ∧ ci ≠ curenv m
  ∧ fd_lookup m fdnum = Some (fd, f)
  ∧ file_mapped m fdnum f.

Hypothesis Hfd : 0 <= fdnum < MAXFD.
Hypothesis Hstart : 0 <= start ∧ start mod PGSIZE = 0.
Hypothesis Hend : end_ mod PGSIZE = 0
                  ∧ end_ <= Z.of_nat (length (f_blocks f)) * PGSIZE
                  ∧ end_ <= MAXFILESIZE.
Hypothesis Hva : 0 <= va ∧ va mod PGSIZE = 0 ∧ va + (end_ - start) <= UTOP.

Lemma text_ready_mapped m c dstva x :
  text_ready m →
  text_ready (set_envs (alter (set_pgdir (insert dstva x)) ci) (log c m)).
Proof.
  intros (Hinj & [cur Hcur] & Hchild & Hne & Hlook & Hmapped).
  repeat split.
  - done.
  - machine_simpl. rewrite lookup_alter_ne by done. eauto.
  - rewrite envid2env_set_pgdir. done.
  - done.
  - done.
  - intros k p Hk. destruct (Hmapped k p Hk) as [perm Hp]. exists perm.
    rewrite env_pte_set_pgdir. machine_simpl. by rewrite decide_False.
Qed.

(** One more page fits below an aligned bound. *)
Lemma aligned_step i :
  i mod PGSIZE = 0 → i < end_ → i + PGSIZE <= end_.
Proof.
  intros Hi Hlt. destruct Hend as (He & _).
  assert (HP : PGSIZE = 4096) by reflexivity.
  pose proof (Z.div_mod i PGSIZE). pose proof (Z.div_mod end_ PGSIZE).
  assert (i / PGSIZE < end_ / PGSIZE) by nia. nia.
Qed.

Lemma text_block m i :
  text_ready m → 0 <= i → i mod PGSIZE = 0 → i < end_ →
  ∃ p perm, file_block f i = Some p
            ∧ env_pte m (curenv m) (fd2data fdnum + i) = Some (p, perm).
Proof.
  intros (_ & _ & _ & _ & _ & Hmapped) Hi0 Hi Hlt.
  destruct Hend as (_ & Hlen & _).
  assert (HP : PGSIZE = 4096) by reflexivity.
  assert (Hk : (Z.to_nat (i / PGSIZE) < length (f_blocks f))%nat).
  { assert (i / PGSIZE < Z.of_nat (length (f_blocks f)))
      by (apply Z.div_lt_upper_bound; lia).
    pose proof (Z.div_pos i PGSIZE). lia. }
  destruct (lookup_lt_is_Some_2 _ _ Hk) as [p Hp].
  destruct (Hmapped _ p Hp) as [perm Hperm].
  exists p, perm. split; [done|].
  rewrite <- Hperm. do 2 f_equal.
  pose proof (Z.div_mod i PGSIZE). pose proof (Z.div_pos i PGSIZE).
  rewrite Z2Nat.id by lia. lia.
Qed.

Lemma fd2data_ok i :
  0 <= i → i mod PGSIZE = 0 → i < end_ → va_ok (fd2data fdnum + i) = true.
Proof.
  intros Hi0 Hi Hlt. destruct Hend as (_ & _ & Hmax).
  unfold va_ok. apply andb_true_intro. split.
  - apply Z.ltb_lt.
    unfold fd2data, FILEDATA, FDTABLE, MAXFD, MAXFILESIZE, PTSIZE, PGSIZE, UTOP in *. lia.
  - apply Z.eqb_eq.
    replace (fd2data fdnum + i) with (i + (1024 * fdnum + 851968 + 32) * PGSIZE)
      by (unfold fd2data, FILEDATA, FDTABLE, MAXFD, PTSIZE, PGSIZE; lia).
    by rewrite Z.mod_add.
Qed.

(** The loop of [spawn] over the pages of a text segment: it ends
    without an early return; every page of the file from [i] on is mapped
    in the child, at the corresponding address, as the physical page that
    backs the file there, with permission [PTE_U | PTE_P]; no other
    page-table entry changes, no page is allocated or written. *)
Lemma map_text_ok n :
  ∀ fuel m i,
    text_ready m → (n < fuel)%nat →
    start <= i → i mod PGSIZE = 0 →
    i + Z.of_nat n * PGSIZE = end_ ∨ (n = O ∧ end_ <= i) →
    i < 2 ^ 32 →
    ∃ m',
      map_text fuel fdnum child va start end_ i m = (Ok None, m')
      ∧ text_ready m'
      ∧ phys m' = phys m
      ∧ page_free_list m' = page_free_list m
      ∧ curenv m' = curenv m
      ∧ (∀ e w, e ≠ ci ∨ w < va + (i - start) ∨ va + (end_ - start) <= w →
                env_pte m' e w = env_pte m e w)
      ∧ (∀ k p, 0 <= k → i <= start + k * PGSIZE < end_ →
                file_block f (start + k * PGSIZE) = Some p →
                env_pte m' ci (va + k * PGSIZE) = Some (p, Z.lor PTE_U PTE_P)).
Proof.
  assert (HP : PGSIZE = 4096) by reflexivity.
  assert (HU : UTOP = 0xeec00000) by reflexivity.
  induction n as [|n IH]; intros fuel m i Hready Hfuel Hi Hal Hn Hi32.
  - destruct fuel as [|fuel]; [lia|]. cbn [map_text].
    destruct (Z.ltb_spec i end_) as [Hlt|_]; [lia|].
    exists m. repeat split; try done; try apply Hready. intros; lia.
  - destruct fuel as [|fuel]; [lia|]. cbn [map_text].
    destruct Hn as [Hn | [? _]]; [|done].
    destruct (Z.ltb_spec i end_) as [Hlt|]; [|lia].
    destruct (text_block m i Hready) as (p & sperm & Hblock & Hpte); [lia | done | done |].
    pose proof Hready as (Hinj & Hcur & Hchild & Hne & Hlook & Hmapped).
    assert (Hvaok : va_ok (fd2data fdnum + i) = true)
      by (apply fd2data_ok; [lia | done | done]).
    assert (Hread : read_map fdnum i m = (Ok (0, fd2data fdnum + i), m)).
    { unfold read_map. rewrite Hlook.
      destruct (Z.leb_spec MAXFILESIZE i); [lia|].
      rewrite translate_env_pte.
      replace (ROUNDDOWN (fd2data fdnum + i) PGSIZE) with (fd2data fdnum + i).
      - by rewrite Hpte.
      - unfold va_ok in Hvaok. apply andb_prop in Hvaok as [H1 H2].
        apply Z.ltb_lt in H1. apply Z.eqb_eq in H2.
        rewrite ROUNDDOWN_spec by lia.
        rewrite u32_small by (unfold fd2data, FILEDATA, FDTABLE, MAXFD, PTSIZE in *; lia).
        lia. }
    erewrite bind_ok by exact Hread. cbn beta iota. change (0 <? 0) with false. cbn iota.
    assert (Hdst : u32 (va + i - start) = va + (i - start)) by (rewrite u32_small; lia).
    rewrite Hdst.
    assert (Hdstok : va_ok (va + (i - start)) = true).
    { unfold va_ok. apply andb_true_intro. split; [apply Z.ltb_lt; lia|].
      apply Z.eqb_eq. destruct Hva as (_ & Hva1 & _), Hstart as (_ & Hs1).
      rewrite Zplus_mod, Zminus_mod, Hva1, Hal, Hs1. done. }
    erewrite bind_ok
      by (apply (sys_page_map_plain m 0 (fd2data fdnum + i) child (va + (i - start))
                   (Z.lor PTE_U PTE_P) (curenv m) ci p sperm); done).
    change (0 <? 0) with false. cbn iota.
    set (m1 := set_envs _ _).
    assert (Hready1 : text_ready m1) by (by apply text_ready_mapped).
    pose proof (aligned_step i Hal Hlt) as Hstep.
    rewrite (u32_small (i + PGSIZE)) by (unfold MAXFILESIZE, PTSIZE in *; lia).
    destruct (IH fuel m1 (i + PGSIZE) Hready1)
      as (m' & Hrun & Hready' & Hphys & Hfree & Hcurenv & Hother & Hmap);
      [lia | lia | | | unfold MAXFILESIZE, PTSIZE in *; lia |].
    { rewrite Zplus_mod, Hal, Z_mod_same_full. done. }
    { destruct n; [right | left]; lia. }
    exists m'. split; [exact Hrun|]. split; [done|].
    split; [by rewrite Hphys|]. split; [by rewrite Hfree|]. split; [by rewrite Hcurenv|].
    split.
    + intros e w Hew. rewrite Hother by lia.
      unfold m1. rewrite env_pte_set_pgdir. rewrite env_pte_log.
      case_decide; [|done]. subst e. machine_simpl.
      destruct (envs m !! ci) as [cenv|] eqn:Hcenv; [|by unfold env_pte; rewrite Hcenv].
      simpl. unfold env_pte. rewrite Hcenv. simpl. apply lookup_insert_ne. lia.
    + intros k q Hk0 Hk Hq.
      destruct (decide (start + k * PGSIZE = i)) as [Heq|Hneq].
      * rewrite Hother by lia.
        unfold m1. rewrite env_pte_set_pgdir, decide_True by done. machine_simpl.
        destruct (envid2env_is_Some m child ci Hcur Hchild) as [cenv Hcenv].
        rewrite Hcenv. simpl.
        replace (va + k * PGSIZE) with (va + (i - start)) by lia.
        rewrite lookup_insert_eq. rewrite Heq, Hblock in Hq. by injection Hq as ->.
      * apply Hmap; [done| |done].
        destruct Hstart as (_ & Hs1).
        pose proof (Z.div_mod i PGSIZE). pose proof (Z.div_mod start PGSIZE).
        nia.
Qed.
End SpawnText.


(** ** lib/spawn.c: data and bss segments *)

Section SpawnDataMemory.
Import Spawn SpawnSpec.

Lemma memset_store_bytes n :
  ∀ va c m, memset_ va c n m = store_bytes va (replicate n c) m.
Proof.
  induction n as [|n IH]; intros va c m; [done|].
  cbn [memset_ replicate store_bytes]. unfold bind.
  destruct (store8 va c m) as [[[]| | |] m1]; auto.
Qed.

Lemma memset_scratch m p pg off c n :
  scratch m p pg → 0 <= off → 0 <= n → off + n <= PGSIZE →
  memset (UTEMP + off) c n m
  = (Ok tt, set_phys (insert p (write_bytes (Z.to_nat off) (replicate (Z.to_nat n) c) pg)) m).
Proof.
  intros Hs Hoff Hn Hlen. unfold memset. rewrite memset_store_bytes.
  apply store_bytes_scratch; [done | done |]. rewrite length_replicate. lia.
Qed.

Lemma length_file_bytes m f pos n : length (file_bytes m f pos n) = n.
Proof. unfold file_bytes. by rewrite length_fmap, length_seq. Qed.

Lemma read_count_bounds size pos n : 0 <= n → 0 <= read_count size pos n <= n.
Proof. unfold read_count. lia. Qed.

Lemma scratch_set_fd_offset m p pg fdnum off :
  scratch m p pg → scratch (set_fd_offset fdnum off m) p pg.
Proof. done. Qed.

(** [read(fdnum, UTEMP, PGSIZE)] into the scratch page. *)
Lemma read_scratch m p pg fdnum fd f :
  scratch m p pg → fd_lookup m fdnum = Some (fd, f) →
  let cnt := read_count (f_size f) (fd_offset fd) PGSIZE in
  read fdnum UTEMP PGSIZE m
  = (Ok cnt,
     set_phys (insert p (write_bytes 0 (file_bytes m f (fd_offset fd) (Z.to_nat cnt)) pg))
       (set_fd_offset fdnum (fd_offset fd + cnt) m)).
Proof.
  intros Hs Hfd cnt. unfold read.
  assert (Hcnt : 0 <= cnt <= PGSIZE) by (apply read_count_bounds; done).
  assert (Hloc : read_local fdnum PGSIZE m
                 = (Ok (cnt, file_bytes m f (fd_offset fd) (Z.to_nat cnt)),
                    set_fd_offset fdnum (fd_offset fd + cnt) m)).
  { unfold read_local. by rewrite Hfd. }
  erewrite bind_ok by exact Hloc. cbn beta iota.
  replace UTEMP with (UTEMP + 0) at 1 by lia.
  erewrite bind_ok.
  2:{ apply store_bytes_scratch; [by apply scratch_set_fd_offset | lia |].
      rewrite length_file_bytes. lia. }
  done.
Qed.

(** The bytes of a file do not depend on pages that are not its blocks. *)
Lemma file_bytes_phys m m' f pos n :
  (∀ b, b ∈ f_blocks f → phys m' !! b = phys m !! b) →
  file_bytes m' f pos n = file_bytes m f pos n.
Proof.
  intros H. unfold file_bytes. apply list_fmap_ext. intros _ j _.
  unfold file_byte.
  destruct (f_blocks f !! Z.to_nat ((pos + Z.of_nat j) / PGSIZE)) as [b|] eqn:Hb; [|done].
  simpl. rewrite H; [done|]. by eapply list_elem_of_lookup_2.
Qed.

Lemma write_zero_zero off n N :
  (off + n <= N)%nat →
  write_bytes off (replicate n 0) (replicate N 0) = replicate N 0.
Proof.
  intros H. apply list_eq. intros i.
  rewrite lookup_write_bytes by (rewrite !length_replicate; lia).
  rewrite length_replicate. case_decide; [|done].
  rewrite !lookup_replicate_2 by lia. done.
Qed.
End SpawnDataMemory.

Section SpawnData.
Import Spawn SpawnSpec SpawnDataSpec.

Variables (fdnum child ci va start end_ limit : Z) (f : File).

(** What the data loop needs of the machine: no injected failure, a
    running environment, the child (another environment), the open file
    positioned at [pos], and free pages [frees], all different and none of
    them a block of the file. *)
Definition data_ready (m : Machine) (pos : Z) (frees : list nat) : Prop :=
  inject m = []
  ∧ is_Some (envs m !! curenv m)
  ∧ envid2env m child = Some ci
  ∧ ci ≠ curenv m
  ∧ (∃ fd, fd_lookup m fdnum = Some (fd, f) ∧ fd_offset fd = pos)
  ∧ (∃ rest, page_free_list m = frees ++ rest)
  ∧ NoDup frees
  ∧ (∀ p, p ∈ frees → p ∉ f_blocks f).

Hypothesis Hstart : 0 <= start ∧ start mod PGSIZE = 0.
Hypothesis Hend : end_ mod PGSIZE = 0 ∧ end_ < 2 ^ 32.
Hypothesis Hva : 0 <= va ∧ va mod PGSIZE = 0 ∧ va + (end_ - start) <= UTOP.
Hypothesis Hlimit : 0 <= limit < 2 ^ 32.

Lemma fd_lookup_set_fd_offset m fd off :
  fd_lookup m fdnum = Some (fd, f) →
  fd_lookup (set_fd_offset fdnum off m) fdnum = Some (mkFd (fd_path fd) off, f).
Proof.
  unfold fd_lookup. destruct (fdnum <? 0); [done|]. machine_simpl.
  rewrite list_lookup_alter.
  destruct (fds m !! Z.to_nat fdnum) as [fd'|]; [|done]. simpl.
  destruct (fs m !! fd_path fd') as [f'|] eqn:Hf; [|done]. simpl.
  intros [= -> ->]. rewrite decide_True by done. simpl. by rewrite Hf.
Qed.

Lemma set_phys_fd_twice m p (pg pg' : list Z) n off :
  set_phys (insert p pg') (set_fd_offset n off (set_phys (insert p pg) m))
  = set_phys (insert p pg') (set_fd_offset n off m).
Proof. unfold set_phys, set_fd_offset, set_fds. simpl. by rewrite insert_insert_eq. Qed.

Lemma handed_over_is_Some m perm p pg chld c dstva e :
  is_Some (envs m !! e) →
  is_Some (envs (page_handed_over m perm p pg chld c dstva) !! e).
Proof.
  intros [env He]. unfold page_handed_over. machine_simpl.
  rewrite !lookup_alter. repeat case_decide; subst; rewrite He; simpl; eauto.
Qed.

Lemma data_perm_ok : perm_ok data_perm = true ∧ writable data_perm = true.
Proof. done. Qed.

(** One turn of the data loop; [rest] is the free list behind the pages
    that the loop is going to take. *)
Lemma map_data_step_rest fuel m pos p frees rest i :
  data_ready m pos (p :: frees) →
  page_free_list m = (p :: frees) ++ rest →
  start <= i → i mod PGSIZE = 0 → i < end_ →
  ∃ m',
    map_data (S fuel) fdnum child va start end_ limit i m
    = map_data fuel fdnum child va start end_ limit (i + PGSIZE) m'
    ∧ data_ready m' (next_pos f pos limit i) frees
    ∧ phys m' = <[p := data_page m f pos limit i]> (phys m)
    ∧ curenv m' = curenv m
    ∧ (∀ e w, env_pte m' e w
              = if decide (e = curenv m ∧ w = UTEMP) then None
                else if decide (e = ci ∧ w = va + (i - start)) then Some (p, data_perm)
                else env_pte m e w)
    ∧ page_free_list m' = frees ++ rest.
Proof.
  intros (Hinj & Hcur & Hchild & Hne & (fd & Hfd & Hpos) & _ & Hnodup & Hblocks)
         Hfree Hi Hal Hlt.
  assert (HP : PGSIZE = 4096) by reflexivity.
  assert (HU : UTOP = 0xeec00000) by reflexivity.
  assert (HT : UTEMP = 4194304) by reflexivity.
  apply NoDup_cons in Hnodup as [Hp Hnodup].
  assert (Hpb : p ∉ f_blocks f) by (apply Hblocks; left).
  assert (Hstep : i + PGSIZE <= end_).
  { destruct Hend as [He _].
    pose proof (Z.div_mod i PGSIZE). pose proof (Z.div_mod end_ PGSIZE).
    assert (i / PGSIZE < end_ / PGSIZE) by nia. nia. }
  cbn [map_data]. destruct (Z.ltb_spec i end_) as [_|]; [|lia].
  cbn [app] in Hfree.
  erewrite bind_ok
    by (apply (sys_page_alloc_plain m 0 (curenv m) UTEMP data_perm p (frees ++ rest)); done).
  fold (scratch_allocated m data_perm p (frees ++ rest)).
  set (m1 := scratch_allocated m data_perm p (frees ++ rest)).
  change (0 <? 0) with false. cbn iota.
  assert (Hs1 : scratch m1 p zero_page) by (by apply scratch_allocated_scratch).
  assert (Hzero : memset UTEMP 0 PGSIZE m1 = (Ok tt, set_phys (insert p zero_page) m1)).
  { pose proof (memset_scratch m1 p zero_page 0 0 PGSIZE Hs1) as Hm.
    rewrite Z.add_0_r in Hm. rewrite Hm by lia.
    unfold zero_page. rewrite write_zero_zero by lia. done. }
  erewrite bind_ok by exact Hzero.
  assert (Hdst : u32 (va + i - start) = va + (i - start)) by (rewrite u32_small; lia).
  assert (Hdstok : va_ok (va + (i - start)) = true).
  { unfold va_ok. apply andb_true_intro. split; [apply Z.ltb_lt; lia|].
    apply Z.eqb_eq. destruct Hva as (_ & Hva1 & _), Hstart as (_ & Hs1').
    rewrite Zplus_mod, Zminus_mod, Hva1, Hal, Hs1'. done. }
  rewrite (u32_small (i + PGSIZE)) by lia. rewrite Hdst.
  (* the machine on which the finished page is handed over, and the page *)
  set (base := if i <? limit
               then set_fd_offset fdnum (pos + read_count (f_size f) pos PGSIZE) m1
               else m1).
  assert (Hbase : inject base = [] ∧ env_pte base (curenv base) UTEMP = Some (p, data_perm)
                  ∧ envid2env base child = Some ci ∧ curenv base = curenv m
                  ∧ envs base = envs m1 ∧ phys base = phys m1
                  ∧ page_free_list base = frees ++ rest
                  ∧ ∃ fd', fd_lookup base fdnum = Some (fd', f)
                           ∧ fd_offset fd' = next_pos f pos limit i).
  { unfold base, next_pos. destruct (i <? limit).
    - repeat split; try done.
      + exact (scratch_allocated_pte m data_perm p (frees ++ rest) Hcur).
      + change (envid2env (set_fd_offset _ _ m1) child) with (envid2env m1 child).
        unfold m1. by rewrite scratch_allocated_envid2env.
      + eexists. split; [apply fd_lookup_set_fd_offset; exact Hfd | done].
    - repeat split; try done.
      + exact (scratch_allocated_pte m data_perm p (frees ++ rest) Hcur).
      + unfold m1. by rewrite scratch_allocated_envid2env.
      + exists fd. done. }
  destruct Hbase as (Hinjb & Hpteb & Hchildb & Hcurb & Henvsb & Hphysb & Hfreeb & fd' & Hfdb & Hposb).
  assert (Hbody :
    (if i <? limit then
       do r <- read fdnum UTEMP PGSIZE;
       if r <? 0 then ret (Some r)
       else
         run when (i =? ROUNDDOWN limit PGSIZE)
               (memset (u32 (UTEMP + limit - i)) 0 (u32 (PGSIZE - (limit - i))));
         ret None
     else ret None) (set_phys (insert p zero_page) m1)
    = (Ok None, set_phys (insert p (data_page m f pos limit i)) base)).
  { unfold base, data_page. destruct (Z.ltb_spec i limit) as [Hil|Hil]; [|done].
    assert (Hs2 : scratch (set_phys (insert p zero_page) m1) p zero_page)
      by (by eapply scratch_set_phys).
    assert (Hfd1 : fd_lookup (set_phys (insert p zero_page) m1) fdnum = Some (fd, f)) by done.
    pose proof (read_count_bounds (f_size f) pos PGSIZE) as Hcnt.
    erewrite bind_ok by (apply (read_scratch _ p zero_page fdnum fd f Hs2 Hfd1)).
    rewrite Hpos. cbv zeta.
    destruct (Z.ltb_spec (read_count (f_size f) pos PGSIZE) 0) as [|_]; [lia|].
    rewrite (file_bytes_phys m).
    2:{ intros b Hb. machine_simpl. unfold m1, scratch_allocated. machine_simpl.
        rewrite !lookup_insert_ne by (intros ->; done). done. }
    rewrite set_phys_fd_twice.
    destruct (Z.eqb_spec i (ROUNDDOWN limit PGSIZE)) as [Heq|Hneq]; [|done].
    unfold when.
    pose proof (ROUNDDOWN_bounds limit PGSIZE) as Hrd. rewrite (u32_small limit) in Hrd by lia.
    rewrite <- Heq in Hrd.
    replace (u32 (UTEMP + limit - i)) with (UTEMP + (limit - i)) by (rewrite u32_small; lia).
    rewrite (u32_small (PGSIZE - _)) by lia.
    erewrite bind_ok.
    2:{ apply memset_scratch; [| lia | lia | lia].
        apply scratch_set_phys with (pg := zero_page).
        change (scratch (set_fd_offset fdnum (pos + read_count (f_size f) pos PGSIZE) m1)
                        p zero_page).
        by apply scratch_set_fd_offset. }
    rewrite set_phys_twice. done. }
  rewrite (bind_ok _ _ _ _ _ Hbody).
  destruct (hand_over base data_perm p (data_page m f pos limit i) child ci (va + (i - start)))
    as [Hmap Hunmap]; [done | done | done | done | done |].
  erewrite bind_ok by exact Hmap. change (0 <? 0) with false. cbn iota.
  erewrite bind_ok by exact Hunmap. change (0 <? 0) with false. cbn iota.
  set (m' := page_handed_over base data_perm p (data_page m f pos limit i) child ci
                              (va + (i - start))).
  destruct (handed_over_facts base data_perm p (data_page m f pos limit i) child ci
              (va + (i - start)))
    as (Hphys' & Hinj' & Hfree' & Hcur' & Hfds' & Hfs' & Henvid' & _).
  fold m' in Hphys', Hinj', Hfree', Hcur', Hfds', Hfs', Henvid'.
  assert (Hcur1 : is_Some (envs base !! curenv base)).
  { rewrite Henvsb, Hcurb. by apply scratch_allocated_is_Some. }
  assert (Hci1 : is_Some (envs base !! ci)).
  { rewrite Henvsb. apply scratch_allocated_is_Some. by eapply envid2env_is_Some. }
  assert (Hpte' : ∀ e w, env_pte m' e w
              = if decide (e = curenv m ∧ w = UTEMP) then None
                else if decide (e = ci ∧ w = va + (i - start)) then Some (p, data_perm)
                else env_pte m e w).
  { intros e w. unfold m'. rewrite env_pte_handed_over by done. rewrite Hcurb.
    repeat case_decide; try done.
    unfold env_pte. rewrite Henvsb. unfold m1, scratch_allocated. machine_simpl.
    rewrite lookup_alter. case_decide; [|done]. subst e.
    destruct (envs m !! curenv m) as [cur|]; [|done]. simpl.
    rewrite lookup_insert_ne; [done|]. intros <-. tauto. }
  exists m'. split; [done|]. split; [|split; [|split; [|split; [done|]]]].
  - repeat split.
    + by rewrite Hinj'.
    + rewrite Hcur'. by apply handed_over_is_Some.
    + by rewrite Henvid'.
    + by rewrite Hcur', Hcurb.
    + exists fd'. split; [|done]. unfold fd_lookup in *. by rewrite Hfds', Hfs'.
    + exists rest. by rewrite Hfree'.
    + done.
    + intros q Hq. apply Hblocks. by right.
  - rewrite Hphys', Hphysb. unfold m1, scratch_allocated. machine_simpl.
    by rewrite insert_insert_eq.
  - by rewrite Hcur', Hcurb.
  - by rewrite Hfree'.
Qed.

(** One turn of the data loop. *)
Lemma map_data_step fuel m pos p frees i :
  data_ready m pos (p :: frees) →
  start <= i → i mod PGSIZE = 0 → i < end_ →
  ∃ m',
    map_data (S fuel) fdnum child va start end_ limit i m
    = map_data fuel fdnum child va start end_ limit (i + PGSIZE) m'
    ∧ data_ready m' (next_pos f pos limit i) frees
    ∧ phys m' = <[p := data_page m f pos limit i]> (phys m)
    ∧ curenv m' = curenv m
    ∧ (∀ e w, env_pte m' e w
              = if decide (e = curenv m ∧ w = UTEMP) then None
                else if decide (e = ci ∧ w = va + (i - start)) then Some (p, data_perm)
                else env_pte m e w).
Proof.
  intros Hready Hi Hal Hlt.
  pose proof Hready as (_ & _ & _ & _ & _ & (rest & Hfree) & _).
  destruct (map_data_step_rest fuel m pos p frees rest i Hready Hfree Hi Hal Hlt)
    as (m' & H1 & H2 & H3 & H4 & H5 & _).
  by exists m'.
Qed.

Lemma data_page_phys m m' pos i :
  (∀ b, b ∈ f_blocks f → phys m' !! b = phys m !! b) →
  data_page m' f pos limit i = data_page m f pos limit i.
Proof. intros H. unfold data_page. by rewrite (file_bytes_phys m m'). Qed.

(** The data loop of [spawn]: it ends without an early return; the
    [k]-th page from [i] on is the [k]-th free page, it is mapped in the
    child at the corresponding address with permission
    [PTE_U | PTE_W | PTE_P], and it holds what [data_page] says for the
    position the file has by then; the scratch address is unmapped again;
    no other page and no other page-table entry changes. *)
Lemma map_data_ok frees :
  ∀ fuel m pos i,
    data_ready m pos frees → (length frees < fuel)%nat →
    start <= i → i mod PGSIZE = 0 →
    i + Z.of_nat (length frees) * PGSIZE = end_ ∨ (frees = [] ∧ end_ <= i) →
    ∃ m',
      map_data fuel fdnum child va start end_ limit i m = (Ok None, m')
      ∧ data_ready m' (data_cursor f limit pos i (length frees)) []
      ∧ curenv m' = curenv m
      ∧ (frees = [] → m' = m)
      ∧ (frees ≠ [] → env_pte m' (curenv m) UTEMP = None)
      ∧ (∀ q, q ∉ frees → phys m' !! q = phys m !! q)
      ∧ (∀ e w, e ≠ ci ∨ w < va + (i - start) ∨ va + (end_ - start) <= w →
                e ≠ curenv m ∨ w ≠ UTEMP →
                env_pte m' e w = env_pte m e w)
      ∧ (∀ k p, frees !! k = Some p →
                env_pte m' ci (va + (i - start) + Z.of_nat k * PGSIZE) = Some (p, data_perm)
                ∧ phys m' !! p
                  = Some (data_page m f (data_cursor f limit pos i k) limit
                                    (i + Z.of_nat k * PGSIZE))).
Proof.
  assert (HP : PGSIZE = 4096) by reflexivity.
  induction frees as [|p frees IH]; intros fuel m pos i Hready Hfuel Hi Hal Hn.
  - destruct fuel as [|fuel]; [simpl in Hfuel; lia|]. cbn [map_data].
    destruct (Z.ltb_spec i end_) as [Hlt|_]; [simpl in Hn; lia|].
    exists m. repeat split; try done; apply Hready.
  - destruct fuel as [|fuel]; [simpl in Hfuel; lia|].
    destruct Hn as [Hn | [? _]]; [|done]. cbn [length] in Hn, Hfuel.
    assert (Hlt : i < end_) by lia.
    destruct (map_data_step fuel m pos p frees i Hready Hi Hal Hlt)
      as (m1 & Hrun1 & Hready1 & Hphys1 & Hcur1 & Hpte1).
    pose proof Hready as (_ & _ & _ & Hne & _ & _ & Hnodup & Hblocks).
    apply NoDup_cons in Hnodup as [Hp Hnodup].
    destruct (IH fuel m1 (next_pos f pos limit i) (i + PGSIZE) Hready1)
      as (m' & Hrun & Hready' & Hcur' & Hnil & Hutemp & Hphys & Hframe & Hpages);
      [lia | lia | | |].
    { rewrite Zplus_mod, Hal, Z_mod_same_full. done. }
    { destruct frees; [right; split; [done|] | left]; cbn [length] in *; lia. }
    exists m'. rewrite Hrun1, Hrun. split; [done|]. split; [done|].
    split; [by rewrite Hcur'|]. split; [done|].
    split.
    { intros _. destruct frees as [|p' frees'].
      - rewrite Hnil by done. rewrite Hpte1. by rewrite decide_True.
      - rewrite <- Hcur1. by apply Hutemp. }
    split.
    { intros q Hq. apply not_elem_of_cons in Hq as [Hq1 Hq2].
      rewrite Hphys by done. rewrite Hphys1. by rewrite lookup_insert_ne. }
    split.
    { intros e w Hew Hcw. rewrite Hframe; [| lia | by rewrite Hcur1].
      rewrite Hpte1. rewrite decide_False by tauto.
      rewrite decide_False; [done|]. intros [-> ->]. lia. }
    intros [|k] q Hq.
    + injection Hq as <-. cbn [data_cursor Z.of_nat]. rewrite Z.mul_0_l, !Z.add_0_r.
      split.
      * rewrite Hframe; [| lia | left; by rewrite Hcur1].
        rewrite Hpte1. rewrite decide_False by (intros [? _]; done).
        by rewrite decide_True.
      * rewrite Hphys by done. rewrite Hphys1. apply lookup_insert_eq.
    + simpl in Hq. destruct (Hpages k q Hq) as [Hq1 Hq2].
      cbn [data_cursor].
      replace (va + (i - start) + Z.of_nat (S k) * PGSIZE)
        with (va + (i + PGSIZE - start) + Z.of_nat k * PGSIZE) by lia.
      replace (i + Z.of_nat (S k) * PGSIZE) with (i + PGSIZE + Z.of_nat k * PGSIZE) by lia.
      split; [done|]. rewrite Hq2. f_equal. apply data_page_phys.
      intros b Hb. rewrite Hphys1. apply lookup_insert_ne. intros <-.
      apply (Hblocks p); [left | done].
Qed.
(** The data loop takes exactly its pages from the free list. *)
Lemma map_data_rest frees :
  ∀ fuel m pos i rest,
    data_ready m pos frees → page_free_list m = frees ++ rest →
    (length frees < fuel)%nat →
    start <= i → i mod PGSIZE = 0 →
    i + Z.of_nat (length frees) * PGSIZE = end_ ∨ (frees = [] ∧ end_ <= i) →
    page_free_list (map_data fuel fdnum child va start end_ limit i m).2 = rest.
Proof.
  assert (HP : PGSIZE = 4096) by reflexivity.
  induction frees as [|p frees IH]; intros fuel m pos i rest Hready Hfree Hfuel Hi Hal Hn.
  - destruct fuel as [|fuel]; [simpl in Hfuel; lia|]. cbn [map_data].
    destruct (Z.ltb_spec i end_) as [Hlt|_]; [simpl in Hn; lia|]. done.
  - destruct fuel as [|fuel]; [simpl in Hfuel; lia|].
    destruct Hn as [Hn | [? _]]; [|done]. cbn [length] in Hn, Hfuel.
    assert (Hlt : i < end_) by lia.
    destruct (map_data_step_rest fuel m pos p frees rest i Hready Hfree Hi Hal Hlt)
      as (m1 & Hrun1 & Hready1 & _ & _ & _ & Hfree1).
    rewrite Hrun1. apply (IH fuel m1 (next_pos f pos limit i)); [done | done | lia | lia | |].
    + rewrite Zplus_mod, Hal, Z_mod_same_full. done.
    + destruct frees; [right; split; [done|] | left]; cbn [length] in *; lia.
Qed.
End SpawnData.

Section SpawnDataPage.
Import Spawn SpawnSpec SpawnDataSpec.

Lemma lookup_file_bytes m f pos n (j : nat) :
  (j < n)%nat → file_bytes m f pos n !! j = Some (file_byte m f (pos + Z.of_nat j)).
Proof.
  intros Hj. unfold file_bytes. rewrite list_lookup_fmap, lookup_seq_lt by done. done.
Qed.


(** The bytes of the page that the data loop builds: the bytes that the
    [read] delivered, up to offset [limit - i] in the page that holds
    [limit], and zero elsewhere. *)
Lemma data_page_byte m f pos limit i j :
  0 <= limit < 2 ^ 32 → 0 <= j < PGSIZE →
  page_byte (data_page m f pos limit i) j
  = if (i <? limit) && (j <? read_count (f_size f) pos PGSIZE)
       && negb ((i =? ROUNDDOWN limit PGSIZE) && (limit - i <=? j))
    then file_byte m f (pos + j) mod 256
    else 0.
Proof.
  intros Hlimit Hj. assert (HP : PGSIZE = 4096) by reflexivity.
  pose proof (read_count_bounds (f_size f) pos PGSIZE) as Hcnt.
  set (cnt := read_count (f_size f) pos PGSIZE) in *.
  unfold page_byte, data_page. fold cnt.
  destruct (Z.ltb_spec i limit) as [Hil|Hil]; cbn [andb].
  2:{ unfold zero_page. rewrite lookup_replicate_2 by lia. done. }
  assert (Hread : write_bytes 0 (file_bytes m f pos (Z.to_nat cnt)) zero_page !! Z.to_nat j
                  = Some (if j <? cnt then file_byte m f (pos + j) mod 256 else 0)).
  { rewrite lookup_write_bytes
      by (rewrite length_file_bytes; unfold zero_page; rewrite length_replicate; lia).
    rewrite length_file_bytes.
    destruct (Z.ltb_spec j cnt).
    - rewrite decide_True by lia. rewrite Nat.sub_0_r.
      rewrite lookup_file_bytes by lia. simpl. do 3 f_equal. lia.
    - rewrite decide_False by lia. unfold zero_page.
      rewrite lookup_replicate_2 by lia. done. }
  destruct (Z.eqb_spec i (ROUNDDOWN limit PGSIZE)) as [Heq|Hne]; cbn [andb negb].
  - pose proof (ROUNDDOWN_bounds limit PGSIZE) as Hrd.
    rewrite (u32_small limit) in Hrd by lia. rewrite <- Heq in Hrd.
    rewrite lookup_write_bytes
      by (rewrite length_replicate, length_write_bytes; unfold zero_page;
          rewrite length_replicate; lia).
    rewrite length_replicate.
    destruct (Z.leb_spec (limit - i) j).
    + rewrite decide_True by lia. rewrite lookup_replicate_2 by lia.
      rewrite andb_false_r. done.
    + rewrite decide_False by lia. rewrite Hread. rewrite andb_true_r. done.
  - rewrite Hread. rewrite andb_true_r. done.
Qed.


End SpawnDataPage.

Section SpawnDataSegment.
Import Spawn SpawnSpec SpawnDataSpec.

(** A data and bss segment in the loop of [spawn] over the program
    headers: after the [seek] to [p_offset], the data loop gives the
    [k]-th page of the segment the [k]-th free page, with the contents of
    [data_page] for the position the file has by then. *)
Lemma load_data_segment m fdnum child ci f ph pos0 frees :
  let start := ROUNDDOWN (p_offset ph) PGSIZE in
  let end_ := ROUNDUP (u32 (p_memsz ph + p_offset ph)) PGSIZE in
  let va := ROUNDDOWN (p_va ph) PGSIZE in
  let limit := u32 (p_offset ph + p_filesz ph) in
  p_type ph = ELF_PROG_LOAD →
  Z.land (p_flags ph) ELF_PROG_FLAG_WRITE ≠ 0 →
  data_ready fdnum child ci f m pos0 frees →
  start + Z.of_nat (length frees) * PGSIZE = end_ ∨ (frees = [] ∧ end_ <= start) →
  va + (end_ - start) <= UTOP →
  ∃ m',
    load_segment fdnum child ph m = (Ok None, m')
    ∧ (frees ≠ [] → translate m' UTEMP = None)
    ∧ (∀ q, q ∉ frees → phys m' !! q = phys m !! q)
    ∧ (∀ k p, frees !! k = Some p →
              env_pte m' ci (va + Z.of_nat k * PGSIZE) = Some (p, data_perm)
              ∧ phys m' !! p
                = Some (data_page m f (data_cursor f limit (p_offset ph) start k) limit
                                  (start + Z.of_nat k * PGSIZE))).
Proof.
  intros start end_ va limit Htype Hflags Hready Hn Hva.
  assert (HP : 0 < PGSIZE) by done.
  pose proof (ROUNDDOWN_range (p_offset ph) PGSIZE HP) as Hsr. fold start in Hsr.
  pose proof (ROUNDDOWN_aligned (p_offset ph) PGSIZE HP) as Hsa. fold start in Hsa.
  pose proof (ROUNDUP_range (u32 (p_memsz ph + p_offset ph)) PGSIZE HP) as Her. fold end_ in Her.
  pose proof (ROUNDUP_aligned (u32 (p_memsz ph + p_offset ph)) PGSIZE HP) as Hea. fold end_ in Hea.
  pose proof (ROUNDDOWN_range (p_va ph) PGSIZE HP) as Hvr. fold va in Hvr.
  pose proof (ROUNDDOWN_aligned (p_va ph) PGSIZE HP) as Hvaa. fold va in Hvaa.
  pose proof (u32_range (p_offset ph + p_filesz ph)) as Hlr. fold limit in Hlr.
  unfold load_segment. rewrite Htype, Z.eqb_refl.
  apply Z.eqb_neq in Hflags. rewrite Hflags.
  fold start end_ va limit.
  destruct Hready as (Hinj & Hcur & Hchild & Hne & (fd & Hfd & Hpos) & Hfree & Hnodup & Hblocks).
  assert (Hseek : seek fdnum (p_offset ph) m = (Ok 0, set_fd_offset fdnum (p_offset ph) m)).
  { unfold seek. by rewrite Hfd. }
  erewrite bind_ok by exact Hseek.
  set (ms := set_fd_offset fdnum (p_offset ph) m).
  assert (Hreadys : data_ready fdnum child ci f ms (p_offset ph) frees).
  { repeat split; try done.
    eexists. split; [by apply fd_lookup_set_fd_offset | done]. }
  destruct (map_data_ok fdnum child ci va start end_ limit f
              (conj (proj1 Hsr) Hsa) (conj Hea (proj2 Her)) (conj (proj1 Hvr) (conj Hvaa Hva))
              Hlr frees (page_fuel start end_) ms (p_offset ph) start Hreadys)
    as (m' & Hrun & _ & Hcur' & _ & Hutemp & Hphys & _ & Hpages).
  - unfold page_fuel. destruct Hn as [Hn | [-> _]]; [|simpl; lia].
    assert (Hdiv : (end_ - start + PGSIZE - 1) / PGSIZE = Z.of_nat (length frees)).
    { replace (end_ - start + PGSIZE - 1)
        with (PGSIZE - 1 + Z.of_nat (length frees) * PGSIZE) by lia.
      rewrite Z.div_add by lia. rewrite Z.div_small by (unfold PGSIZE; lia). lia. }
    rewrite Hdiv. lia.
  - lia.
  - done.
  - done.
  - exists m'. split; [exact Hrun|]. split.
    { intros Hne'. rewrite translate_env_pte. change (ROUNDDOWN UTEMP PGSIZE) with UTEMP.
      rewrite Hcur'. by apply Hutemp. }
    split; [done|].
    intros k p Hk. destruct (Hpages k p Hk) as [H1 H2].
    rewrite Z.sub_diag, Z.add_0_r in H1. done.
Qed.

End SpawnDataSegment.

(** C6: for arguments that fit in one page, [init_stack] returns 0 with
    [*init_esp] the child address of the two trailing words, and leaves a
    page, mapped in the child at [USTACKTOP - PGSIZE] and no longer mapped
    at [UTEMP] in the parent, that holds: the strings with their
    terminators, one after the other up to the end of the page; below
    them the 4-byte aligned array of the child addresses of the strings
    with a null pointer after the last; and directly below the array the
    word [argc] and above it the child address of the array. A child
    address is the parent address plus [(USTACKTOP - PGSIZE) - UTEMP]. *)
Theorem C6_init_stack_layout
        (m : Spawn.Machine) (child ci : Z) (argv : list (list Z)) (esp0 : Z)
        (p : nat) (rest : list nat) :
  Forall Spawn.cstring argv →
  SpawnSpec.args_fit argv →
  Spawn.inject m = [] →
  is_Some (Spawn.envs m !! Spawn.curenv m) →
  Spawn.envid2env m child = Some ci →
  Spawn.page_free_list m = p :: rest →
  let argc := Z.of_nat (length argv) in
  let esp := SpawnSpec.esp_off argv in
  let array := SpawnSpec.argv_off argv in
  let string i := SpawnSpec.string_off argv i in
  ∃ m' pg,
    Spawn.init_stack child argv esp0 m = (Ok (0, SpawnSpec.child_addr esp), m')
    ∧ SpawnSpec.env_pte m' ci (USTACKTOP - PGSIZE) = Some (p, Spawn.stack_perm)
    ∧ Spawn.translate m' UTEMP = None
    ∧ Spawn.phys m' !! p = Some pg
    ∧ length pg = Z.to_nat PGSIZE
    ∧ Spawn.page_word pg esp = argc
    ∧ Spawn.page_word pg (esp + 4) = SpawnSpec.child_addr array
    ∧ esp + 8 = array
    ∧ array mod 4 = 0
    ∧ (∀ i s, argv !! i = Some s →
          Spawn.page_word pg (array + 4 * Z.of_nat i) = SpawnSpec.child_addr (string i)
          ∧ Spawn.page_bytes pg (string i) (length s) = s
          ∧ Spawn.page_byte pg (string i + Z.of_nat (length s)) = 0
          ∧ array + 4 * (argc + 1) <= string i
          ∧ string (S i) = string i + Z.of_nat (length s) + 1)
    ∧ Spawn.page_word pg (array + 4 * argc) = 0
    ∧ string (length argv) = PGSIZE
    ∧ (∀ off, 0 <= off <= PGSIZE →
          SpawnSpec.child_addr off = Spawn.UTEMP2USTACK (UTEMP + off)
          ∧ SpawnSpec.child_addr off = (UTEMP + off) + ((USTACKTOP - PGSIZE) - UTEMP)).
Proof.
  intros Hcstr Hfit Hinj Hcur Hchild Hfree. cbv zeta.
  destruct (init_stack_ok m child argv esp0 ci p rest Hfit Hinj Hcur Hchild Hfree)
    as (pg & Hrun & Hlen & Hargc & Hargv & Hnull & Hargs).
  destruct (layout_bounds argv Hfit) as (He & Hea & Has & Hstr & Hal).
  pose proof (strings_size_nonneg argv) as Hnn.
  assert (HP : PGSIZE = 4096) by reflexivity.
  assert (Hchild_u32 : ∀ off, 0 <= off <= PGSIZE →
            u32 (SpawnSpec.child_addr off) = SpawnSpec.child_addr off).
  { intros off Hoff. apply u32_small.
    unfold SpawnSpec.child_addr, USTACKTOP, PGSIZE in *. lia. }
  set (m1 := scratch_allocated m Spawn.stack_perm p rest) in *.
  eexists _, pg. split; [exact Hrun|].
  assert (Hcur1 : is_Some (Spawn.envs m1 !! Spawn.curenv m1))
    by (by apply scratch_allocated_is_Some).
  assert (Hci1 : is_Some (Spawn.envs m1 !! ci)).
  { apply scratch_allocated_is_Some. by eapply envid2env_is_Some. }
  split.
  { rewrite env_pte_handed_over by done.
    rewrite decide_False by (intros [_ H]; done).
    by rewrite decide_True. }
  split.
  { rewrite translate_env_pte. change (ROUNDDOWN UTEMP PGSIZE) with UTEMP.
    change (Spawn.curenv (page_handed_over _ _ _ _ _ _ _)) with (Spawn.curenv m1).
    rewrite env_pte_handed_over by done. by rewrite decide_True. }
  split.
  { destruct (handed_over_facts m1 Spawn.stack_perm p pg child ci (USTACKTOP - PGSIZE))
      as (-> & _). apply lookup_insert_eq. }
  split; [done|].
  split.
  { rewrite (holds_page_word _ _ _ Hargc). apply u32_small.
    unfold SpawnSpec.esp_off, SpawnSpec.argv_off, SpawnSpec.str_off in *. lia. }
  split.
  { rewrite (holds_page_word _ _ _ Hargv). apply Hchild_u32. lia. }
  split; [done|]. split; [done|].
  split.
  { intros i s Hi. destruct (Hargs i s Hi) as [Hw Hs].
    pose proof (strings_size_take argv i) as Htake.
    pose proof (strings_size_take argv (S i)) as HtakeS.
    assert (Hnext : SpawnSpec.string_off argv (S i)
                    = SpawnSpec.string_off argv i + Z.of_nat (length s) + 1).
    { unfold SpawnSpec.string_off.
      rewrite (take_S_r _ _ _ Hi), strings_size_app. simpl. unfold Spawn.strlen. lia. }
    unfold SpawnSpec.string_off in *.
    repeat split.
    - rewrite (holds_page_word _ _ _ Hw). apply Hchild_u32. lia.
    - rewrite (holds_page_bytes pg _ s); [| lia | by eapply holds_app_l].
      apply cstring_bytes. by eapply Forall_lookup_1 in Hcstr.
    - rewrite (holds_page_byte pg _ (s ++ [0]) (length s) 0 Hs); [done|].
      by rewrite lookup_app_r, Nat.sub_diag by lia.
    - lia.
    - lia. }
  split.
  { rewrite (holds_page_word _ _ _ Hnull). done. }
  split.
  { unfold SpawnSpec.string_off. rewrite firstn_all. lia. }
  intros off Hoff. split.
  - by rewrite UTEMP2USTACK_scratch.
  - unfold SpawnSpec.child_addr. lia.
Qed.

Lemma C6_init_stack_layout_witness :
  ∃ m' pg,
    Spawn.init_stack 0x1002 SpawnExamples.prog_hello 0 SpawnExamples.forked
    = (Ok (0, 0xeebfdfe0), m')
    ∧ Spawn.phys m' !! 10%nat = Some pg
    ∧ Spawn.page_word pg 0xfe0 = 2
    ∧ Spawn.page_word pg 0xfe4 = 0xeebfdfe8.
Proof.
  destruct (C6_init_stack_layout SpawnExamples.forked 0x1002 2 SpawnExamples.prog_hello 0
              10%nat (seq 11 9))
    as (m' & pg & Hrun & _ & _ & Hpg & _ & Hargc & Hargv & _).
  - apply (bool_decide_unpack (Forall Spawn.cstring SpawnExamples.prog_hello)).
    vm_compute. exact I.
  - unfold SpawnSpec.args_fit. vm_compute. discriminate.
  - reflexivity.
  - vm_compute. eauto.
  - reflexivity.
  - reflexivity.
  - exists m', pg. repeat split; assumption.
Defined.

(** The body of the loop of [spawn] on a loadable segment without the
    write flag: for every page of the file between the segment's file
    offset rounded down and the end of its file-backed part rounded up,
    the physical page that backs the file there is mapped into the child
    at the corresponding virtual address, with permission
    [PTE_U | PTE_P]; it stays mapped in the parent's view of the file, no
    page is allocated and no page content changes. *)
Lemma load_text_segment
        (m : Spawn.Machine) (fdnum child ci : Z) (fd : Spawn.Fd) (f : Spawn.File)
        (ph : Spawn.Proghdr) :
  let start := ROUNDDOWN (Spawn.p_offset ph) PGSIZE in
  let end_ := ROUNDUP (u32 (Spawn.p_filesz ph + Spawn.p_offset ph)) PGSIZE in
  let va := ROUNDDOWN (Spawn.p_va ph) PGSIZE in
  Spawn.p_type ph = Spawn.ELF_PROG_LOAD →
  Z.land (Spawn.p_flags ph) Spawn.ELF_PROG_FLAG_WRITE = 0 →
  text_ready fdnum child ci fd f m →
  0 <= fdnum < Spawn.MAXFD →
  end_ <= Z.of_nat (length (Spawn.f_blocks f)) * PGSIZE →
  end_ <= Spawn.MAXFILESIZE →
  va + (end_ - start) <= UTOP →
  ∃ m',
    Spawn.load_segment fdnum child ph m = (Ok None, m')
    ∧ Spawn.phys m' = Spawn.phys m
    ∧ Spawn.page_free_list m' = Spawn.page_free_list m
    ∧ (∀ k p, 0 <= k → start + k * PGSIZE < end_ →
              SpawnSpec.file_block f (start + k * PGSIZE) = Some p →
              SpawnSpec.env_pte m' ci (va + k * PGSIZE) = Some (p, Z.lor PTE_U PTE_P)
              ∧ ∃ perm, SpawnSpec.env_pte m' (Spawn.curenv m')
                          (Spawn.fd2data fdnum + (start + k * PGSIZE)) = Some (p, perm)).
Proof.
  intros start end_ va Htype Hflags Hready Hfd Hlen Hmax Hva.
  assert (HP : 0 < PGSIZE) by done.
  assert (Hs : 0 <= start ∧ start mod PGSIZE = 0)
    by (split; [apply ROUNDDOWN_range | apply ROUNDDOWN_aligned]; done).
  assert (He : end_ mod PGSIZE = 0
               ∧ end_ <= Z.of_nat (length (Spawn.f_blocks f)) * PGSIZE
               ∧ end_ <= Spawn.MAXFILESIZE)
    by (split; [by apply ROUNDUP_aligned | done]).
  assert (Hv : 0 <= va ∧ va mod PGSIZE = 0 ∧ va + (end_ - start) <= UTOP)
    by (split; [apply ROUNDDOWN_range | split; [apply ROUNDDOWN_aligned|]]; done).
  pose proof (ROUNDDOWN_range (Spawn.p_offset ph) PGSIZE HP) as Hsr. fold start in Hsr.
  unfold Spawn.load_segment. rewrite Htype, Z.eqb_refl, Hflags. cbn [Z.eqb].
  fold start end_ va.
  set (n := if decide (start <= end_) then Z.to_nat ((end_ - start) / PGSIZE) else O).
  destruct (map_text_ok fdnum child ci va start end_ fd f Hfd Hs He Hv n
              (Spawn.page_fuel start end_) m start Hready)
    as (m' & Hrun & Hready' & Hphys & Hfree & Hcurenv & Hother & Hmap).
  - unfold Spawn.page_fuel, n. case_decide; [|lia].
    assert ((end_ - start) / PGSIZE <= (end_ - start + PGSIZE - 1) / PGSIZE)
      by (apply Z.div_le_mono; lia).
    lia.
  - lia.
  - apply Hs.
  - unfold n. case_decide; [left | right; lia].
    destruct Hs as [_ Hs1], He as [He1 _].
    assert (Hd : (end_ - start) mod PGSIZE = 0)
      by (rewrite Zminus_mod, He1, Hs1; done).
    pose proof (Z.div_mod (end_ - start) PGSIZE).
    pose proof (Z.div_pos (end_ - start) PGSIZE).
    rewrite Z2Nat.id by lia. lia.
  - lia.
  - exists m'. split; [exact Hrun|]. split; [done|]. split; [done|].
    intros k p Hk Hlt Hp. split.
    + apply Hmap; [done | | done]. nia.
    + destruct (text_block fdnum child ci end_ fd f He m' (start + k * PGSIZE) Hready')
        as (q & perm & Hq & Hpte); [nia | | done |].
      * destruct Hs as [_ Hs1]. by rewrite Z.mod_add.
      * exists perm. rewrite Hp in Hq. by injection Hq as <-.
Qed.

(** ** lib/spawn.c: the defects *)

(** A header with a wrong magic number: [spawn] panics whatever the
    machine, once the file is open. *)
Lemma spawn_bad_magic (m : Spawn.Machine) (prog : string) (argv : list (list Z))
      (f : Spawn.File) :
  Spawn.fs m !! prog = Some f →
  Z.of_nat (length (Spawn.fds m)) < Spawn.MAXFD →
  Spawn.e_magic (Spawn.file_bytes m f 0
                   (Z.to_nat (Spawn.read_count (Spawn.f_size f) 0 512))) ≠ Spawn.ELF_MAGIC →
  (Spawn.spawn prog argv m).1 = Panicked "load_icode: Give binary is not a valid ELF.\n" 0.
Proof.
  intros Hf Hfds Hmagic. unfold Spawn.spawn.
  unfold bind at 1. unfold Spawn.open. rewrite Hf.
  destruct (Z.leb_spec Spawn.MAXFD (Z.of_nat (length (Spawn.fds m)))) as [|_]; [lia|].
  destruct (Z.ltb_spec (Z.of_nat (length (Spawn.fds m))) 0) as [|_]; [lia|].
  unfold bind at 1. unfold Spawn.read_local, Spawn.fd_lookup.
  destruct (Z.ltb_spec (Z.of_nat (length (Spawn.fds m))) 0) as [|_]; [lia|].
  machine_simpl. rewrite Nat2Z.id, list_lookup_middle by done. simpl.
  rewrite Hf. simpl.
  change (Spawn.file_bytes (Spawn.set_envs ?a (Spawn.set_fds ?b m)))
    with (Spawn.file_bytes m).
  apply Z.eqb_neq in Hmagic. rewrite Hmagic. done.
Qed.

(** C2 (as the code has it): on the executable "junk", whose header has
    the magic number [0x464C457E], [spawn] does not return [-E_INVAL]: it
    stops in [panic], and the [return -E_INVAL] after it is never
    reached. *)
Theorem C2_spawn_bad_magic_panics :
  Spawn.e_magic (Spawn.file_bytes SpawnExamples.machine (SpawnExamples.three_blocks 120) 0 512)
  = 0x464C457E
  ∧ (Spawn.spawn "junk" SpawnExamples.prog_hello SpawnExamples.machine).1
    = Panicked "load_icode: Give binary is not a valid ELF.\n" 0
  ∧ (Spawn.spawn "junk" SpawnExamples.prog_hello SpawnExamples.machine).1
    ≠ Ok (- E_INVAL).
Proof.
  split; [by vm_compute|].
  assert ((Spawn.spawn "junk" SpawnExamples.prog_hello SpawnExamples.machine).1
          = Panicked "load_icode: Give binary is not a valid ELF.\n" 0) as ->.
  { apply (spawn_bad_magic _ _ _ (SpawnExamples.three_blocks 120)); by vm_compute. }
  done.
Qed.

(** C3 (as the code has it): the segment of "unaligned" has [p_offset =
    0x2004], [p_filesz = 8] and [p_memsz = 16]; its page is to hold the
    file's bytes [0x2000 .. 0x200b] at offsets 0 to 11 and zero from
    there on. [spawn] seeks to [p_offset], not to the page boundary below
    it, so that the page mapped in the child (a fresh page, unmapped from
    the parent) holds at offsets 0 to 11 the file's bytes from [0x2004]
    on: the bytes are shifted down by four, and four bytes from beyond
    the file-backed part are in the page. *)
Theorem C3_data_segment_unaligned :
  let m := SpawnExamples.opened_unaligned in
  let f := SpawnExamples.three_blocks 110 in
  ∃ m' pg,
    Spawn.load_segment 0 0x1002 SpawnExamples.unaligned_ph m = (Ok None, m')
    ∧ SpawnSpec.env_pte m' 2 0x00801000 = Some (10%nat, Spawn.data_perm)
    ∧ Spawn.translate m' UTEMP = None
    ∧ Spawn.phys m' !! 10%nat = Some pg
    ∧ (∀ j, 0 <= j < 12 → Spawn.page_byte pg j = Spawn.file_byte m f (0x2004 + j))
    ∧ (∀ j, 12 <= j < PGSIZE → Spawn.page_byte pg j = 0)
    ∧ Spawn.page_byte pg 0 = 33
    ∧ Spawn.page_byte (SpawnSpec.data_page_expected m f 0x200c 0x2000) 0 = 5
    ∧ pg ≠ SpawnSpec.data_page_expected m f 0x200c 0x2000.
Proof.
  intros m f.
  destruct (load_data_segment m 0 0x1002 2 f SpawnExamples.unaligned_ph 0 [10%nat])
    as (m' & Hrun & Hutemp & _ & Hpages).
  - reflexivity.
  - discriminate.
  - split; [reflexivity|]. split; [by eexists|]. split; [reflexivity|].
    split; [discriminate|]. split; [by eexists|]. split; [by exists (seq 11 9)|].
    split; [apply NoDup_singleton|].
    intros p ->%list_elem_of_singleton.
    apply (bool_decide_unpack _). by vm_compute.
  - left. reflexivity.
  - discriminate.
  - destruct (Hpages O 10%nat eq_refl) as [Hpte Hphys].
    set (pg := SpawnDataSpec.data_page m f 0x2004 0x200c 0x2000).
    assert (Hbyte : ∀ j, 0 <= j < PGSIZE →
              Spawn.page_byte pg j
              = if (j <? 4092) && negb (12 <=? j)
                then Spawn.file_byte m f (0x2004 + j) mod 256 else 0).
    { intros j Hj. unfold pg. rewrite data_page_byte by (unfold PGSIZE in *; lia).
      replace (Spawn.read_count (Spawn.f_size f) 0x2004 PGSIZE) with 4092 by reflexivity.
      replace (ROUNDDOWN 0x200c PGSIZE) with 0x2000 by reflexivity.
      replace (0x200c - 0x2000) with 12 by reflexivity.
      rewrite Z.eqb_refl. change (0x2000 <? 0x200c) with true. cbn [andb].
      reflexivity. }
    assert (H0 : Spawn.page_byte pg 0 = 33).
    { rewrite Hbyte by (unfold PGSIZE; lia). reflexivity. }
    assert (H5 : Spawn.page_byte (SpawnSpec.data_page_expected m f 0x200c 0x2000) 0 = 5)
      by reflexivity.
    exists m', pg. split; [exact Hrun|]. split; [exact Hpte|].
    split; [by apply Hutemp|]. split; [exact Hphys|].
    split.
    { intros j Hj. rewrite Hbyte by (unfold PGSIZE; lia).
      assert (Hc : j = 0 ∨ j = 1 ∨ j = 2 ∨ j = 3 ∨ j = 4 ∨ j = 5 ∨ j = 6 ∨ j = 7
                   ∨ j = 8 ∨ j = 9 ∨ j = 10 ∨ j = 11) by lia.
      repeat (destruct Hc as [-> | Hc]; [reflexivity|]). by subst. }
    split.
    { intros j Hj. rewrite Hbyte by lia.
      destruct (Z.leb_spec 12 j); [|lia]. cbn [negb]. by rewrite andb_false_r. }
    split; [exact H0|]. split; [exact H5|].
    intros Heq. rewrite Heq, H5 in H0. discriminate H0.
Qed.

(** Arguments that do not fit, and are not so long that the pointer
    arithmetic wraps around: [init_stack] returns [-E_NO_MEM] and issues no
    system call. *)
Lemma init_stack_no_mem (m : Spawn.Machine) (child : Z) (argv : list (list Z)) (esp0 : Z) :
  ¬ SpawnSpec.args_fit argv →
  SpawnSpec.strings_size argv + 4 * Z.of_nat (length argv) + 15 <= UTEMP + PGSIZE →
  Spawn.init_stack child argv esp0 m = (Ok (- E_NO_MEM, esp0), m).
Proof.
  intros Hfit Hsmall. unfold SpawnSpec.args_fit, SpawnSpec.esp_off,
    SpawnSpec.argv_off, SpawnSpec.str_off in Hfit.
  pose proof (strings_size_nonneg argv) as Hnn.
  assert (HP : PGSIZE = 4096) by reflexivity.
  assert (HU : UTEMP = 4194304) by reflexivity.
  unfold Spawn.init_stack. cbv zeta.
  rewrite string_size_exact by lia.
  rewrite (u32_small (UTEMP + PGSIZE - _)) by lia.
  rewrite ROUNDDOWN_spec by lia.
  rewrite (u32_small (UTEMP + PGSIZE - _)) by lia.
  pose proof (Z.mod_pos_bound (UTEMP + PGSIZE - SpawnSpec.strings_size argv) 4).
  assert (Hmod : (UTEMP + PGSIZE - SpawnSpec.strings_size argv) mod 4
                 = (PGSIZE - SpawnSpec.strings_size argv) mod 4).
  { rewrite HU.
    replace (4194304 + PGSIZE - SpawnSpec.strings_size argv)
      with (PGSIZE - SpawnSpec.strings_size argv + 1048576 * 4) by lia.
    by rewrite Z.mod_add. }
  rewrite (u32_small (_ - 4 * _)) by lia.
  rewrite u32_small by lia.
  destruct (Z.ltb_spec (UTEMP + PGSIZE - SpawnSpec.strings_size argv
                        - (UTEMP + PGSIZE - SpawnSpec.strings_size argv) mod 4
                        - 4 * (Z.of_nat (length argv) + 1) - 8) UTEMP); [done|].
  lia.
Qed.

(** When mapping the page into the child fails, or unmapping it from the
    parent fails, [init_stack] unmaps the page from the parent and returns
    the error. *)
Lemma init_stack_cleanup_examples :
  let m1 := SpawnExamples.with_inject [None; Some (- E_NO_MEM)] SpawnExamples.forked in
  let m2 := SpawnExamples.with_inject [None; None; Some (- E_INVAL)] SpawnExamples.forked in
  let r1 := Spawn.init_stack 0x1002 SpawnExamples.prog_hello 0 m1 in
  let r2 := Spawn.init_stack 0x1002 SpawnExamples.prog_hello 0 m2 in
  r1.1 = Ok (- E_NO_MEM, 0xeebfdfe0)
  ∧ Spawn.trace r1.2
    = [Spawn.SYS_exofork; Spawn.SYS_page_alloc 0 UTEMP 7;
       Spawn.SYS_page_map 0 UTEMP 0x1002 (USTACKTOP - PGSIZE) 7;
       Spawn.SYS_page_unmap 0 UTEMP]
  ∧ Spawn.translate r1.2 UTEMP = None
  ∧ r2.1 = Ok (- E_INVAL, 0xeebfdfe0)
  ∧ Spawn.trace r2.2
    = [Spawn.SYS_exofork; Spawn.SYS_page_alloc 0 UTEMP 7;
       Spawn.SYS_page_map 0 UTEMP 0x1002 (USTACKTOP - PGSIZE) 7;
       Spawn.SYS_page_unmap 0 UTEMP; Spawn.SYS_page_unmap 0 UTEMP]
  ∧ Spawn.translate r2.2 UTEMP = None.
Proof. by vm_compute. Qed.

Section SpawnWrap.
Import Spawn SpawnSpec.

(** One argument of [0x401000] bytes: the subtraction that places the
    strings wraps around, the test on [argv_store - 2] passes, the page is
    allocated, and the first store through [argv_store] faults. *)
Lemma init_stack_wraps m child s esp0 p rest :
  length s = Z.to_nat 0x401000 →
  inject m = [] → is_Some (envs m !! curenv m) →
  page_free_list m = p :: rest →
  translate m 0xFFFFFFF4 = None →
  init_stack child [s] esp0 m
  = (Faulted 0xFFFFFFF4, scratch_allocated m stack_perm p rest).
Proof.
  intros Hlen Hinj Hcur Hfree Hhigh.
  assert (Hsize : strings_size [s] = 0x401001).
  { cbn [strings_size foldr]. unfold strlen. rewrite Hlen, Z2Nat.id by done. done. }
  unfold init_stack. cbv zeta.
  rewrite string_size_exact by (by rewrite Hsize).
  rewrite Hsize. cbn [length].
  change (u32 (UTEMP + PGSIZE - 0x401001)) with 0xFFFFFFFF.
  change (u32 (ROUNDDOWN 0xFFFFFFFF 4 - 4 * (Z.of_nat 1 + 1))) with 0xFFFFFFF4.
  change (u32 (0xFFFFFFF4 - 8) <? UTEMP) with false. cbn iota.
  erewrite bind_ok
    by (apply (sys_page_alloc_plain m 0 (curenv m) UTEMP stack_perm p rest); done).
  fold (scratch_allocated m stack_perm p rest).
  change (0 <? 0) with false. cbn iota.
  cbn [init_stack_args].
  change (u32 (0xFFFFFFF4 + 4 * 0)) with 0xFFFFFFF4.
  assert (Hhigh' : translate (scratch_allocated m stack_perm p rest) 0xFFFFFFF4 = None).
  { rewrite translate_env_pte in Hhigh |- *.
    unfold scratch_allocated. rewrite env_pte_set_pgdir. machine_simpl.
    rewrite decide_True by done.
    destruct Hcur as [cur Hcur]. unfold env_pte in Hhigh |- *. machine_simpl.
    rewrite Hcur in Hhigh |- *. simpl in Hhigh |- *.
    rewrite lookup_insert_ne by discriminate. done. }
  unfold bind at 1. unfold store32. unfold bind at 1. unfold bind at 1.
  unfold store8 at 1. rewrite Hhigh'. done.
Qed.
End SpawnWrap.

(** C7 (as the code has it): one argument of [0x401000] bytes does not
    fit in a page, yet [init_stack] does not return [-E_NO_MEM]: the
    pointer arithmetic wraps around ([string_store] is [0xFFFFFFFF],
    [argv_store - 2] is [0xFFFFFFEC], which is not below [UTEMP]), the
    page is allocated and mapped at [UTEMP], and the first store through
    [argv_store], at [0xFFFFFFF4], faults. *)
Theorem C7_init_stack_wraps :
  ¬ SpawnSpec.args_fit SpawnExamples.huge_argv
  ∧ Spawn.init_stack 0x1002 SpawnExamples.huge_argv 0 SpawnExamples.forked
    = (Faulted 0xFFFFFFF4,
       scratch_allocated SpawnExamples.forked Spawn.stack_perm 10 (seq 11 9))
  ∧ SpawnSpec.env_pte (scratch_allocated SpawnExamples.forked Spawn.stack_perm 10 (seq 11 9))
      1 UTEMP = Some (10%nat, Spawn.stack_perm).
Proof.
  split; [|split].
  - unfold SpawnSpec.args_fit, SpawnSpec.esp_off, SpawnSpec.argv_off, SpawnSpec.str_off.
    unfold SpawnExamples.huge_argv. cbn [SpawnSpec.strings_size foldr length].
    unfold Spawn.strlen. rewrite length_replicate, Z2Nat.id by done.
    intros H. by apply H.
  - apply init_stack_wraps.
    + apply length_replicate.
    + reflexivity.
    + by eexists.
    + reflexivity.
    + reflexivity.
  - reflexivity.
Qed.

(** ** kern/monitor.c: the page commands *)

Section MonitorPages.
Import Monitor MonitorSpec.

Variable strtol : string → Z.

Lemma pa2page_ok m pa pg :
  pages m !! Z.to_nat (PPN pa) = Some pg →
  pa2page pa m = (Ok (Z.to_nat (PPN pa)), m).
Proof.
  intros Hpg. unfold pa2page.
  pose proof (lookup_lt_Some _ _ _ Hpg).
  destruct (Z.leb_spec (Z.of_nat (length (pages m))) (PPN pa)); [lia | done].
Qed.

Lemma read_ref_ok m pp pg :
  pages m !! pp = Some pg → read_ref pp m = (Ok (pp_ref pg), m).
Proof. intros Hpg. unfold read_ref, get. by rewrite Hpg. Qed.

Lemma PPN_nonneg pa : 0 <= PPN pa.
Proof. unfold PPN. apply Z.shiftr_nonneg. apply u32_range. Qed.
End MonitorPages.

(** C10: [free_page PHYSIC_ADDR] on an existing page: when the page's
    reference count is 1, [page_decref] is called, the count becomes 0,
    the page goes to the free list and "Free successfully!" is printed;
    with any other count "Free failed!" is printed and the [pages] array
    and the free list stay as they are. The command returns 0 in both
    cases. *)
Theorem C10_mon_free_page
        (strtol : string → Z) (m : Monitor.MonState) (fuel : nat)
        (argv : list string) (tf : Z) (pg : Monitor.Page) :
  let pp := Z.to_nat (Monitor.PPN (strtol (Monitor.arg argv 1))) in
  Monitor.pages m !! pp = Some pg →
  (Monitor.pp_ref pg = 1 →
     Monitor.mon_free_page strtol fuel 2 argv tf m
     = (Ok 0,
        MonitorSpec.printed "    %CFree successfully!\n%C"
          [Monitor.Col Monitor.COLOR_GRN; Monitor.Col Monitor.COLOR_CYN]
          (Monitor.page_decref pp m).2)
     ∧ Monitor.pages (Monitor.page_decref pp m).2 = <[pp := Monitor.mkPage 0]> (Monitor.pages m)
     ∧ Monitor.page_free_list (Monitor.page_decref pp m).2 = pp :: Monitor.page_free_list m)
  ∧ (Monitor.pp_ref pg ≠ 1 →
       Monitor.mon_free_page strtol fuel 2 argv tf m
       = (Ok 0,
          MonitorSpec.printed "    %CFree failed!\n%C"
            [Monitor.Col Monitor.COLOR_RED; Monitor.Col Monitor.COLOR_CYN] m)).
Proof.
  intros pp Hpg.
  assert (Hstep :
    Monitor.mon_free_page strtol fuel 2 argv tf m
    = (run (if Monitor.pp_ref pg =? 1 then
              run Monitor.page_decref pp;
              Monitor.cprintf "    %CFree successfully!\n%C"
                [Monitor.Col Monitor.COLOR_GRN; Monitor.Col Monitor.COLOR_CYN]
            else Monitor.cprintf "    %CFree failed!\n%C"
                   [Monitor.Col Monitor.COLOR_RED; Monitor.Col Monitor.COLOR_CYN]);
       ret 0) m).
  { unfold Monitor.mon_free_page. change (2 =? 2) with true. cbn iota.
    unfold bind at 1. unfold bind at 3.
    erewrite (bind_ok (Monitor.pa2page _)) by (by eapply pa2page_ok).
    erewrite bind_ok by (by apply read_ref_ok). done. }
  rewrite Hstep. split.
  - intros Href. rewrite Href. change (1 =? 1) with true. cbn iota.
    assert (Hdec : Monitor.page_decref pp m
                   = (Ok tt, Monitor.set_page_free_list (cons pp)
                               (Monitor.set_pages (<[pp := Monitor.mkPage 0]>) m))).
    { unfold Monitor.page_decref.
      erewrite bind_ok by (by apply read_ref_ok). rewrite Href.
      unfold bind at 1. unfold Monitor.write_ref at 1.
      erewrite bind_ok.
      2:{ apply read_ref_ok. cbn [Monitor.pages Monitor.set_pages].
          apply list_lookup_insert_eq. by eapply lookup_lt_Some. }
      done. }
    unfold bind. rewrite Hdec. split; [done|]. split; done.
  - intros Href. apply Z.eqb_neq in Href. rewrite Href. done.
Qed.

Lemma C10_mon_free_page_witness :
  Monitor.mon_free_page MonitorExamples.strtol O 2 ["free_page"; "4096"]%string 0
                        MonitorExamples.kernel
  = (Ok 0,
     MonitorSpec.printed "    %CFree successfully!\n%C"
       [Monitor.Col Monitor.COLOR_GRN; Monitor.Col Monitor.COLOR_CYN]
       (Monitor.page_decref 1%nat MonitorExamples.kernel).2)
  ∧ Monitor.mon_free_page MonitorExamples.strtol O 2 ["free_page"; "8192"]%string 0
                          MonitorExamples.kernel
    = (Ok 0,
       MonitorSpec.printed "    %CFree failed!\n%C"
         [Monitor.Col Monitor.COLOR_RED; Monitor.Col Monitor.COLOR_CYN]
         MonitorExamples.kernel).
Proof.
  split.
  - apply (C10_mon_free_page MonitorExamples.strtol MonitorExamples.kernel O
             ["free_page"; "4096"]%string 0 (Monitor.mkPage 1)); reflexivity.
  - apply (C10_mon_free_page MonitorExamples.strtol MonitorExamples.kernel O
             ["free_page"; "8192"]%string 0 (Monitor.mkPage 2)); [reflexivity|].
    simpl. lia.
Defined.

(** ** kern/monitor.c: the command line *)

Section MonitorParse.
Import Monitor MonitorSpec.

Lemma is_ws_NUL : is_ws NUL = false.
Proof. done. Qed.

Lemma is_space_ws c : c ≠ NUL → is_space c = is_ws c.
Proof.
  intros Hc. unfold is_space, is_ws.
  destruct (Ascii.eqb_spec c NUL); [done|done].
Qed.

Lemma is_word_ws c : c ≠ NUL → is_word c = negb (is_ws c).
Proof.
  intros Hc. unfold is_word, is_ws.
  destruct (Ascii.eqb_spec c NUL); [done|done].
Qed.

(** The first inner loop overwrites the white space in front of the
    next token. *)
Lemma gobble_spec rest :
  ∀ pre, NUL ∉ rest →
    ∃ k rest1,
      gobble pre rest = (pre ++ replicate k NUL, rest1)
      ∧ blank rest = replicate k NUL ++ blank rest1
      ∧ tokens_from [] rest = tokens_from [] rest1
      ∧ (length rest1 <= length rest)%nat
      ∧ (NUL ∉ rest1)
      ∧ (match rest1 with [] => True | c :: _ => is_ws c = false end).
Proof.
  induction rest as [|c rest IH]; intros pre Hnul.
  - exists O, []. simpl. by rewrite app_nil_r.
  - apply not_elem_of_cons in Hnul as [Hc Hnul].
    cbn [gobble]. rewrite is_space_ws by done.
    destruct (is_ws c) eqn:Hws.
    + destruct (IH (pre ++ [NUL]) Hnul) as (k & rest1 & Hg & Hb & Ht & Hl & Hn & Hh).
      exists (S k), rest1. rewrite Hg. repeat split; try done.
      * by rewrite <- app_assoc.
      * unfold blank in *. rewrite fmap_cons, Hws, Hb. done.
      * cbn [tokens_from]. by rewrite Hws.
      * simpl. lia.
    + exists O, (c :: rest). simpl. rewrite app_nil_r. repeat split; try done.
      apply not_elem_of_cons. done.
Qed.

(** The second inner loop scans past the token. *)
Lemma scan_spec rest :
  ∀ pre, NUL ∉ rest →
    ∃ w rest2,
      scan pre rest = (pre ++ w, rest2)
      ∧ rest = w ++ rest2
      ∧ (NUL ∉ w)
      ∧ Forall (fun c => is_ws c = false) w
      ∧ (NUL ∉ rest2)
      ∧ (match rest2 with [] => True | c :: _ => is_ws c = true end)
      ∧ blank rest = w ++ blank rest2.
Proof.
  induction rest as [|c rest IH]; intros pre Hnul.
  - exists [], []. simpl. rewrite app_nil_r. repeat split; try done; apply not_elem_of_nil.
  - apply not_elem_of_cons in Hnul as [Hc Hnul].
    cbn [scan]. rewrite is_word_ws by done.
    destruct (is_ws c) eqn:Hws; cbn [negb].
    + exists [], (c :: rest). rewrite app_nil_r. repeat split; try done.
      * apply not_elem_of_nil.
      * apply not_elem_of_cons. done.
    + destruct (IH (pre ++ [c]) Hnul) as (w & rest2 & Hg & Hr & Hn & Hf & Hn2 & Hh & Hb).
      exists (c :: w), rest2. rewrite Hg. repeat split; try done.
      * by rewrite <- app_assoc.
      * simpl. by rewrite Hr.
      * apply not_elem_of_cons. done.
      * by constructor.
      * unfold blank in *. rewrite fmap_cons, Hws, Hb. done.
Qed.

Lemma tokens_from_word w :
  ∀ cur rest, Forall (fun c => is_ws c = false) w →
    tokens_from cur (w ++ rest) = tokens_from (cur ++ w) rest.
Proof.
  induction w as [|c w IH]; intros cur rest Hw.
  - by rewrite app_nil_r.
  - inversion Hw as [|? ? Hc Hw']; subst. cbn [app tokens_from]. rewrite Hc.
    rewrite IH by done. by rewrite <- app_assoc.
Qed.

Lemma tokens_from_end cur rest :
  cur ≠ [] →
  match rest with [] => True | c :: _ => is_ws c = true end →
  tokens_from cur rest = cur :: tokens_from [] rest.
Proof.
  intros Hcur Hrest. destruct rest as [|c rest]; cbn [tokens_from].
  - by destruct cur.
  - rewrite Hrest. by destruct cur.
Qed.

(** The C string at the start of a token that is followed by the end of
    the buffer or by a terminator. *)
Lemma cstr_word w l :
  NUL ∉ w →
  match l with [] => True | c :: _ => c = NUL end →
  cstr (w ++ l) = string_of_list_ascii w.
Proof.
  intros Hw Hl. induction w as [|c w IH]; simpl.
  - destruct l as [|c l]; [done|]. subst c. done.
  - apply not_elem_of_cons in Hw as [Hc Hw].
    destruct (Ascii.eqb_spec c NUL); [congruence|]. by rewrite IH.
Qed.

Lemma blank_head rest :
  match rest with [] => True | c :: _ => is_ws c = true end →
  match blank rest with [] => True | c :: _ => c = NUL end.
Proof. destruct rest as [|c rest]; simpl; [done|]. by intros ->. Qed.

(** The parsing loop of [runcmd] on a line without terminator inside:
    with at most 15 tokens in all, it stores the offsets of the tokens
    and leaves the buffer with its white space overwritten, so that the
    strings at the offsets are the tokens; with more, it gives up. *)
Lemma parse_spec fuel :
  ∀ argv pre rest,
    NUL ∉ rest → (length rest < fuel)%nat → (length argv <= 15)%nat →
    ((length argv + length (tokens_from [] rest) <= 15)%nat →
       ∃ offs,
         parse fuel argv pre rest = Some (Args (argv ++ offs) (pre ++ blank rest))
         ∧ cstr_at (pre ++ blank rest) <$> offs
           = string_of_list_ascii <$> tokens_from [] rest)
    ∧ ((15 < length argv + length (tokens_from [] rest))%nat →
         parse fuel argv pre rest = Some TooMany).
Proof.
  induction fuel as [|fuel IH]; intros argv pre rest Hnul Hfuel Hargv; [lia|].
  cbn [parse].
  destruct (gobble_spec rest pre Hnul) as (k & rest1 & Hg & Hb & Ht & Hl & Hn1 & Hh1).
  rewrite Hg, Ht, Hb.
  destruct rest1 as [|c rest1'].
  - cbn [peek tokens_from length]. change (Ascii.eqb NUL NUL) with true. cbn iota.
    split; [|lia]. intros _. exists []. rewrite !app_nil_r. done.
  - set (rest1 := c :: rest1') in *.
    assert (Hc : c ≠ NUL) by (apply not_elem_of_cons in Hn1 as [? _]; done).
    cbn [peek rest1]. destruct (Ascii.eqb_spec c NUL) as [|_]; [done|].
    destruct (scan_spec rest1 (pre ++ replicate k NUL) Hn1)
      as (w & rest2 & Hs & Hr & Hnw & Hfw & Hn2 & Hh2 & Hb2).
    assert (Hw : w ≠ []).
    { intros ->. simpl in Hr. subst rest2. unfold rest1 in Hh2. congruence. }
    assert (Htok : tokens_from [] rest1 = w :: tokens_from [] rest2).
    { rewrite Hr, tokens_from_word by done. by apply tokens_from_end. }
    rewrite Htok. cbn [length].
    assert (Hlen2 : (length rest2 < length rest1)%nat).
    { rewrite Hr, length_app. destruct w; [done|]. simpl. lia. }
    destruct (Z.eqb_spec (Z.of_nat (length argv)) (MAXARGS - 1)) as [Hfull|Hroom].
    + unfold MAXARGS in Hfull. split; [lia | done].
    + unfold MAXARGS in Hroom. rewrite Hs.
      destruct (IH (argv ++ [length (pre ++ replicate k NUL)]) ((pre ++ replicate k NUL) ++ w)
                  rest2 Hn2) as [IH1 IH2];
        [lia | rewrite length_app; simpl; lia |].
      rewrite length_app in IH1, IH2. cbn [length] in IH1, IH2.
      assert (Hbuf : ((pre ++ replicate k NUL) ++ w) ++ blank rest2
                     = pre ++ replicate k NUL ++ blank rest1).
      { rewrite Hb2, <- !app_assoc. done. }
      split.
      * intros Hle. destruct IH1 as (offs & Hp & Hstr); [lia|].
        exists (length (pre ++ replicate k NUL) :: offs).
        rewrite Hp, Hbuf, <- app_assoc. split; [done|].
        rewrite fmap_cons, fmap_cons. rewrite <- Hbuf at 2. rewrite Hstr. f_equal.
        unfold cstr_at. rewrite app_assoc, Hb2, app_assoc.
        rewrite <- (app_assoc _ w), drop_app_length.
        apply cstr_word; [done|]. by apply blank_head.
      * intros Hgt. apply IH2. lia.
Qed.
End MonitorParse.

(** ** kern/monitor.c: [runcmd] *)

Section MonitorRuncmd.
Import Monitor MonitorSpec.

Variable strtol : string → Z.

(** The loop over the table finds the first entry with the name of the
    first token. *)
Lemma lookup_find cmds fuel argc cmd args tf :
  lookup cmds fuel argc (cmd :: args) tf
  = match find (fun c => String.eqb cmd (name c)) cmds with
    | Some c => func c fuel argc (cmd :: args) tf
    | None =>
        run cprintf "%CUnknown command '%s'\n%C" [Col COLOR_RED; Str cmd; Col COLOR_CYN];
        ret 0
    end.
Proof.
  induction cmds as [|c cmds IH]; [done|].
  cbn [lookup find arg nth]. by destruct (String.eqb cmd (name c)).
Qed.

Lemma runcmd_dispatch fuel line tf :
  NUL ∉ line → (length (tokenize line) <= 15)%nat →
  runcmd strtol fuel line tf = dispatch strtol fuel (tokenize line) tf.
Proof.
  intros Hnul Hlen. unfold runcmd, tokenize in *. rewrite length_fmap in Hlen.
  destruct (parse_spec (S (length line)) [] [] line Hnul) as [Hp _]; [lia | simpl; lia |].
  destruct Hp as (offs & Hp & Hstr); [simpl; lia|].
  rewrite Hp. cbn [app] in *. rewrite Hstr.
  assert (Hl : length offs = length (tokens_from [] line)).
  { apply (f_equal length) in Hstr. by rewrite !length_fmap in Hstr. }
  rewrite Hl.
  destruct (tokens_from [] line) as [|w toks]; [done|].
  rewrite fmap_cons. cbn [length].
  destruct (Z.eqb_spec (Z.of_nat (S (length toks))) 0); [lia|].
  rewrite lookup_find. unfold dispatch. cbn [length]. by rewrite length_fmap.
Qed.

Lemma runcmd_too_many fuel line tf m :
  NUL ∉ line → (15 < length (tokenize line))%nat →
  runcmd strtol fuel line tf m
  = (Ok 0, printed "%CToo many arguments (max %d)\n%C"
             [Col COLOR_RED; Int MAXARGS; Col COLOR_CYN] m).
Proof.
  intros Hnul Hlen. unfold runcmd, tokenize in *. rewrite length_fmap in Hlen.
  destruct (parse_spec (S (length line)) [] [] line Hnul) as [_ Hp]; [lia | simpl; lia |].
  rewrite Hp by (simpl; lia). done.
Qed.

(** A command that wants arguments prints its usage line, and returns 0,
    when the number of arguments is not the one it wants. *)
Lemma usage_showmappings fuel argc argv tf m :
  argc ≠ 3 →
  mon_showmappings strtol fuel argc argv tf m
  = (Ok 0, printed "%CUsage: showmappings LOWER_VIRTUAL_ADDR HIGHER_VIRTUAL_ADDR\n%C"
             [Col COLOR_GRN; Col COLOR_CYN] m).
Proof. intros H. unfold mon_showmappings. apply Z.eqb_neq in H. by rewrite H. Qed.

Lemma usage_free_page fuel argc argv tf m :
  argc ≠ 2 →
  mon_free_page strtol fuel argc argv tf m
  = (Ok 0, printed "%CUsage: free_page PHYSIC_ADDR\n%C" [Col COLOR_GRN; Col COLOR_CYN] m).
Proof. intros H. unfold mon_free_page. apply Z.eqb_neq in H. by rewrite H. Qed.

Lemma usage_page_status fuel argc argv tf m :
  argc ≠ 2 →
  mon_page_status strtol fuel argc argv tf m
  = (Ok 0, printed "%CUsage: page_status PHYSIC_ADDR\n%C" [Col COLOR_GRN; Col COLOR_CYN] m).
Proof. intros H. unfold mon_page_status. apply Z.eqb_neq in H. by rewrite H. Qed.
End MonitorRuncmd.

(** C9 as it is stated fails on a line of sixteen tokens: the handler of
    its first token, [help], is not called; "Too many arguments" is
    printed instead. *)
Lemma C9_runcmd_too_many_counterexample :
  Monitor.runcmd MonitorExamples.strtol 1%nat MonitorExamples.sixteen 0 MonitorExamples.kernel
  ≠ MonitorSpec.dispatch MonitorExamples.strtol 1%nat
      (MonitorSpec.tokenize MonitorExamples.sixteen) 0 MonitorExamples.kernel.
Proof.
  intros H.
  apply (f_equal (fun r => length (Monitor.console r.2))) in H.
  vm_compute in H. discriminate.
Qed.

(** C9 (amended): a line of at most 15 tokens is split on white space
    into its argument vector; nothing is done for an empty vector;
    otherwise the first entry of the command table whose name equals the
    first token is called with the number of tokens and the whole vector,
    and "Unknown command" is printed when there is none. A line of more
    than 15 tokens prints "Too many arguments" and returns 0. The
    commands [showmappings], [free_page] and [page_status] print their
    usage line and return 0 when the number of arguments is not the one
    they want. *)
Theorem C9_runcmd_dispatch
        (strtol : string → Z) (fuel : nat) (line : list ascii) (tf : Z)
        (m : Monitor.MonState) :
  Monitor.NUL ∉ line →
  ((length (MonitorSpec.tokenize line) <= 15)%nat →
     Monitor.runcmd strtol fuel line tf m
     = MonitorSpec.dispatch strtol fuel (MonitorSpec.tokenize line) tf m)
  ∧ ((15 < length (MonitorSpec.tokenize line))%nat →
       Monitor.runcmd strtol fuel line tf m
       = (Ok 0, MonitorSpec.printed "%CToo many arguments (max %d)\n%C"
                  [Monitor.Col Monitor.COLOR_RED; Monitor.Int 16;
                   Monitor.Col Monitor.COLOR_CYN] m))
  ∧ (∀ argc argv,
       (argc ≠ 3 →
          Monitor.mon_showmappings strtol fuel argc argv tf m
          = (Ok 0, MonitorSpec.printed
                     "%CUsage: showmappings LOWER_VIRTUAL_ADDR HIGHER_VIRTUAL_ADDR\n%C"
                     [Monitor.Col Monitor.COLOR_GRN; Monitor.Col Monitor.COLOR_CYN] m))
       ∧ (argc ≠ 2 →
            Monitor.mon_free_page strtol fuel argc argv tf m
            = (Ok 0, MonitorSpec.printed "%CUsage: free_page PHYSIC_ADDR\n%C"
                       [Monitor.Col Monitor.COLOR_GRN; Monitor.Col Monitor.COLOR_CYN] m))
       ∧ (argc ≠ 2 →
            Monitor.mon_page_status strtol fuel argc argv tf m
            = (Ok 0, MonitorSpec.printed "%CUsage: page_status PHYSIC_ADDR\n%C"
                       [Monitor.Col Monitor.COLOR_GRN; Monitor.Col Monitor.COLOR_CYN] m))).
Proof.
  intros Hnul. split; [|split].
  - intros Hlen. by rewrite runcmd_dispatch.
  - intros Hlen. by apply runcmd_too_many.
  - intros argc argv. split; [|split]; intros Hargc.
    + by apply usage_showmappings.
    + by apply usage_free_page.
    + by apply usage_page_status.
Qed.

Lemma C9_runcmd_dispatch_witness :
  Monitor.runcmd MonitorExamples.strtol 1%nat (MonitorExamples.line "  free_page   4096 ") 0
                 MonitorExamples.kernel
  = Monitor.mon_free_page MonitorExamples.strtol 1%nat 2 ["free_page"; "4096"]%string 0
                          MonitorExamples.kernel.
Proof.
  destruct (C9_runcmd_dispatch MonitorExamples.strtol 1%nat
              (MonitorExamples.line "  free_page   4096 ") 0 MonitorExamples.kernel)
    as [H _].
  - apply (bool_decide_unpack (Monitor.NUL ∉ MonitorExamples.line "  free_page   4096 ")).
    vm_compute. exact I.
  - rewrite H by (vm_compute; lia). reflexivity.
Defined.

(** * Further properties *)

(** ** lib/ipc.c: delivery *)

Section IpcDelivery.
Import Ipc.

Variable k : Kernel.

(** The store of [v] through an out-parameter, when it is not null. *)
Definition store_out (p v : Z) (m : gmap Z Z) : gmap Z Z :=
  if p =? NULL then m else <[p := v]> m.

(** The calls after [c] when the lab 4 revision fetches a value for the
    out-parameter [p]. *)
Definition lab4_fetch (p : Z) (c : list syscall) : list syscall :=
  if p =? NULL then c else c ++ [SYS_getenvid].

(** The footprint of [ipc_send]: user memory and [env] are as before, and
    the calls issued are attempts with the arguments of the call, with the
    page slot resolved, and yields. *)
Definition send_footprint (to_env val pg perm : Z) (st st' : UState) : Prop :=
  mem st' = mem st ∧ env st' = env st
  ∧ ∃ more, calls st' = calls st ++ more
            ∧ Forall (fun c => c = attempt to_env val pg perm ∨ c = SYS_yield) more.

Lemma send_footprint_refl to_env val pg perm st : send_footprint to_env val pg perm st st.
Proof. repeat split. exists []. by rewrite app_nil_r. Qed.

Lemma lab5_send_footprint fuel to_env val pg perm :
  ∀ st, send_footprint to_env val pg perm st
          (Lab5.ipc_send k fuel to_env val pg perm st).2.
Proof.
  induction fuel as [|fuel IH]; intros st; [apply send_footprint_refl|].
  cbn [Lab5.ipc_send]. unfold bind at 1. unfold sys_ipc_try_send, syscall_.
  replace (if negb (pg =? NULL) then pg else UTOP) with (resolved_slot pg)
    by (unfold resolved_slot; by destruct (pg =? NULL)).
  fold (attempt to_env val pg perm).
  set (r := k_ret k (calls st) (attempt to_env val pg perm)).
  set (st1 := {| calls := calls st ++ [attempt to_env val pg perm];
                 mem := mem st; env := env st |}).
  assert (H1 : send_footprint to_env val pg perm st st1).
  { repeat split. exists [attempt to_env val pg perm]. split; [done|].
    constructor; [by left | constructor]. }
  destruct (r <? 0); [|exact H1].
  destruct (r =? - E_IPC_NOT_RECV); cbn [negb when].
  - unfold bind at 1. unfold ret at 1. unfold bind at 1.
    unfold sys_yield, bind, syscall_, ret. cbn [calls mem env].
    set (st2 := {| calls := _; mem := _; env := _ |}).
    destruct (IH st2) as (Hm & He & more & Hc & Hall).
    split; [rewrite Hm; reflexivity|]. split; [rewrite He; reflexivity|].
    exists ([attempt to_env val pg perm; SYS_yield] ++ more). split.
    + rewrite Hc. unfold st2, st1. cbn [calls]. by rewrite <- !app_assoc.
    + apply Forall_app. split; [|done].
      constructor; [by left|]. constructor; [by right | constructor].
  - exact H1.
Qed.

Lemma lab4_send_footprint fuel to_env val pg perm :
  ∀ st, send_footprint to_env val pg perm st
          (Lab4.ipc_send k fuel to_env val pg perm st).2.
Proof.
  induction fuel as [|fuel IH]; intros st; [apply send_footprint_refl|].
  cbn [Lab4.ipc_send]. unfold bind at 1. unfold sys_ipc_try_send, syscall_.
  replace (if negb (pg =? NULL) then pg else UTOP) with (resolved_slot pg)
    by (unfold resolved_slot; by destruct (pg =? NULL)).
  fold (attempt to_env val pg perm).
  set (r := k_ret k (calls st) (attempt to_env val pg perm)).
  set (st1 := {| calls := calls st ++ [attempt to_env val pg perm];
                 mem := mem st; env := env st |}).
  assert (H1 : send_footprint to_env val pg perm st st1).
  { repeat split. exists [attempt to_env val pg perm]. split; [done|].
    constructor; [by left | constructor]. }
  destruct (r <? 0); [|exact H1].
  destruct (r =? - E_IPC_NOT_RECV); cbn [negb when].
  - unfold bind at 1. unfold ret at 1. unfold bind at 1.
    unfold sys_yield, bind, syscall_, ret. cbn [calls mem env].
    set (st2 := {| calls := _; mem := _; env := _ |}).
    destruct (IH st2) as (Hm & He & more & Hc & Hall).
    split; [rewrite Hm; reflexivity|]. split; [rewrite He; reflexivity|].
    exists ([attempt to_env val pg perm; SYS_yield] ++ more). split.
    + rewrite Hc. unfold st2, st1. cbn [calls]. by rewrite <- !app_assoc.
    + apply Forall_app. split; [|done].
      constructor; [by left|]. constructor; [by right | constructor].
  - exact H1.
Qed.
End IpcDelivery.

(** X1: the later revision of [ipc_recv] issues one system call in all,
    [sys_ipc_recv], and passes it the caller's page slot, or [UTOP] when
    the caller passes a null pointer; this holds whether the call succeeds
    or fails and whichever out-parameters are null. *)
Theorem X1_lab5_ipc_recv_slot
        (k : Ipc.Kernel) (st : Ipc.UState) (from_env_store pg perm_store : Z) :
  Ipc.calls (Ipc.Lab5.ipc_recv k from_env_store pg perm_store st).2
  = Ipc.calls st ++ [Ipc.SYS_ipc_recv (if pg =? NULL then UTOP else pg)].
Proof. apply lab5_ipc_recv_slot. Qed.

(** X2: when [sys_ipc_recv] succeeds, the later revision of [ipc_recv]
    returns the value of the message as [*env] holds it after the call,
    and stores the sender and the permission of [*env] through
    [from_env_store] and [perm_store] where these are not null (the
    permission last, so that it wins when both point to the same word);
    nothing else is stored and no further system call is made. *)
Theorem X2_lab5_ipc_recv_delivered
        (k : Ipc.Kernel) (st : Ipc.UState) (from_env_store pg perm_store : Z) :
  let recv := Ipc.SYS_ipc_recv (resolved_slot pg) in
  let e := Ipc.k_envs k (Ipc.calls st ++ [recv]) (Ipc.env st) in
  0 <= Ipc.k_ret k (Ipc.calls st) recv →
  Ipc.Lab5.ipc_recv k from_env_store pg perm_store st
  = (Ok (s32 (Ipc.env_ipc_value e)),
     {| Ipc.calls := Ipc.calls st ++ [recv];
        Ipc.mem := store_out perm_store (Ipc.env_ipc_perm e)
                     (store_out from_env_store (Ipc.env_ipc_from e) (Ipc.mem st));
        Ipc.env := Ipc.env st |}).
Proof.
  intros recv e Hok. unfold Ipc.Lab5.ipc_recv, recv, e, resolved_slot in *.
  unfold bind, Ipc.sys_ipc_recv, Ipc.syscall_, when, Ipc.store, ret, Ipc.read_env, store_out.
  destruct (pg =? NULL); simpl in *;
    (match goal with |- context [?x <? 0] => destruct (Z.ltb_spec x 0); [lia|] end);
    destruct (from_env_store =? NULL), (perm_store =? NULL); simpl; reflexivity.
Qed.

Lemma X2_lab5_ipc_recv_delivered_witness :
  Ipc.Lab5.ipc_recv IpcExamples.delivering_kernel 0x1000 NULL 0x1004 IpcExamples.start
  = (Ok 42,
     Ipc.mkUState [Ipc.SYS_ipc_recv UTOP] (<[0x1004 := 7]> (<[0x1000 := 0x1002]> ∅)) 1).
Proof.
  apply (X2_lab5_ipc_recv_delivered IpcExamples.delivering_kernel IpcExamples.start
           0x1000 NULL 0x1004).
  simpl. lia.
Defined.

(** X3: when [sys_ipc_recv] succeeds, the lab 4 revision of [ipc_recv]
    calls [sys_getenvid] once for each out-parameter that is not null and
    stores the sender, respectively the permission, of the entry of [envs]
    that the returned id selects; the value returned is read from [*env]
    after these calls. *)
Theorem X3_lab4_ipc_recv_delivered
        (k : Ipc.Kernel) (st : Ipc.UState) (from_env_store pg perm_store : Z) :
  let recv := Ipc.SYS_ipc_recv (lab4_slot pg) in
  let c1 := Ipc.calls st ++ [recv] in
  let c2 := lab4_fetch from_env_store c1 in
  let c3 := lab4_fetch perm_store c2 in
  let sender := Ipc.k_envs k c2 (ENVX (Ipc.k_ret k c1 Ipc.SYS_getenvid)) in
  let granted := Ipc.k_envs k c3 (ENVX (Ipc.k_ret k c2 Ipc.SYS_getenvid)) in
  0 <= Ipc.k_ret k (Ipc.calls st) recv →
  Ipc.Lab4.ipc_recv k from_env_store pg perm_store st
  = (Ok (s32 (Ipc.env_ipc_value (Ipc.k_envs k c3 (Ipc.env st)))),
     {| Ipc.calls := c3;
        Ipc.mem := store_out perm_store (Ipc.env_ipc_perm granted)
                     (store_out from_env_store (Ipc.env_ipc_from sender) (Ipc.mem st));
        Ipc.env := Ipc.env st |}).
Proof.
  intros recv c1 c2 c3 sender granted Hok.
  unfold Ipc.Lab4.ipc_recv, recv, c1, c2, c3, sender, granted, lab4_slot, lab4_fetch in *.
  unfold bind, Ipc.sys_ipc_recv, Ipc.sys_getenvid, Ipc.syscall_, when, Ipc.store, ret,
    Ipc.read_env, Ipc.read_envs, store_out.
  destruct (pg =? NULL); simpl in *;
    (match goal with |- context [?x <? 0] => destruct (Z.ltb_spec x 0); [lia|] end);
    destruct (from_env_store =? NULL), (perm_store =? NULL); simpl; reflexivity.
Qed.

Lemma X3_lab4_ipc_recv_delivered_witness :
  Ipc.Lab4.ipc_recv IpcExamples.delivering_kernel 0x1000 NULL NULL IpcExamples.start
  = (Ok 42,
     Ipc.mkUState [Ipc.SYS_ipc_recv NULL; Ipc.SYS_getenvid] (<[0x1000 := 0x1002]> ∅) 1).
Proof.
  apply (X3_lab4_ipc_recv_delivered IpcExamples.delivering_kernel IpcExamples.start
           0x1000 NULL NULL).
  simpl. lia.
Defined.

(** X4: whatever the kernel answers and however long it runs, [ipc_send]
    (either revision) stores nothing in user memory, and the only system
    calls it issues are [sys_ipc_try_send] with the arguments it was given
    (the page slot resolved) and [sys_yield]. *)
Theorem X4_ipc_send_footprint
        (k : Ipc.Kernel) (fuel : nat) (st : Ipc.UState) (to_env val pg perm : Z) :
  send_footprint to_env val pg perm st (Ipc.Lab4.ipc_send k fuel to_env val pg perm st).2
  ∧ send_footprint to_env val pg perm st (Ipc.Lab5.ipc_send k fuel to_env val pg perm st).2.
Proof. split; [apply lab4_send_footprint | apply lab5_send_footprint]. Qed.

(** ** lib/spawn.c: [init_stack] when the hand-over fails *)

Section SpawnInitStackFails.
Import Spawn SpawnSpec.

(** [init_stack] up to the point where the page is complete: for
    arguments that fit, the rest of the function runs on the machine with
    the scratch page allocated and filled, and [*init_esp] is settled. *)
Lemma init_stack_built m child argv esp0 p rest :
  args_fit argv → inject m = [] → is_Some (envs m !! curenv m) →
  page_free_list m = p :: rest →
  ∃ pg,
    length pg = Z.to_nat PGSIZE
    ∧ init_stack child argv esp0 m
      = (do r <- sys_page_map 0 UTEMP child (USTACKTOP - PGSIZE) stack_perm;
         if r <? 0 then (run sys_page_unmap 0 UTEMP; ret (r, child_addr (esp_off argv)))
         else
           do r <- sys_page_unmap 0 UTEMP;
           if r <? 0 then (run sys_page_unmap 0 UTEMP; ret (r, child_addr (esp_off argv)))
           else ret (0, child_addr (esp_off argv)))
          (set_phys (insert p pg) (scratch_allocated m stack_perm p rest)).
Proof.
  intros Hfit Hinj Hcur Hfree.
  destruct (layout_bounds argv Hfit) as (He & Hea & Has & Hstr & Hal).
  destruct (init_stack_locals argv Hfit) as [Hl1 Hl2].
  pose proof (strings_size_nonneg argv) as Hnn.
  assert (HP : PGSIZE = 4096) by reflexivity.
  set (m1 := scratch_allocated m stack_perm p rest).
  assert (Hs1 : scratch m1 p (replicate (Z.to_nat PGSIZE) 0))
    by (by apply scratch_allocated_scratch).
  unfold init_stack. cbv zeta. rewrite Hl1, Hl2.
  replace (u32 (UTEMP + argv_off argv - 8)) with (UTEMP + esp_off argv)
    by (rewrite <- Z.add_sub_assoc, u32_scratch; lia).
  destruct (Z.ltb_spec (UTEMP + esp_off argv) UTEMP) as [|_]; [lia|].
  erewrite bind_ok
    by (apply (sys_page_alloc_plain m 0 (curenv m) UTEMP stack_perm p rest); done).
  fold (scratch_allocated m stack_perm p rest). fold m1.
  change (0 <? 0) with false. cbn iota.
  destruct (init_stack_args_scratch p (argv_off argv) argv m1 _ (str_off argv) 0 Hs1)
    as (pg1 & Hrun & Hlen1 & _ & Hargs);
    [by rewrite length_replicate | lia | lia | lia | lia | lia |].
  rewrite length_replicate in Hlen1.
  erewrite bind_ok by exact Hrun.
  replace (u32 (UTEMP + argv_off argv + 4 * Z.of_nat (length argv)))
    with (UTEMP + (argv_off argv + 4 * Z.of_nat (length argv)))
    by (rewrite <- Z.add_assoc, u32_scratch; lia).
  erewrite bind_ok
    by (apply store32_scratch; [by eapply scratch_set_phys | lia | lia]).
  rewrite set_phys_twice.
  set (pg2 := write_bytes _ (word_bytes 0) pg1).
  replace (u32 (UTEMP + argv_off argv - 4)) with (UTEMP + (esp_off argv + 4))
    by (rewrite u32_small; unfold UTEMP, PTSIZE in *; lia).
  erewrite bind_ok
    by (apply store32_scratch; [by eapply scratch_set_phys | lia | lia]).
  rewrite set_phys_twice.
  set (pg3 := write_bytes _ (word_bytes (UTEMP2USTACK _)) pg2).
  erewrite bind_ok
    by (apply store32_scratch; [by eapply scratch_set_phys | lia | lia]).
  rewrite set_phys_twice.
  set (pg4 := write_bytes _ (word_bytes (Z.of_nat (length argv))) pg3).
  exists pg4. split.
  - unfold pg4, pg3, pg2. by rewrite !length_write_bytes.
  - rewrite UTEMP2USTACK_scratch by lia. done.
Qed.

Lemma sys_page_map_bad_env m srcenvid srcva dstenvid dstva perm :
  inject m = [] → envid2env m dstenvid = None →
  sys_page_map srcenvid srcva dstenvid dstva perm m
  = (Ok (- E_BAD_ENV), log (SYS_page_map srcenvid srcva dstenvid dstva perm) m).
Proof.
  intros Hinj Hde. unfold sys_page_map. rewrite syscall_plain by done.
  change (envid2env (log _ m) srcenvid) with (envid2env m srcenvid).
  change (envid2env (log _ m) dstenvid) with (envid2env m dstenvid).
  rewrite Hde. by destruct (envid2env m srcenvid).
Qed.
End SpawnInitStackFails.

(** X13: for arguments of which the strings, the pointer array and the
    two trailing words do not fit in a page, and that are not so long
    that the 32-bit arithmetic wraps around, [init_stack] returns
    [-E_NO_MEM] at once: no system call is made, no page is allocated or
    mapped, the machine is as before and [*init_esp] is not written. *)
Theorem X13_init_stack_no_mem
        (m : Spawn.Machine) (child : Z) (argv : list (list Z)) (esp0 : Z) :
  ¬ SpawnSpec.args_fit argv →
  SpawnSpec.strings_size argv + 4 * Z.of_nat (length argv) + 15 <= UTEMP + PGSIZE →
  Spawn.init_stack child argv esp0 m = (Ok (- E_NO_MEM, esp0), m).
Proof. apply init_stack_no_mem. Qed.

Lemma X13_init_stack_no_mem_witness :
  Spawn.init_stack 0x1002 (replicate 1000 []) 0 SpawnExamples.forked
  = (Ok (- E_NO_MEM, 0), SpawnExamples.forked).
Proof.
  apply (X13_init_stack_no_mem SpawnExamples.forked 0x1002 (replicate 1000 []) 0).
  - vm_compute. intros H. by apply H.
  - vm_compute. discriminate.
Defined.

(** X14: [init_stack] for a [child] that is not an environment the
    caller may change, with arguments that fit and a free page: the page
    is allocated and filled, [sys_page_map] fails with [-E_BAD_ENV], the
    page is unmapped from the parent and the error is returned. Three
    system calls are made; afterwards nothing is mapped at [UTEMP] and
    every other page-table entry of every environment is as before; the
    stack pointer has been written to [*init_esp] all the same. *)
Theorem X14_init_stack_bad_child
        (m : Spawn.Machine) (child : Z) (argv : list (list Z)) (esp0 : Z)
        (p : nat) (rest : list nat) :
  SpawnSpec.args_fit argv →
  Spawn.inject m = [] →
  is_Some (Spawn.envs m !! Spawn.curenv m) →
  Spawn.page_free_list m = p :: rest →
  Spawn.envid2env m child = None →
  ∃ m',
    Spawn.init_stack child argv esp0 m
    = (Ok (- E_BAD_ENV, SpawnSpec.child_addr (SpawnSpec.esp_off argv)), m')
    ∧ Spawn.translate m' UTEMP = None
    ∧ (∀ e va, e ≠ Spawn.curenv m ∨ va ≠ UTEMP →
               SpawnSpec.env_pte m' e va = SpawnSpec.env_pte m e va)
    ∧ Spawn.trace m'
      = Spawn.trace m
        ++ [Spawn.SYS_page_alloc 0 UTEMP Spawn.stack_perm;
            Spawn.SYS_page_map 0 UTEMP child (USTACKTOP - PGSIZE) Spawn.stack_perm;
            Spawn.SYS_page_unmap 0 UTEMP].
Proof.
  intros Hfit Hinj Hcur Hfree Hchild.
  destruct (init_stack_built m child argv esp0 p rest Hfit Hinj Hcur Hfree)
    as (pg & Hlen & Hrun).
  rewrite Hrun. clear Hrun.
  set (m1 := Spawn.set_phys (insert p pg) (scratch_allocated m Spawn.stack_perm p rest)).
  assert (Hmap : Spawn.sys_page_map 0 UTEMP child (USTACKTOP - PGSIZE) Spawn.stack_perm m1
                 = (Ok (- E_BAD_ENV),
                    Spawn.log (Spawn.SYS_page_map 0 UTEMP child (USTACKTOP - PGSIZE)
                                 Spawn.stack_perm) m1)).
  { apply sys_page_map_bad_env; [done|].
    change (Spawn.envid2env m1 child)
      with (Spawn.envid2env (scratch_allocated m Spawn.stack_perm p rest) child).
    by rewrite scratch_allocated_envid2env. }
  erewrite bind_ok by exact Hmap.
  change (- E_BAD_ENV <? 0) with true. cbn iota.
  set (m2 := Spawn.log _ m1).
  erewrite bind_ok by (by apply (sys_page_unmap_plain m2 0 (Spawn.curenv m) UTEMP)).
  eexists. split; [reflexivity|].
  destruct Hcur as [cur Hcur].
  assert (Hpte : ∀ e va,
            SpawnSpec.env_pte
              (Spawn.set_envs (alter (Spawn.set_pgdir (delete UTEMP)) (Spawn.curenv m))
                 (Spawn.log (Spawn.SYS_page_unmap 0 UTEMP) m2)) e va
            = if decide (e = Spawn.curenv m ∧ va = UTEMP) then None
              else SpawnSpec.env_pte m e va).
  { intros e va. rewrite env_pte_set_pgdir. machine_simpl.
    unfold m2, m1, scratch_allocated. machine_simpl.
    destruct (decide (Spawn.curenv m = e)) as [<-|Hne].
    - rewrite lookup_alter_eq, Hcur. simpl.
      destruct (decide (va = UTEMP)) as [->|Hva].
      + rewrite lookup_delete_eq. by rewrite decide_True.
      + rewrite lookup_delete_ne, lookup_insert_ne by done.
        rewrite decide_False by tauto. unfold SpawnSpec.env_pte. by rewrite Hcur.
    - rewrite decide_False by (intros [-> _]; done).
      unfold SpawnSpec.env_pte. machine_simpl. by rewrite lookup_alter_ne. }
  split; [|split].
  - rewrite translate_env_pte. change (ROUNDDOWN UTEMP PGSIZE) with UTEMP.
    rewrite Hpte. by rewrite decide_True.
  - intros e va Hne. rewrite Hpte. rewrite decide_False by tauto. done.
  - unfold m2, m1, scratch_allocated. machine_simpl. by rewrite <- !app_assoc.
Qed.

Lemma X14_init_stack_bad_child_witness :
  ∃ m',
    Spawn.init_stack 0x1003 SpawnExamples.prog_hello 0 SpawnExamples.forked
    = (Ok (- E_BAD_ENV, 0xeebfdfe0), m')
    ∧ Spawn.translate m' UTEMP = None.
Proof.
  destruct (X14_init_stack_bad_child SpawnExamples.forked 0x1003 SpawnExamples.prog_hello 0
              10%nat (seq 11 9))
    as (m' & Hrun & Hutemp & _).
  - unfold SpawnSpec.args_fit. vm_compute. discriminate.
  - reflexivity.
  - by eexists.
  - reflexivity.
  - reflexivity.
  - exists m'. split; assumption.
Defined.

(** ** lib/spawn.c: data and bss segments, what holds for every one *)

Section SpawnDataFacts.
Import Spawn SpawnSpec SpawnDataSpec.




End SpawnDataFacts.





(** ** lib/spawn.c: what [spawn] leaves alone *)

Section SpawnFrame.
Import Spawn SpawnSpec SpawnFrameSpec.






































End SpawnFrame.


(** ** lib/spawn.c: the first steps of [spawn] *)

Section SpawnFirstSteps.
Import Spawn SpawnSpec SpawnRunSpec.

(** [spawn] up to the check of the magic number. *)
Lemma spawn_header prog argv m f :
  fs m !! prog = Some f →
  Z.of_nat (length (fds m)) < MAXFD →
  e_magic (header f m) = ELF_MAGIC →
  spawn prog argv m
  = spawn_child (Z.of_nat (length (fds m))) (header f m) argv (header_read prog f m).
Proof.
  intros Hf Hfds Hmagic. unfold spawn.
  erewrite bind_ok
    by (unfold open; rewrite Hf;
        by destruct (Z.leb_spec MAXFD (Z.of_nat (length (fds m)))); [lia|]).
  destruct (Z.ltb_spec (Z.of_nat (length (fds m))) 0) as [|_]; [lia|].
  erewrite bind_ok.
  2:{ unfold read_local, fd_lookup.
      destruct (Z.ltb_spec (Z.of_nat (length (fds m))) 0) as [|_]; [lia|].
      machine_simpl. rewrite Nat2Z.id, list_lookup_middle by done. simpl.
      rewrite Hf. simpl. reflexivity. }
  cbn beta iota.
  change (file_bytes (set_envs ?a (set_fds ?b m))) with (file_bytes m).
  fold (header f m). rewrite Hmagic, Z.eqb_refl. cbn [negb]. done.
Qed.

Lemma sys_exofork_plain m id ids cur :
  inject m = [] → env_free_list m = id :: ids → envs m !! curenv m = Some cur →
  sys_exofork m = (Ok id, exoforked id ids cur m).
Proof.
  intros Hinj Hfree Hcur. unfold sys_exofork. rewrite syscall_plain by done.
  change (env_free_list (log SYS_exofork m)) with (env_free_list m).
  change (envs (log SYS_exofork m) !! curenv (log SYS_exofork m))
    with (envs m !! curenv m).
  rewrite Hfree, Hcur. reflexivity.
Qed.

Lemma sys_exofork_none m :
  inject m = [] → env_free_list m = [] →
  sys_exofork m = (Ok (- E_NO_FREE_ENV), log SYS_exofork m).
Proof.
  intros Hinj Hfree. unfold sys_exofork. rewrite syscall_plain by done.
  change (env_free_list (log SYS_exofork m)) with (env_free_list m).
  rewrite Hfree. reflexivity.
Qed.

Lemma header_read_facts prog f m :
  inject (header_read prog f m) = inject m
  ∧ env_free_list (header_read prog f m) = env_free_list m
  ∧ page_free_list (header_read prog f m) = page_free_list m
  ∧ phys (header_read prog f m) = phys m
  ∧ curenv (header_read prog f m) = curenv m
  ∧ trace (header_read prog f m) = trace m
  ∧ fs (header_read prog f m) = fs m
  ∧ fds (header_read prog f m)
    = fds m ++ [mkFd prog (read_count (f_size f) 0 512)].
Proof.
  repeat split. unfold header_read, set_fd_offset. machine_simpl.
  rewrite Nat2Z.id.
  replace (length (fds m)) with (length (fds m) + 0)%nat at 1 by lia.
  by rewrite alter_app_r.
Qed.

Lemma header_read_cur prog f m cur :
  envs m !! curenv m = Some cur →
  envs (header_read prog f m) !! curenv m
  = Some (set_pgdir (map_blocks (fd2data (Z.of_nat (length (fds m)))) (f_blocks f)) cur).
Proof.
  intros Hcur. unfold header_read, set_fd_offset. machine_simpl.
  by rewrite lookup_alter_eq, Hcur.
Qed.

(** The mappings that [open] installs. *)
Lemma map_blocks_other blocks :
  ∀ va pgdir w,
    w < va ∨ va + Z.of_nat (length blocks) * PGSIZE <= w →
    map_blocks va blocks pgdir !! w = pgdir !! w.
Proof.
  assert (HP : PGSIZE = 4096) by reflexivity.
  induction blocks as [|p blocks IH]; intros va pgdir w Hw; cbn [map_blocks]; [done|].
  cbn [length] in Hw. rewrite IH by lia. apply lookup_insert_ne. lia.
Qed.

Lemma map_blocks_lookup blocks :
  ∀ va pgdir k p,
    blocks !! k = Some p →
    map_blocks va blocks pgdir !! (va + Z.of_nat k * PGSIZE)
    = Some (p, Z.lor PTE_P (Z.lor PTE_U PTE_W)).
Proof.
  assert (HP : PGSIZE = 4096) by reflexivity.
  induction blocks as [|q blocks IH]; intros va pgdir k p Hk; [done|].
  cbn [map_blocks]. destruct k as [|k].
  - injection Hk as ->. rewrite map_blocks_other by lia.
    rewrite Z.add_0_r. apply lookup_insert_eq.
  - simpl in Hk. rewrite <- (IH (va + PGSIZE) (<[va := (q, Z.lor PTE_P (Z.lor PTE_U PTE_W))]> pgdir) k p Hk).
    f_equal. lia.
Qed.

Lemma header_read_mapped prog f m :
  is_Some (envs m !! curenv m) →
  file_mapped (header_read prog f m) (Z.of_nat (length (fds m))) f.
Proof.
  intros [cur Hcur] k p Hk. eexists.
  unfold env_pte. change (curenv (header_read prog f m)) with (curenv m).
  rewrite (header_read_cur prog f m cur Hcur). simpl.
  by apply map_blocks_lookup.
Qed.

Lemma file_mapped_log m fdnum f c : file_mapped m fdnum f → file_mapped (log c m) fdnum f.
Proof. done. Qed.
End SpawnFirstSteps.

(** X18: when [open] fails (no such file, or no descriptor left),
    [spawn] returns the error of [open] and has done nothing else: the
    machine is as before. *)
Theorem X18_spawn_open_fails (prog : string) (argv : list (list Z)) (m : Spawn.Machine) :
  SpawnFrameSpec.opened_path prog m = [] →
  Spawn.spawn prog argv m
  = (Ok (match Spawn.fs m !! prog with
         | Some _ => - Spawn.E_MAX_OPEN
         | None => - E_NOT_FOUND
         end), m).
Proof.
  unfold SpawnFrameSpec.opened_path, Spawn.spawn. intros Hopen.
  destruct (Spawn.fs m !! prog) as [f|] eqn:Hf.
  - destruct (Z.leb_spec Spawn.MAXFD (Z.of_nat (length (Spawn.fds m)))) as [Hfull|]; [|done].
    erewrite bind_ok
      by (unfold Spawn.open; rewrite Hf;
          by destruct (Z.leb_spec Spawn.MAXFD (Z.of_nat (length (Spawn.fds m)))); [|lia]).
    done.
  - erewrite bind_ok by (unfold Spawn.open; by rewrite Hf). done.
Qed.

Lemma X18_spawn_open_fails_witness :
  Spawn.spawn "nothing" SpawnExamples.prog_hello SpawnExamples.machine
  = (Ok (- E_NOT_FOUND), SpawnExamples.machine).
Proof.
  apply (X18_spawn_open_fails "nothing" SpawnExamples.prog_hello SpawnExamples.machine).
  reflexivity.
Defined.

(** X19: an executable with the right magic number, and no environment
    left: [spawn] returns [-E_NO_FREE_ENV]. The only system call made is
    [sys_exofork]; the file stays open, positioned after the header; no
    page is allocated or written. *)
Theorem X19_spawn_no_free_env
        (prog : string) (argv : list (list Z)) (m : Spawn.Machine) (f : Spawn.File) :
  Spawn.fs m !! prog = Some f →
  Z.of_nat (length (Spawn.fds m)) < Spawn.MAXFD →
  Spawn.e_magic (SpawnRunSpec.header f m) = Spawn.ELF_MAGIC →
  Spawn.inject m = [] →
  Spawn.env_free_list m = [] →
  ∃ m',
    Spawn.spawn prog argv m = (Ok (- Spawn.E_NO_FREE_ENV), m')
    ∧ Spawn.trace m' = Spawn.trace m ++ [Spawn.SYS_exofork]
    ∧ Spawn.fds m'
      = Spawn.fds m ++ [Spawn.mkFd prog (Spawn.read_count (Spawn.f_size f) 0 512)]
    ∧ Spawn.page_free_list m' = Spawn.page_free_list m
    ∧ Spawn.phys m' = Spawn.phys m.
Proof.
  intros Hf Hfds Hmagic Hinj Hfree.
  rewrite (spawn_header prog argv m f Hf Hfds Hmagic).
  destruct (header_read_facts prog f m) as (Hi & He & Hp & Hph & Hc & Ht & Hfs & Hfd).
  unfold SpawnRunSpec.spawn_child.
  erewrite bind_ok by (apply sys_exofork_none; congruence).
  change (- Spawn.E_NO_FREE_ENV <? 0) with true. cbn iota.
  eexists. split; [reflexivity|].
  split; [cbn [Spawn.trace Spawn.log]; by rewrite Ht|].
  split; [exact Hfd|]. split; [exact Hp | exact Hph].
Qed.

Lemma X19_spawn_no_free_env_witness :
  ∃ m',
    Spawn.spawn "prog" SpawnExamples.prog_hello
      (Spawn.set_env_free_list [] SpawnExamples.machine)
    = (Ok (- Spawn.E_NO_FREE_ENV), m')
    ∧ Spawn.trace m' = [Spawn.SYS_exofork]
    ∧ Spawn.fds m' = [Spawn.mkFd "prog" 512].
Proof.
  destruct (X19_spawn_no_free_env "prog" SpawnExamples.prog_hello
              (Spawn.set_env_free_list [] SpawnExamples.machine)
              (SpawnExamples.three_blocks 100))
    as (m' & Hrun & Htrace & Hfds & _).
  - reflexivity.
  - reflexivity.
  - reflexivity.
  - reflexivity.
  - reflexivity.
  - exists m'. split; [exact Hrun|]. split; [exact Htrace | exact Hfds].
Defined.

(** X20: an executable with the right magic number, a free environment
    id, and arguments that do not fit in a page: [spawn] returns
    [-E_NO_MEM] after [sys_exofork], its only system call. The child
    environment is left behind as [sys_exofork] made it, not runnable and
    with an empty address space; the file stays open; no page is
    allocated. *)
Theorem X20_spawn_args_too_big
        (prog : string) (argv : list (list Z)) (m : Spawn.Machine) (f : Spawn.File)
        (cur : Spawn.Env) (id : Z) (ids : list Z) :
  Spawn.fs m !! prog = Some f →
  Z.of_nat (length (Spawn.fds m)) < Spawn.MAXFD →
  Spawn.e_magic (SpawnRunSpec.header f m) = Spawn.ELF_MAGIC →
  Spawn.inject m = [] →
  Spawn.envs m !! Spawn.curenv m = Some cur →
  Spawn.env_free_list m = id :: ids →
  0 <= id →
  ¬ SpawnSpec.args_fit argv →
  SpawnSpec.strings_size argv + 4 * Z.of_nat (length argv) + 15 <= UTEMP + PGSIZE →
  ∃ m',
    Spawn.spawn prog argv m = (Ok (- E_NO_MEM), m')
    ∧ Spawn.envs m' !! ENVX id = Some (SpawnRunSpec.new_env id cur)
    ∧ Spawn.env_free_list m' = ids
    ∧ Spawn.trace m' = Spawn.trace m ++ [Spawn.SYS_exofork]
    ∧ Spawn.fds m'
      = Spawn.fds m ++ [Spawn.mkFd prog (Spawn.read_count (Spawn.f_size f) 0 512)]
    ∧ Spawn.page_free_list m' = Spawn.page_free_list m.
Proof.
  intros Hf Hfds Hmagic Hinj Hcur Hfree Hid Hfit Hsmall.
  rewrite (spawn_header prog argv m f Hf Hfds Hmagic).
  destruct (header_read_facts prog f m) as (Hi & He & Hp & Hph & Hc & Ht & Hfs & Hfd).
  unfold SpawnRunSpec.spawn_child.
  erewrite bind_ok.
  2:{ apply (sys_exofork_plain _ id ids); [congruence | congruence |].
      rewrite Hc. by apply header_read_cur. }
  destruct (Z.ltb_spec id 0) as [|_]; [lia|].
  unfold bind at 1. unfold Spawn.read_env_tf at 1. cbv zeta.
  erewrite bind_ok by (by apply init_stack_no_mem).
  change (- E_NO_MEM <? 0) with true. cbn iota.
  eexists. split; [reflexivity|].
  split; [apply lookup_insert_eq|]. split; [done|].
  split; [cbn [Spawn.trace Spawn.log SpawnRunSpec.exoforked Spawn.set_envs
               Spawn.set_env_free_list]; by rewrite Ht|].
  split; [exact Hfd | exact Hp].
Qed.

Lemma X20_spawn_args_too_big_witness :
  ∃ m',
    Spawn.spawn "prog" (replicate 1000 []) SpawnExamples.machine = (Ok (- E_NO_MEM), m')
    ∧ Spawn.envs m' !! 2 = Some (SpawnRunSpec.new_env 0x1002 SpawnExamples.parent)
    ∧ Spawn.trace m' = [Spawn.SYS_exofork].
Proof.
  destruct (X20_spawn_args_too_big "prog" (replicate 1000 []) SpawnExamples.machine
              (SpawnExamples.three_blocks 100) SpawnExamples.parent 0x1002 [0x1003])
    as (m' & Hrun & Henv & _ & Htrace & _).
  - reflexivity.
  - reflexivity.
  - reflexivity.
  - reflexivity.
  - reflexivity.
  - reflexivity.
  - lia.
  - vm_compute. intros H. by apply H.
  - vm_compute. discriminate.
  - exists m'. split; [exact Hrun|]. split; [exact Henv | exact Htrace].
Defined.

(** ** lib/spawn.c: the loop over the program headers *)

Section SpawnSegments.
Import Spawn SpawnSpec SpawnRunSpec.

Variables (fdnum child ci : Z) (f : File).

Hypothesis Hfd : 0 <= fdnum < MAXFD.

(** What the loop over the program headers needs of the machine: no
    injected failure, a running environment, the child (another
    environment), the open file with its blocks mapped at the descriptor's
    data area, and a free list that starts with the pages [frees], all
    different and none of them a block of the file, followed by [rest]. *)
Definition seg_ready (m : Machine) (frees rest : list nat) : Prop :=
  inject m = []
  ∧ is_Some (envs m !! curenv m)
  ∧ envid2env m child = Some ci
  ∧ ci ≠ curenv m
  ∧ (∃ fd, fd_lookup m fdnum = Some (fd, f))
  ∧ file_mapped m fdnum f
  ∧ page_free_list m = frees ++ rest
  ∧ NoDup frees
  ∧ (∀ p, p ∈ frees → p ∉ f_blocks f).

(** What a segment leaves alone: the page tables outside the child's
    memory below the stack page (but for the scratch address of the
    parent), and the pages it did not allocate. *)
Definition seg_frame (mine : list nat) (m m' : Machine) : Prop :=
  curenv m' = curenv m
  ∧ (∀ e w, e ≠ ci ∨ USTACKTOP - PGSIZE <= w → e ≠ curenv m ∨ w ≠ UTEMP →
            env_pte m' e w = env_pte m e w)
  ∧ (∀ q, q ∉ mine → phys m' !! q = phys m !! q)
  ∧ (env_pte m (curenv m) UTEMP = None → env_pte m' (curenv m) UTEMP = None).

Lemma seg_frame_refl m : seg_frame [] m m.
Proof. by repeat split. Qed.

Lemma seg_frame_trans mine1 mine2 m1 m2 m3 :
  seg_frame mine1 m1 m2 → seg_frame mine2 m2 m3 → seg_frame (mine1 ++ mine2) m1 m3.
Proof.
  intros (A1 & A2 & A3 & A4) (B1 & B2 & B3 & B4). rewrite A1 in B2, B4.
  repeat split.
  - congruence.
  - intros e w H1 H2. rewrite B2, A2 by done. done.
  - intros q Hq. apply not_elem_of_app in Hq as [Hq1 Hq2]. rewrite B3, A3 by done. done.
  - intros H. apply B4, A4, H.
Qed.

Lemma fd2data_not_scratch k : fd2data fdnum + Z.of_nat k * PGSIZE ≠ UTEMP.
Proof. unfold fd2data, FILEDATA, FDTABLE, MAXFD, PTSIZE, UTEMP, PTSIZE, PGSIZE in *. lia. Qed.

Lemma aligned_pages start end_ :
  start mod PGSIZE = 0 → end_ mod PGSIZE = 0 →
  let n := Z.to_nat ((end_ - start) / PGSIZE) in
  start + Z.of_nat n * PGSIZE = end_ ∨ (n = O ∧ end_ <= start).
Proof.
  intros Hs He n. assert (HP : PGSIZE = 4096) by reflexivity.
  assert (Hd : (end_ - start) mod PGSIZE = 0) by (rewrite Zminus_mod, He, Hs; done).
  pose proof (Z.div_mod (end_ - start) PGSIZE).
  destruct (decide (start <= end_)).
  - left. pose proof (Z.div_pos (end_ - start) PGSIZE). unfold n. rewrite Z2Nat.id by lia. lia.
  - right. unfold n. assert ((end_ - start) / PGSIZE < 0) by (apply Z.div_lt_upper_bound; lia).
    lia.
Qed.

(** One program header. *)
Lemma load_segment_ok ph m mine frees rest :
  seg_fits f ph →
  seg_ready m (mine ++ frees) rest →
  length mine = seg_pages ph →
  ∃ m',
    load_segment fdnum child ph m = (Ok None, m')
    ∧ seg_ready m' frees rest
    ∧ seg_frame mine m m'
    ∧ (∀ w, ¬ seg_covers ph w → env_pte m' ci w = env_pte m ci w)
    ∧ (text_seg ph →
       ∀ k p, 0 <= k → seg_start ph + k * PGSIZE < seg_end ph →
              file_block f (seg_start ph + k * PGSIZE) = Some p →
              env_pte m' ci (seg_va ph + k * PGSIZE) = Some (p, Z.lor PTE_U PTE_P))
    ∧ (∀ k p, mine !! k = Some p →
              env_pte m' ci (seg_va ph + Z.of_nat k * PGSIZE) = Some (p, data_perm)).
Proof.
  intros Hfits Hready Hlen.
  assert (HP : PGSIZE = 4096) by reflexivity.
  assert (HP0 : 0 < PGSIZE) by lia.
  assert (HU : USTACKTOP - PGSIZE < UTOP) by done.
  destruct Hready as (Hinj & Hcur & Hchild & Hne & (fd & Hlook) & Hmapped & Hfree & Hnodup & Hblocks).
  unfold load_segment, seg_fits, seg_pages, seg_covers, text_seg, seg_end, seg_va, seg_start
    in *.
  destruct (Z.eqb_spec (p_type ph) ELF_PROG_LOAD) as [Htype|Hother].
  2:{ cbn [andb] in Hlen. destruct mine; [|done]. exists m. split; [done|].
      split; [by repeat split; eauto|]. split; [apply seg_frame_refl|].
      split; [done|]. split; [by intros [? _] | by intros k p Hk]. }
  cbv zeta in Hfits. cbn [andb] in Hlen.
  set (start := ROUNDDOWN (p_offset ph) PGSIZE) in *.
  set (va := ROUNDDOWN (p_va ph) PGSIZE) in *.
  pose proof (ROUNDDOWN_range (p_offset ph) PGSIZE HP0) as Hsr. fold start in Hsr.
  pose proof (ROUNDDOWN_aligned (p_offset ph) PGSIZE HP0) as Hsa. fold start in Hsa.
  pose proof (ROUNDDOWN_range (p_va ph) PGSIZE HP0) as Hvr. fold va in Hvr.
  pose proof (ROUNDDOWN_aligned (p_va ph) PGSIZE HP0) as Hvaa. fold va in Hvaa.
  destruct (Z.eqb_spec (Z.land (p_flags ph) ELF_PROG_FLAG_WRITE) 0) as [Htext|Hdata].
  - (* text *)
    cbn [negb] in Hlen. destruct mine; [|done]. cbn [app] in *.
    set (end_ := ROUNDUP (u32 (p_filesz ph + p_offset ph)) PGSIZE) in *.
    destruct Hfits as (Hlenb & Hmax & Hva).
    assert (Hva' : va + (end_ - start) <= UTOP) by lia.
    pose proof (ROUNDUP_aligned (u32 (p_filesz ph + p_offset ph)) PGSIZE HP0) as Hea.
    fold end_ in Hea.
    assert (Htr : text_ready fdnum child ci fd f m) by (by repeat split).
    set (n := Z.to_nat ((end_ - start) / PGSIZE)).
    destruct (aligned_pages start end_ Hsa Hea) as [Hn|Hn]; fold n in Hn.
    + destruct (map_text_ok fdnum child ci va start end_ fd f Hfd (conj (proj1 Hsr) Hsa)
                  (conj Hea (conj Hlenb Hmax)) (conj (proj1 Hvr) (conj Hvaa Hva'))
                  n (page_fuel start end_) m start Htr)
        as (m' & Hrun & Hready' & Hphys & Hfree' & Hcurenv & Hframe & Hmap).
      * unfold page_fuel.
        assert ((end_ - start) / PGSIZE <= (end_ - start + PGSIZE - 1) / PGSIZE)
          by (apply Z.div_le_mono; lia).
        unfold n. lia.
      * lia.
      * done.
      * by left.
      * lia.
      * exists m'. split; [exact Hrun|].
        destruct Hready' as (Hinj' & Hcur' & Hchild' & Hne' & Hlook' & Hmapped').
        split.
        { repeat split; try done; [by exists fd | by rewrite Hfree']. }
        split.
        { repeat split; [done | | by rewrite Hphys |].
          -- intros e w H1 _. apply Hframe. destruct H1; [by left | right; right; lia].
          -- intros H. rewrite Hframe; [done | left; congruence]. }
        split.
        { intros w Hw. apply Hframe. right.
          assert (¬ (va <= w < va + (end_ - start))) by tauto. lia. }
        split.
        { intros _ k p Hk Hlt Hblk. apply Hmap; [done | lia | done]. }
        by intros k p Hk.
    + destruct (map_text_ok fdnum child ci va start end_ fd f Hfd (conj (proj1 Hsr) Hsa)
                  (conj Hea (conj Hlenb Hmax)) (conj (proj1 Hvr) (conj Hvaa Hva'))
                  O (page_fuel start end_) m start Htr)
        as (m' & Hrun & Hready' & Hphys & Hfree' & Hcurenv & Hframe & Hmap).
      * unfold page_fuel. lia.
      * lia.
      * done.
      * right. split; [done | lia].
      * lia.
      * exists m'. split; [exact Hrun|].
        destruct Hready' as (Hinj' & Hcur' & Hchild' & Hne' & Hlook' & Hmapped').
        split.
        { repeat split; try done; [by exists fd | by rewrite Hfree']. }
        split.
        { repeat split; [done | | by rewrite Hphys |].
          -- intros e w H1 _. apply Hframe. destruct H1; [by left | right; right; lia].
          -- intros H. rewrite Hframe; [done | left; congruence]. }
        split.
        { intros w Hw. apply Hframe. right.
          assert (¬ (va <= w < va + (end_ - start))) by tauto. lia. }
        split.
        { intros _ k p Hk Hlt Hblk. apply Hmap; [done | lia | done]. }
        by intros k p Hk.
  - (* data and bss *)
    cbn [negb] in Hlen.
    set (end_ := ROUNDUP (u32 (p_memsz ph + p_offset ph)) PGSIZE) in *.
    set (limit := u32 (p_offset ph + p_filesz ph)).
    pose proof (ROUNDUP_aligned (u32 (p_memsz ph + p_offset ph)) PGSIZE HP0) as Hea.
    fold end_ in Hea.
    pose proof (ROUNDUP_range (u32 (p_memsz ph + p_offset ph)) PGSIZE HP0) as Her.
    fold end_ in Her.
    pose proof (u32_range (p_offset ph + p_filesz ph)) as Hlr. fold limit in Hlr.
    assert (Hva' : va + (end_ - start) <= UTOP) by lia.
    assert (Hss : start <= start) by lia.
    apply NoDup_app in Hnodup as (Hnd1 & Hnd12 & Hnd2).
    assert (Hseek : seek fdnum (p_offset ph) m = (Ok 0, set_fd_offset fdnum (p_offset ph) m)).
    { unfold seek. by rewrite Hlook. }
    erewrite bind_ok by exact Hseek.
    set (ms := set_fd_offset fdnum (p_offset ph) m).
    assert (Hdr : data_ready fdnum child ci f ms (p_offset ph) mine).
    { repeat split; try done.
      - eexists. split; [by apply fd_lookup_set_fd_offset | done].
      - exists (frees ++ rest). cbn. rewrite Hfree. by rewrite <- app_assoc.
      - intros p Hp. apply Hblocks. apply elem_of_app. by left. }
    assert (Hfrees : page_free_list ms = mine ++ (frees ++ rest)).
    { cbn. rewrite Hfree. by rewrite <- app_assoc. }
    assert (Hn : start + Z.of_nat (length mine) * PGSIZE = end_ ∨ (mine = [] ∧ end_ <= start)).
    { rewrite Hlen. destruct (aligned_pages start end_ Hsa Hea) as [Hn|[Hn0 Hle]]; [by left|].
      right. split; [|done]. apply length_zero_iff_nil. by rewrite Hlen. }
    assert (Hfuel : (length mine < page_fuel start end_)%nat).
    { unfold page_fuel. destruct Hn as [Hn | [-> _]]; [|simpl; lia].
      assert (Hdiv : (end_ - start + PGSIZE - 1) / PGSIZE = Z.of_nat (length mine)).
      { replace (end_ - start + PGSIZE - 1)
          with (PGSIZE - 1 + Z.of_nat (length mine) * PGSIZE) by lia.
        rewrite Z.div_add by lia. rewrite Z.div_small by lia. lia. }
      rewrite Hdiv. lia. }
    destruct (map_data_ok fdnum child ci va start end_ limit f
                (conj (proj1 Hsr) Hsa) (conj Hea (proj2 Her))
                (conj (proj1 Hvr) (conj Hvaa Hva')) Hlr
                mine (page_fuel start end_) ms (p_offset ph) start Hdr Hfuel)
      as (m' & Hrun & Hready' & Hcur' & Hnil & Hutemp & Hphys & Hframe & Hpages);
      [lia | done | done |].
    pose proof (map_data_rest fdnum child ci va start end_ limit f
                  (conj (proj1 Hsr) Hsa) (conj Hea (proj2 Her))
                  (conj (proj1 Hvr) (conj Hvaa Hva')) Hlr
                  mine (page_fuel start end_) ms (p_offset ph) start (frees ++ rest)
                  Hdr Hfrees Hfuel Hss Hsa Hn) as Hrest.
    rewrite Hrun in Hrest. cbn [snd] in Hrest.
    exists m'. split; [exact Hrun|].
    destruct Hready' as (Hinj' & Hcurs' & Hchild' & Hne' & (fd' & Hlook' & _) & _).
    change (curenv ms) with (curenv m) in *.
    assert (Hpte : ∀ e w, e ≠ ci ∨ USTACKTOP - PGSIZE <= w → e ≠ curenv m ∨ w ≠ UTEMP →
                          env_pte m' e w = env_pte m e w).
    { intros e w H1 H2. rewrite Hframe; [done | | done].
      destruct H1; [by left | right; right; lia]. }
    split.
    + repeat split; try done.
      * by exists fd'.
      * intros k p Hk. destruct (Hmapped k p Hk) as [perm Hperm]. exists perm.
        rewrite Hcur'. rewrite Hpte; [done | left; congruence | right; apply fd2data_not_scratch].
      * intros p Hp. apply Hblocks. apply elem_of_app. by right.
    + split.
      { repeat split; try done.
        intros Hnone. destruct mine as [|p0 mine'].
        * by rewrite (Hnil eq_refl).
        * by apply Hutemp. }
      split.
      { intros w Hw. rewrite Hframe; [done | | by left]. right.
        assert (¬ (va <= w < va + (end_ - start))) by tauto. lia. }
      split; [by intros [_ ?]|].
      intros k p Hk. destruct (Hpages k p Hk) as [Hpte' _].
      rewrite <- Hpte'. f_equal. lia.
Qed.

(** The page of a segment lies in the segment. *)
Lemma seg_covers_page ph k :
  p_type ph = ELF_PROG_LOAD → 0 <= k → seg_start ph + k * PGSIZE < seg_end ph →
  seg_covers ph (seg_va ph + k * PGSIZE).
Proof.
  intros Htype Hk Hlt. split; [done|]. assert (HP : PGSIZE = 4096) by reflexivity. lia.
Qed.

Lemma seg_covers_data_page ph k :
  (k < seg_pages ph)%nat → seg_covers ph (seg_va ph + Z.of_nat k * PGSIZE).
Proof.
  unfold seg_pages, seg_covers, seg_end, seg_start, seg_va. intros Hk.
  assert (HP : PGSIZE = 4096) by reflexivity.
  destruct (Z.eqb_spec (p_type ph) ELF_PROG_LOAD) as [Htype|]; [|simpl in Hk; lia].
  destruct (Z.eqb_spec (Z.land (p_flags ph) ELF_PROG_FLAG_WRITE) 0); [simpl in Hk; lia|].
  cbn [andb negb] in Hk. split; [done|].
  set (d := ROUNDUP (u32 (p_memsz ph + p_offset ph)) PGSIZE - ROUNDDOWN (p_offset ph) PGSIZE)
    in *.
  assert (0 < d / PGSIZE) by lia.
  pose proof (Z.mul_div_le d PGSIZE).
  assert (Z.of_nat k + 1 <= d / PGSIZE) by lia. nia.
Qed.

(** The loop over the program headers. *)
Lemma load_segments_ok phs :
  ∀ m frees rest,
    Forall (seg_fits f) phs →
    seg_ready m frees rest →
    length frees = sum_list (seg_pages <$> phs) →
    ∃ m',
      load_segments fdnum child phs m = (Ok None, m')
      ∧ seg_ready m' [] rest
      ∧ seg_frame frees m m'
      ∧ (∀ w, (∀ ph, ph ∈ phs → ¬ seg_covers ph w) → env_pte m' ci w = env_pte m ci w)
      ∧ (segs_apart phs →
         (∀ ph k p, ph ∈ phs → text_seg ph →
                    0 <= k → seg_start ph + k * PGSIZE < seg_end ph →
                    file_block f (seg_start ph + k * PGSIZE) = Some p →
                    env_pte m' ci (seg_va ph + k * PGSIZE) = Some (p, Z.lor PTE_U PTE_P))
         ∧ (∀ j ph k p, phs !! j = Some ph → seg_frees phs frees j !! k = Some p →
                        env_pte m' ci (seg_va ph + Z.of_nat k * PGSIZE)
                        = Some (p, data_perm))).
Proof.
  induction phs as [|ph phs IH]; intros m frees rest Hfits Hready Hlen.
  - simpl in Hlen. destruct frees; [|done]. exists m. split; [done|].
    split; [done|]. split; [apply seg_frame_refl|]. split; [done|].
    intros _. split; [by intros ph k p Hin%elem_of_nil | by intros j ph k p Hj].
  - apply Forall_cons in Hfits as [Hfit Hfits].
    change (sum_list (seg_pages <$> ph :: phs))
      with (seg_pages ph + sum_list (seg_pages <$> phs))%nat in Hlen.
    pose proof Hready as Hready0.
    rewrite <- (take_drop (seg_pages ph) frees) in Hready.
    destruct (load_segment_ok ph m (take (seg_pages ph) frees) (drop (seg_pages ph) frees) rest
                Hfit Hready) as (m1 & Hrun1 & Hready1 & Hframe1 & Hchild1 & Htext1 & Hdata1).
    { rewrite length_take. lia. }
    destruct (IH m1 (drop (seg_pages ph) frees) rest Hfits Hready1)
      as (m' & Hrun & Hready' & Hframe' & Hchild' & Hsegs').
    { rewrite length_drop. lia. }
    exists m'. cbn [load_segments]. erewrite bind_ok by exact Hrun1.
    split; [exact Hrun|]. split; [done|].
    split.
    { rewrite <- (take_drop (seg_pages ph) frees). by eapply seg_frame_trans. }
    split.
    { intros w Hw. rewrite Hchild', Hchild1; [done | |].
      - apply Hw. by left.
      - intros ph' Hin. apply Hw. by right. }
    intros [Hapart Haparts]. destruct (Hsegs' Haparts) as [Htext' Hdata'].
    split.
    + intros ph' k p Hin Htxt Hk Hlt Hblk.
      apply elem_of_cons in Hin as [->|Hin]; [|by eapply Htext'].
      rewrite Hchild'; [by apply Htext1|].
      intros ph' Hin. apply Hapart; [done|]. apply seg_covers_page; [apply Htxt | done | done].
    + intros j ph' k p Hj Hk. destruct j as [|j].
      * injection Hj as <-. unfold seg_frees in Hk. cbn in Hk.
        pose proof (lookup_lt_Some _ _ _ Hk) as Hlt. rewrite length_take in Hlt.
        rewrite Hchild'; [by apply Hdata1|].
        intros ph' Hin. apply Hapart; [done|]. apply seg_covers_data_page. lia.
      * apply (Hdata' j ph' k p Hj).
        unfold seg_frees in Hk |- *. cbn [lookup list_lookup take fmap list_fmap] in Hk.
        change (sum_list (seg_pages ph :: (seg_pages <$> take j phs)))
          with (seg_pages ph + sum_list (seg_pages <$> take j phs))%nat in Hk.
        by rewrite drop_drop.
Qed.
End SpawnSegments.

(** ** lib/spawn.c: the headers in [elf_buf] *)

Section SpawnHeaders.
Import Spawn SpawnSpec SpawnRunSpec.

Lemma get8_app buf junk off :
  off < Z.of_nat (length buf) → get8 (buf ++ junk) off = get8 buf off.
Proof.
  intros Hoff. unfold get8. destruct (Z.ltb_spec off 0); [done|].
  by rewrite lookup_app_l by lia.
Qed.

Lemma get16_app buf junk off :
  off + 1 < Z.of_nat (length buf) → get16 (buf ++ junk) off = get16 buf off.
Proof. intros Hoff. unfold get16. by rewrite !get8_app by lia. Qed.

Lemma get32_app buf junk off :
  off + 3 < Z.of_nat (length buf) → get32 (buf ++ junk) off = get32 buf off.
Proof. intros Hoff. unfold get32. by rewrite !get16_app by lia. Qed.

(** For headers that lie within the bytes read, the fields that [spawn]
    uses do not depend on what [elf_buf] holds after these bytes. *)
Lemma headers_read_app buf junk :
  headers_read buf →
  e_magic (buf ++ junk) = e_magic buf
  ∧ e_entry (buf ++ junk) = e_entry buf
  ∧ proghdrs (buf ++ junk) = proghdrs buf.
Proof.
  intros [Hhdr Hphs].
  assert (Hoff : e_phoff (buf ++ junk) = e_phoff buf)
    by (unfold e_phoff; apply get32_app; lia).
  assert (Hnum : e_phnum (buf ++ junk) = e_phnum buf)
    by (unfold e_phnum; apply get16_app; lia).
  split; [unfold e_magic; apply get32_app; lia|].
  split; [unfold e_entry; apply get32_app; lia|].
  unfold proghdrs. rewrite Hoff, Hnum. apply list_fmap_ext.
  intros i x Hx. apply lookup_seq in Hx as [-> Hi]. cbn [plus].
  unfold proghdr_at. by rewrite !get32_app by lia.
Qed.
End SpawnHeaders.

(** ** lib/spawn.c: [spawn] from beginning to end *)

Section SpawnRuns.
Import Spawn SpawnSpec SpawnRunSpec.

Lemma envid2env_set_tf m tf e envid :
  envid2env (set_envs (alter (set_tf tf) e) m) envid = envid2env m envid.
Proof.
  unfold envid2env. cbn [envs curenv set_envs].
  destruct (envid =? 0); [done|].
  assert (Hl : ∀ x, alter (set_tf tf) e (envs m) !! x
                   = (if decide (e = x) then set_tf tf else id) <$> envs m !! x).
  { intros x. rewrite lookup_alter.
    case_decide; [by subst | by rewrite option_fmap_id]. }
  rewrite !Hl.
  destruct (envs m !! ENVX envid) as [e1|], (envs m !! curenv m) as [e2|];
    simpl; try done; repeat case_decide; done.
Qed.

Lemma env_pte_set_tf m tf e e' va :
  env_pte (set_envs (alter (set_tf tf) e) m) e' va = env_pte m e' va.
Proof.
  unfold env_pte. cbn [envs set_envs]. rewrite lookup_alter.
  case_decide; [|done]. subst. by destruct (envs m !! e').
Qed.

Lemma env_pte_set_status m st e e' va :
  env_pte (set_envs (alter (set_status st) e) m) e' va = env_pte m e' va.
Proof.
  unfold env_pte. cbn [envs set_envs]. rewrite lookup_alter.
  case_decide; [|done]. subst. by destruct (envs m !! e').
Qed.

Lemma sys_env_set_trapframe_plain m envid e tf :
  inject m = [] → envid2env m envid = Some e →
  sys_env_set_trapframe envid tf m
  = (Ok 0, set_envs (alter (set_tf tf) e) (log (SYS_env_set_trapframe envid tf) m)).
Proof.
  intros Hinj He. unfold sys_env_set_trapframe. rewrite syscall_plain by done.
  change (envid2env (log _ m) envid) with (envid2env m envid). by rewrite He.
Qed.

Lemma sys_env_set_status_plain m envid e :
  inject m = [] → envid2env m envid = Some e →
  sys_env_set_status envid ENV_RUNNABLE m
  = (Ok 0, set_envs (alter (set_status ENV_RUNNABLE) e)
             (log (SYS_env_set_status envid ENV_RUNNABLE) m)).
Proof.
  intros Hinj He. unfold sys_env_set_status. rewrite syscall_plain by done.
  change (envid2env (log _ m) envid) with (envid2env m envid). by rewrite He.
Qed.

(** An environment id other than 0 names the entry of [envs] at its
    index, and that entry carries the id. *)
Lemma envid2env_id m envid e :
  envid ≠ 0 → envid2env m envid = Some e →
  e = ENVX envid ∧ ∃ env, envs m !! e = Some env ∧ env_id env = envid.
Proof.
  intros Hne. unfold envid2env. apply Z.eqb_neq in Hne. rewrite Hne.
  destruct (envs m !! ENVX envid) as [env|] eqn:He; [|done].
  destruct (envs m !! curenv m); [|done].
  destruct (Z.eqb_spec (env_id env) envid) as [Hid|]; [|done].
  destruct (_ && _); [|done]. intros [= <-]. split; [done|]. by exists env.
Qed.

(** The child right after [sys_exofork]. *)
Lemma exoforked_child m id ids cur :
  0 < id → ENVX id ≠ curenv m → envs m !! curenv m = Some cur →
  envid2env (exoforked id ids cur m) id = Some (ENVX id)
  ∧ envs (exoforked id ids cur m) !! curenv m = Some cur
  ∧ envs (exoforked id ids cur m) !! ENVX id = Some (new_env id cur).
Proof.
  intros Hid Hne Hcur.
  assert (H1 : envs (exoforked id ids cur m) !! ENVX id = Some (new_env id cur))
    by apply lookup_insert_eq.
  assert (H2 : envs (exoforked id ids cur m) !! curenv m = Some cur).
  { unfold exoforked. machine_simpl. by rewrite lookup_insert_ne. }
  split; [|done].
  unfold envid2env. destruct (Z.eqb_spec id 0); [lia|].
  change (curenv (exoforked id ids cur m)) with (curenv m).
  rewrite H1, H2. cbn [new_env env_id env_status env_parent_id].
  rewrite !Z.eqb_refl. change (ENV_NOT_RUNNABLE =? ENV_FREE) with false.
  cbn [negb andb]. by rewrite orb_true_r.
Qed.

(** [spawn] on an executable that fits, with arguments that fit, a free
    environment id and enough free pages. *)
Lemma spawn_ok prog argv m f cur id ids p0 frees rest :
  let fdnum := Z.of_nat (length (fds m)) in
  let hdr := header f m in
  let ci := ENVX id in
  fs m !! prog = Some f →
  fdnum < MAXFD →
  e_magic hdr = ELF_MAGIC →
  inject m = [] →
  envs m !! curenv m = Some cur →
  env_free_list m = id :: ids → 0 < id → ci ≠ curenv m →
  args_fit argv →
  page_free_list m = p0 :: frees ++ rest →
  NoDup (p0 :: frees) →
  (∀ p, p ∈ frees → p ∉ f_blocks f) →
  Forall (seg_fits f) (proghdrs hdr) →
  length frees = sum_list (seg_pages <$> proghdrs hdr) →
  ∃ m' e pg,
    spawn prog argv m = (Ok id, m')
    ∧ envs m' !! ci = Some e
    ∧ env_id e = id
    ∧ env_status e = ENV_RUNNABLE
    ∧ env_tf e = mkTrapframe (e_entry hdr) (child_addr (esp_off argv))
                             (tf_eflags (env_tf cur))
    ∧ env_pgdir e !! (USTACKTOP - PGSIZE) = Some (p0, stack_perm)
    ∧ phys m' !! p0 = Some pg
    ∧ page_word pg (esp_off argv) = Z.of_nat (length argv)
    ∧ translate m' UTEMP = None
    ∧ page_free_list m' = rest
    ∧ curenv m' = curenv m
    ∧ (∀ q, q ∉ p0 :: frees → phys m' !! q = phys m !! q)
    ∧ file_mapped m' fdnum f
    ∧ (segs_apart (proghdrs hdr) →
       (∀ ph k p, ph ∈ proghdrs hdr → text_seg ph →
                  0 <= k → seg_start ph + k * PGSIZE < seg_end ph →
                  file_block f (seg_start ph + k * PGSIZE) = Some p →
                  env_pgdir e !! (seg_va ph + k * PGSIZE) = Some (p, Z.lor PTE_U PTE_P))
       ∧ (∀ j ph k p, proghdrs hdr !! j = Some ph →
                      seg_frees (proghdrs hdr) frees j !! k = Some p →
                      env_pgdir e !! (seg_va ph + Z.of_nat k * PGSIZE)
                      = Some (p, data_perm))).
Proof.
  intros fdnum hdr ci Hf Hfds Hmagic Hinj Hcur Hfree Hid Hne Hfit Hpages Hnodup Hblocks
         Hsegs Hlen.
  assert (HP : PGSIZE = 4096) by reflexivity.
  rewrite (spawn_header prog argv m f Hf Hfds Hmagic). fold fdnum hdr.
  destruct (header_read_facts prog f m) as (Hi2 & He2 & Hp2 & Hph2 & Hc2 & Ht2 & Hfs2 & Hfd2).
  set (m2 := header_read prog f m) in *.
  set (cur2 := set_pgdir (map_blocks (fd2data fdnum) (f_blocks f)) cur).
  assert (Hcur2 : envs m2 !! curenv m2 = Some cur2).
  { rewrite Hc2. by apply header_read_cur. }
  unfold spawn_child.
  erewrite bind_ok by (apply (sys_exofork_plain m2 id ids cur2); congruence).
  destruct (Z.ltb_spec id 0) as [|_]; [lia|].
  set (m3 := exoforked id ids cur2 m2).
  destruct (exoforked_child m2 id ids cur2 Hid) as (Hchild3 & Hcur3 & Hci3);
    [by rewrite Hc2 | done |].
  fold m3 ci in Hchild3, Hcur3, Hci3.
  assert (Htf : read_env_tf ci m3 = (Ok (env_tf cur), m3)).
  { unfold read_env_tf. by rewrite Hci3. }
  erewrite bind_ok by exact Htf. cbv zeta.
  cbn [tf_eip tf_esp tf_eflags].
  (* the stack *)
  assert (Hcur3' : is_Some (envs m3 !! curenv m3)).
  { change (curenv m3) with (curenv m2). by rewrite Hcur3. }
  assert (Hfree3 : page_free_list m3 = p0 :: frees ++ rest).
  { change (page_free_list m3) with (page_free_list m2). by rewrite Hp2. }
  destruct (init_stack_ok m3 id argv (tf_esp (env_tf cur)) ci p0 (frees ++ rest)
              Hfit) as (pg & Hrun4 & Hlen4 & Hargc & _);
    [change (inject m3) with (inject m2); congruence | done | done | done |].
  erewrite bind_ok by exact Hrun4. cbn beta iota.
  change (0 <? 0) with false. cbn iota.
  set (m1 := scratch_allocated m3 stack_perm p0 (frees ++ rest)) in *.
  set (m4 := page_handed_over m1 stack_perm p0 pg id ci (USTACKTOP - PGSIZE)) in *.
  destruct (handed_over_facts m1 stack_perm p0 pg id ci (USTACKTOP - PGSIZE))
    as (Hphys4 & Hinj4 & Hfree4 & Hcur4 & Hfds4 & Hfs4 & Henvid4 & _).
  fold m4 in Hphys4, Hinj4, Hfree4, Hcur4, Hfds4, Hfs4, Henvid4.
  assert (Hcur1 : is_Some (envs m1 !! curenv m1)) by (by apply scratch_allocated_is_Some).
  assert (Hci1 : is_Some (envs m1 !! ci)).
  { apply scratch_allocated_is_Some. by rewrite Hci3. }
  assert (Hcurm : curenv m1 = curenv m) by (by rewrite <- Hc2).
  assert (Hpte4 : ∀ e w, env_pte m4 e w
            = if decide (e = curenv m ∧ w = UTEMP) then None
              else if decide (e = ci ∧ w = USTACKTOP - PGSIZE) then Some (p0, stack_perm)
              else env_pte m1 e w).
  { intros e w. unfold m4. rewrite env_pte_handed_over by done. by rewrite Hcurm. }
  assert (Hready4 : seg_ready fdnum id ci f m4 frees rest).
  { split_and!.
    - rewrite Hinj4. change (inject m1) with (inject m2). congruence.
    - rewrite Hcur4. by apply handed_over_is_Some.
    - rewrite Henvid4. unfold m1. by rewrite scratch_allocated_envid2env.
    - rewrite Hcur4, Hcurm. done.
    - exists (mkFd prog (read_count (f_size f) 0 512)).
      unfold fd_lookup. destruct (Z.ltb_spec fdnum 0) as [|_]; [unfold fdnum in *; lia|].
      rewrite Hfds4, Hfs4. change (fds m1) with (fds m2). change (fs m1) with (fs m2).
      rewrite Hfd2, Hfs2. unfold fdnum. rewrite Nat2Z.id, list_lookup_middle by done.
      simpl. by rewrite Hf.
    - intros k p Hk. exists (Z.lor PTE_P (Z.lor PTE_U PTE_W)).
      rewrite Hcur4, Hcurm, Hpte4.
      assert (Hns : fd2data fdnum + Z.of_nat k * PGSIZE ≠ UTEMP)
        by (apply fd2data_not_scratch; unfold fdnum in *; lia).
      rewrite decide_False by tauto. rewrite decide_False by (intros [? _]; done).
      unfold m1, scratch_allocated. rewrite env_pte_set_pgdir. machine_simpl.
      change (curenv m3) with (curenv m2). rewrite decide_True by done.
      rewrite Hcur3. cbn [mbind option_bind].
      rewrite lookup_insert_ne by done. by apply map_blocks_lookup.
    - rewrite Hfree4. done.
    - by apply NoDup_cons in Hnodup as [_ ?].
    - done. }
  destruct (load_segments_ok fdnum id ci f ltac:(unfold fdnum; lia) (proghdrs hdr)
              m4 frees rest Hsegs Hready4 Hlen)
    as (m5 & Hrun5 & Hready5 & (Hcur5 & Hpte5 & Hphys5 & Hutemp5) & _ & Hsegs5).
  erewrite bind_ok by exact Hrun5. cbn iota.
  destruct Hready5 as (Hinj5 & Hcurs5 & Hchild5 & Hne5 & _ & Hmapped5 & Hfree5 & _).
  set (tf := mkTrapframe (e_entry hdr) (child_addr (esp_off argv)) (tf_eflags (env_tf cur))).
  erewrite bind_ok by (by apply (sys_env_set_trapframe_plain m5 id ci tf)).
  change (0 <? 0) with false. cbn iota.
  set (m6 := set_envs (alter (set_tf tf) ci) (log (SYS_env_set_trapframe id tf) m5)).
  erewrite bind_ok.
  2:{ apply (sys_env_set_status_plain m6 id ci); [done|].
      unfold m6. rewrite envid2env_set_tf. done. }
  change (0 <? 0) with false. cbn iota.
  set (m7 := set_envs (alter (set_status ENV_RUNNABLE) ci)
               (log (SYS_env_set_status id ENV_RUNNABLE) m6)).
  destruct (envid2env_id m5 id ci) as (_ & e5 & He5 & Hid5); [lia | done |].
  assert (Hstack5 : env_pgdir e5 !! (USTACKTOP - PGSIZE) = Some (p0, stack_perm)).
  { assert (Hp : env_pte m5 ci (USTACKTOP - PGSIZE) = Some (p0, stack_perm)).
    { rewrite Hpte5; [| right; lia | left; by rewrite Hcur4, Hcurm].
      rewrite Hpte4. rewrite decide_False by (intros [? _]; done).
      by rewrite decide_True. }
    unfold env_pte in Hp. by rewrite He5 in Hp. }
  exists m7, (set_status ENV_RUNNABLE (set_tf tf e5)), pg.
  split; [reflexivity|].
  split.
  { unfold m7, m6. machine_simpl. by rewrite !lookup_alter_eq, He5. }
  split; [done|]. split; [done|]. split; [done|]. split; [done|].
  split.
  { change (phys m7) with (phys m5). rewrite Hphys5.
    - rewrite Hphys4. apply lookup_insert_eq.
    - by apply NoDup_cons in Hnodup as [? _]. }
  split.
  { rewrite (holds_page_word _ _ _ Hargc). apply u32_small.
    pose proof (layout_bounds argv Hfit) as (He & Hea & Has & Hstr & Hal).
    pose proof (strings_size_nonneg argv).
    unfold esp_off, argv_off, str_off in *. lia. }
  split.
  { rewrite translate_env_pte. change (ROUNDDOWN UTEMP PGSIZE) with UTEMP.
    change (curenv m7) with (curenv m5).
    unfold m7. rewrite env_pte_set_status.
    change (env_pte (log (SYS_env_set_status id ENV_RUNNABLE) m6)) with (env_pte m6).
    unfold m6. rewrite env_pte_set_tf.
    change (env_pte (log (SYS_env_set_trapframe id tf) m5)) with (env_pte m5).
    rewrite Hcur5. apply Hutemp5.
    rewrite Hcur4, Hcurm, Hpte4. by rewrite decide_True. }
  split; [exact Hfree5|].
  split; [change (curenv m7) with (curenv m5); by rewrite Hcur5, Hcur4, Hcurm|].
  split.
  { intros q Hq. apply not_elem_of_cons in Hq as [Hq0 Hq].
    change (phys m7) with (phys m5). rewrite Hphys5 by done.
    rewrite Hphys4, lookup_insert_ne by done.
    unfold m1, scratch_allocated. machine_simpl. rewrite lookup_insert_ne by done.
    change (phys m3) with (phys m2). by rewrite Hph2. }
  split.
  { intros k p Hk. destruct (Hmapped5 k p Hk) as [perm Hperm]. exists perm.
    change (curenv m7) with (curenv m5).
    unfold m7. rewrite env_pte_set_status.
    change (env_pte (log (SYS_env_set_status id ENV_RUNNABLE) m6)) with (env_pte m6).
    unfold m6. rewrite env_pte_set_tf. exact Hperm. }
  intros Hapart. destruct (Hsegs5 Hapart) as [Htext5 Hdata5].
  assert (Hpg5 : ∀ w, env_pgdir (set_status ENV_RUNNABLE (set_tf tf e5)) !! w
                      = env_pte m5 ci w).
  { intros w. unfold env_pte. by rewrite He5. }
  split.
  - intros ph k p Hin Htxt Hk Hlt Hblk. rewrite Hpg5. by eapply Htext5.
  - intros j ph k p Hj Hk. rewrite Hpg5. by eapply Hdata5.
Qed.
End SpawnRuns.

(** X21: [spawn] succeeds on an executable whose ELF header and program
    headers lie within the bytes read, whose segments fit (see
    [SpawnRunSpec.seg_fits]) and have no page in common, when the
    arguments fit in one page, an environment id is free and the free
    list starts with the page for the stack and the pages of the writable
    segments, none of the latter a block of the file. It returns the id
    of the child, which is then runnable, starts at the entry point of the
    ELF header with the flags of the parent and the stack pointer at the
    argument count, and has the stack page mapped below [USTACKTOP] and
    every page of every writable segment mapped at its address with
    permission [PTE_U | PTE_W | PTE_P], each a page of its own from the
    free list. The scratch page of the parent is unmapped again and
    exactly the pages named above have left the free list. *)
Theorem X21_spawn_runs
        (prog : string) (argv : list (list Z)) (m : Spawn.Machine) (f : Spawn.File)
        (cur : Spawn.Env) (id : Z) (ids : list Z) (p0 : nat) (frees rest : list nat) :
  let hdr := SpawnRunSpec.header f m in
  Spawn.fs m !! prog = Some f →
  Z.of_nat (length (Spawn.fds m)) < Spawn.MAXFD →
  Spawn.e_magic hdr = Spawn.ELF_MAGIC →
  SpawnRunSpec.headers_read hdr →
  Spawn.inject m = [] →
  Spawn.envs m !! Spawn.curenv m = Some cur →
  Spawn.env_free_list m = id :: ids →
  0 < id →
  ENVX id ≠ Spawn.curenv m →
  SpawnSpec.args_fit argv →
  Spawn.page_free_list m = p0 :: frees ++ rest →
  NoDup (p0 :: frees) →
  (∀ p, p ∈ frees → p ∉ Spawn.f_blocks f) →
  Forall (SpawnRunSpec.seg_fits f) (Spawn.proghdrs hdr) →
  SpawnRunSpec.segs_apart (Spawn.proghdrs hdr) →
  length frees = sum_list (SpawnRunSpec.seg_pages <$> Spawn.proghdrs hdr) →
  ∃ m' e pg,
    Spawn.spawn prog argv m = (Ok id, m')
    ∧ Spawn.envs m' !! ENVX id = Some e
    ∧ Spawn.env_id e = id
    ∧ Spawn.env_status e = Spawn.ENV_RUNNABLE
    ∧ Spawn.env_tf e
      = Spawn.mkTrapframe (Spawn.e_entry hdr) (SpawnSpec.child_addr (SpawnSpec.esp_off argv))
                          (Spawn.tf_eflags (Spawn.env_tf cur))
    ∧ Spawn.env_pgdir e !! (USTACKTOP - PGSIZE) = Some (p0, Spawn.stack_perm)
    ∧ Spawn.phys m' !! p0 = Some pg
    ∧ Spawn.page_word pg (SpawnSpec.esp_off argv) = Z.of_nat (length argv)
    ∧ (∀ j ph k p,
         Spawn.proghdrs hdr !! j = Some ph →
         SpawnRunSpec.seg_frees (Spawn.proghdrs hdr) frees j !! k = Some p →
         Spawn.env_pgdir e !! (SpawnRunSpec.seg_va ph + Z.of_nat k * PGSIZE)
         = Some (p, Spawn.data_perm))
    ∧ Spawn.translate m' UTEMP = None
    ∧ Spawn.page_free_list m' = rest
    ∧ Spawn.curenv m' = Spawn.curenv m.
Proof.
  intros hdr Hf Hfds Hmagic _ Hinj Hcur Hfree Hid Hne Hfit Hpages Hnodup Hblocks Hsegs
         Hapart Hlen.
  destruct (spawn_ok prog argv m f cur id ids p0 frees rest Hf Hfds Hmagic Hinj Hcur Hfree
              Hid Hne Hfit Hpages Hnodup Hblocks Hsegs Hlen)
    as (m' & e & pg & Hrun & He & Heid & Hst & Htf & Hstack & Hphys & Hargc & Hutemp
        & Hrest & Hcurenv & _ & _ & Hmaps).
  destruct (Hmaps Hapart) as [_ Hdata].
  exists m', e, pg. repeat (split; [assumption|]). exact Hcurenv.
Qed.

Lemma X21_spawn_runs_witness :
  ∃ m' e pg,
    Spawn.spawn "prog" SpawnExamples.prog_hello SpawnExamples.machine = (Ok 0x1002, m')
    ∧ Spawn.envs m' !! 2 = Some e
    ∧ Spawn.env_status e = Spawn.ENV_RUNNABLE
    ∧ Spawn.tf_eip (Spawn.env_tf e) = 0x00800020
    ∧ Spawn.env_pgdir e !! (USTACKTOP - PGSIZE) = Some (10%nat, Spawn.stack_perm)
    ∧ Spawn.phys m' !! 10%nat = Some pg
    ∧ Spawn.page_word pg (SpawnSpec.esp_off SpawnExamples.prog_hello) = 2
    ∧ Spawn.env_pgdir e !! 0x00801000 = Some (11%nat, Spawn.data_perm)
    ∧ Spawn.env_pgdir e !! 0x00802000 = Some (12%nat, Spawn.data_perm)
    ∧ Spawn.page_free_list m' = seq 13 7.
Proof.
  destruct (X21_spawn_runs "prog" SpawnExamples.prog_hello SpawnExamples.machine
              (SpawnExamples.three_blocks 100) SpawnExamples.parent 0x1002 [0x1003]
              10%nat [11%nat; 12%nat] (seq 13 7))
    as (m' & e & pg & Hrun & He & _ & Hst & Htf & Hpg & Hphys & Hargc & Hdata & _ & Hfree & _).
  - reflexivity.
  - reflexivity.
  - reflexivity.
  - split; vm_compute; discriminate.
  - reflexivity.
  - reflexivity.
  - reflexivity.
  - lia.
  - discriminate.
  - vm_compute. discriminate.
  - reflexivity.
  - apply (bool_decide_unpack _). reflexivity.
  - intros p Hp. apply (bool_decide_unpack _).
    apply elem_of_cons in Hp as [->|Hp]; [reflexivity|].
    apply list_elem_of_singleton in Hp as ->. reflexivity.
  - change (Spawn.proghdrs (SpawnRunSpec.header (SpawnExamples.three_blocks 100)
                              SpawnExamples.machine))
      with [SpawnExamples.text_ph; SpawnExamples.data_ph].
    repeat first [apply Forall_nil_2 | apply Forall_cons_2];
      vm_compute; repeat split; discriminate.
  - change (Spawn.proghdrs (SpawnRunSpec.header (SpawnExamples.three_blocks 100)
                              SpawnExamples.machine))
      with [SpawnExamples.text_ph; SpawnExamples.data_ph].
    split; [|split; [|exact I]].
    + intros ph' w Hin [_ H1] [_ H2]. apply list_elem_of_singleton in Hin as ->.
      assert (E1 : SpawnRunSpec.seg_va SpawnExamples.text_ph
                   + (SpawnRunSpec.seg_end SpawnExamples.text_ph
                      - SpawnRunSpec.seg_start SpawnExamples.text_ph) = 0x00801000)
        by reflexivity.
      assert (E2 : SpawnRunSpec.seg_va SpawnExamples.data_ph = 0x00801000) by reflexivity.
      lia.
    + intros ph' w Hin. by apply elem_of_nil in Hin.
  - reflexivity.
  - exists m', e, pg. split; [exact Hrun|]. split; [exact He|]. split; [exact Hst|].
    split; [by rewrite Htf|]. split; [exact Hpg|]. split; [exact Hphys|].
    split; [exact Hargc|].
    split; [exact (Hdata 1%nat SpawnExamples.data_ph 0%nat 11%nat eq_refl eq_refl)|].
    split; [exact (Hdata 1%nat SpawnExamples.data_ph 1%nat 12%nat eq_refl eq_refl)|].
    exact Hfree.
Defined.

(** C8: [spawn] on an executable whose ELF header and program headers
    lie within the bytes read and whose segments fit and have no page in
    common, with arguments that fit in one page, a free environment id
    and free pages for the stack and the writable segments, none of them
    a block of the file. For every loadable segment without the write
    flag among the program headers, and every page of the file between
    the segment's file offset rounded down and the end of its file-backed
    part rounded up: when [spawn] returns, the child has the physical
    page that backs the file there mapped at the corresponding virtual
    address, with permission [PTE_U | PTE_P]. The page is shared, not
    copied: it is the page that the parent's view of the file maps at the
    address that [read_map] gave, it is none of the pages allocated, and
    its content is as before. *)
Theorem C8_text_segment_shared
        (prog : string) (argv : list (list Z)) (m : Spawn.Machine) (f : Spawn.File)
        (cur : Spawn.Env) (id : Z) (ids : list Z) (p0 : nat) (frees rest : list nat)
        (ph : Spawn.Proghdr) (k : Z) (p : nat) :
  let fdnum := Z.of_nat (length (Spawn.fds m)) in
  let hdr := SpawnRunSpec.header f m in
  Spawn.fs m !! prog = Some f →
  fdnum < Spawn.MAXFD →
  Spawn.e_magic hdr = Spawn.ELF_MAGIC →
  SpawnRunSpec.headers_read hdr →
  Spawn.inject m = [] →
  Spawn.envs m !! Spawn.curenv m = Some cur →
  Spawn.env_free_list m = id :: ids →
  0 < id →
  ENVX id ≠ Spawn.curenv m →
  SpawnSpec.args_fit argv →
  Spawn.page_free_list m = p0 :: frees ++ rest →
  NoDup (p0 :: frees) →
  (∀ q, q ∈ p0 :: frees → q ∉ Spawn.f_blocks f) →
  Forall (SpawnRunSpec.seg_fits f) (Spawn.proghdrs hdr) →
  SpawnRunSpec.segs_apart (Spawn.proghdrs hdr) →
  length frees = sum_list (SpawnRunSpec.seg_pages <$> Spawn.proghdrs hdr) →
  ph ∈ Spawn.proghdrs hdr →
  SpawnRunSpec.text_seg ph →
  0 <= k →
  SpawnRunSpec.seg_start ph + k * PGSIZE < SpawnRunSpec.seg_end ph →
  SpawnSpec.file_block f (SpawnRunSpec.seg_start ph + k * PGSIZE) = Some p →
  ∃ m' e perm,
    Spawn.spawn prog argv m = (Ok id, m')
    ∧ Spawn.envs m' !! ENVX id = Some e
    ∧ Spawn.env_pgdir e !! (SpawnRunSpec.seg_va ph + k * PGSIZE)
      = Some (p, Z.lor PTE_U PTE_P)
    ∧ SpawnSpec.env_pte m' (Spawn.curenv m')
        (Spawn.fd2data fdnum + (SpawnRunSpec.seg_start ph + k * PGSIZE)) = Some (p, perm)
    ∧ (p ∉ p0 :: frees)
    ∧ Spawn.phys m' !! p = Spawn.phys m !! p.
Proof.
  intros fdnum hdr Hf Hfds Hmagic _ Hinj Hcur Hfree Hid Hne Hfit Hpages Hnodup Hblocks Hsegs
         Hapart Hlen Hin Htext Hk Hlt Hblk.
  assert (HP : PGSIZE = 4096) by reflexivity.
  destruct (spawn_ok prog argv m f cur id ids p0 frees rest Hf Hfds Hmagic Hinj Hcur Hfree
              Hid Hne Hfit Hpages Hnodup) as (m' & e & pg & Hrun & He & _ & _ & _ & _ & _ & _
                                              & _ & _ & _ & Hphys & Hmapped & Hmaps);
    [intros q Hq; apply Hblocks; by right | done | done |].
  destruct (Hmaps Hapart) as [Htexts _].
  assert (Hp : p ∉ p0 :: frees).
  { intros Hq. apply (Hblocks p Hq). by eapply list_elem_of_lookup_2. }
  destruct (Hmapped _ p Hblk) as [perm Hperm].
  exists m', e, perm. split; [exact Hrun|]. split; [exact He|].
  split; [by eapply Htexts|].
  split; [|split; [exact Hp | by apply Hphys]].
  rewrite <- Hperm. do 2 f_equal.
  pose proof (ROUNDDOWN_range (Spawn.p_offset ph) PGSIZE ltac:(lia)) as [Hs0 _].
  pose proof (ROUNDDOWN_aligned (Spawn.p_offset ph) PGSIZE ltac:(lia)) as Hsa.
  fold (SpawnRunSpec.seg_start ph) in Hs0, Hsa.
  set (o := SpawnRunSpec.seg_start ph + k * PGSIZE).
  assert (Ho : o mod PGSIZE = 0) by (unfold o; by rewrite Z.mod_add by lia).
  pose proof (Z.div_mod o PGSIZE ltac:(lia)). pose proof (Z.div_pos o PGSIZE).
  rewrite Z2Nat.id by (unfold o in *; nia). lia.
Qed.

Lemma C8_text_segment_shared_witness :
  ∃ m' e,
    Spawn.spawn "prog" SpawnExamples.prog_hello SpawnExamples.machine = (Ok 0x1002, m')
    ∧ Spawn.envs m' !! 2 = Some e
    ∧ Spawn.env_pgdir e !! 0x00800000 = Some (101%nat, Z.lor PTE_U PTE_P)
    ∧ Spawn.phys m' !! 101%nat = Spawn.phys SpawnExamples.machine !! 101%nat.
Proof.
  destruct (C8_text_segment_shared "prog" SpawnExamples.prog_hello SpawnExamples.machine
              (SpawnExamples.three_blocks 100) SpawnExamples.parent 0x1002 [0x1003]
              10%nat [11%nat; 12%nat] (seq 13 7) SpawnExamples.text_ph 0 101%nat)
    as (m' & e & perm & Hrun & He & Hmap & _ & _ & Hphys).
  - reflexivity.
  - reflexivity.
  - reflexivity.
  - split; vm_compute; discriminate.
  - reflexivity.
  - reflexivity.
  - reflexivity.
  - lia.
  - discriminate.
  - vm_compute. discriminate.
  - reflexivity.
  - apply (bool_decide_unpack _). reflexivity.
  - intros q Hq. apply (bool_decide_unpack _).
    apply elem_of_cons in Hq as [->|Hq]; [reflexivity|].
    apply elem_of_cons in Hq as [->|Hq]; [reflexivity|].
    apply list_elem_of_singleton in Hq as ->. reflexivity.
  - change (Spawn.proghdrs (SpawnRunSpec.header (SpawnExamples.three_blocks 100)
                              SpawnExamples.machine))
      with [SpawnExamples.text_ph; SpawnExamples.data_ph].
    repeat first [apply Forall_nil_2 | apply Forall_cons_2];
      vm_compute; repeat split; discriminate.
  - change (Spawn.proghdrs (SpawnRunSpec.header (SpawnExamples.three_blocks 100)
                              SpawnExamples.machine))
      with [SpawnExamples.text_ph; SpawnExamples.data_ph].
    split; [|split; [|exact I]].
    + intros ph' w Hin [_ H1] [_ H2]. apply list_elem_of_singleton in Hin as ->.
      assert (E1 : SpawnRunSpec.seg_va SpawnExamples.text_ph
                   + (SpawnRunSpec.seg_end SpawnExamples.text_ph
                      - SpawnRunSpec.seg_start SpawnExamples.text_ph) = 0x00801000)
        by reflexivity.
      assert (E2 : SpawnRunSpec.seg_va SpawnExamples.data_ph = 0x00801000) by reflexivity.
      lia.
    + intros ph' w Hin. by apply elem_of_nil in Hin.
  - reflexivity.
  - change (Spawn.proghdrs (SpawnRunSpec.header (SpawnExamples.three_blocks 100)
                              SpawnExamples.machine))
      with [SpawnExamples.text_ph; SpawnExamples.data_ph].
    apply elem_of_cons. by left.
  - split; reflexivity.
  - lia.
  - reflexivity.
  - reflexivity.
  - exists m', e. split; [exact Hrun|]. split; [exact He|]. split; [exact Hmap | exact Hphys].
Defined.

(** ** kern/monitor.c: what the commands return *)

Section MonitorReturns.
Import Monitor MonitorSpec MonitorReport.

Variable strtol : string → Z.

Lemma returns_zero_ret m : returns_zero (ret 0 m).
Proof. done. Qed.

Lemma returns_zero_bind {A} (x : M MonState A) (f : A → M MonState Z) m :
  (∀ a m', returns_zero (f a m')) → returns_zero (bind x f m).
Proof.
  intros Hf. unfold bind. destruct (x m) as [[a| | |] m']; [apply Hf | done | done | done].
Qed.

Ltac returns_zero :=
  repeat first
    [ apply returns_zero_ret
    | apply returns_zero_bind; intros
    | match goal with |- context [let '(_, _) := ?a in _] => destruct a end ].

Lemma commands_return_zero :
  Forall (fun c => ∀ fuel argc argv tf m, returns_zero (func c fuel argc argv tf m))
         (commands strtol).
Proof.
  unfold commands. repeat first [apply Forall_nil_2 | apply Forall_cons_2];
    cbn [func]; intros fuel argc argv tf m.
  - unfold mon_help. returns_zero.
  - unfold mon_kerninfo. returns_zero.
  - unfold mon_backtrace. returns_zero.
  - unfold mon_showmappings. returns_zero.
  - unfold mon_alloc_page. returns_zero.
  - unfold mon_free_page. returns_zero.
  - unfold mon_page_status. returns_zero.
Qed.

Lemma lookup_returns_zero cmds fuel argc argv tf m :
  Forall (fun c => ∀ fuel argc argv tf m, returns_zero (func c fuel argc argv tf m)) cmds →
  returns_zero (lookup cmds fuel argc argv tf m).
Proof.
  induction 1 as [|c cmds Hc _ IH]; cbn [lookup].
  - returns_zero.
  - destruct (String.eqb (arg argv 0) (name c)); [apply Hc | apply IH].
Qed.

Lemma runcmd_returns_zero fuel buf tf m : returns_zero (runcmd strtol fuel buf tf m).
Proof.
  unfold runcmd. destruct (parse _ _ _ _) as [[offs buf'|]|]; [| returns_zero | done].
  destruct (_ =? 0); [apply returns_zero_ret|].
  apply lookup_returns_zero, commands_return_zero.
Qed.

Lemma monitor_loop_never_returns fuel input tf :
  ∀ m, (monitor_loop strtol fuel input tf m).1 ≠ Ok tt.
Proof.
  induction input as [|[b|] input IH]; intros m; cbn [monitor_loop]; [done | | apply IH].
  unfold bind. pose proof (runcmd_returns_zero fuel b tf m) as Hz.
  unfold returns_zero in Hz.
  destruct (runcmd strtol fuel b tf m) as [[r| | |] m']; [| done | done | done].
  simpl in Hz. subst r. change (0 <? 0) with false. apply IH.
Qed.
End MonitorReturns.

(** X5: [runcmd] never returns a negative value: on every buffer, with
    every state, a call that returns, returns 0 (the entries of the
    command table all end in [return 0], as do the paths of [runcmd]
    itself). *)
Theorem X5_runcmd_returns_zero
        (strtol : string → Z) (fuel : nat) (buf : list ascii) (tf : Z)
        (m : Monitor.MonState) :
  match (Monitor.runcmd strtol fuel buf tf m).1 with
  | Ok r => r = 0
  | _ => True
  end.
Proof. apply runcmd_returns_zero. Qed.

(** X6: [monitor] never returns: its loop is left only when [runcmd]
    returns a negative value, which no command does; whatever lines are
    entered, at the end of the input it is still running (or has stopped
    in a panic), and has not returned to its caller. *)
Theorem X6_monitor_never_returns
        (strtol : string → Z) (fuel : nat) (input : list (option (list ascii))) (tf : Z)
        (m : Monitor.MonState) :
  (Monitor.monitor strtol fuel input tf m).1 ≠ Ok tt.
Proof.
  unfold Monitor.monitor, bind, Monitor.cprintf. apply monitor_loop_never_returns.
Qed.

(** ** kern/monitor.c: the parsing loop on any buffer *)

Section MonitorParseTotal.
Import Monitor MonitorSpec MonitorReport.

Lemma gobble_length rest :
  ∀ pre, (length (gobble pre rest).1 + length (gobble pre rest).2
          = length pre + length rest)%nat
         ∧ (length (gobble pre rest).2 <= length rest)%nat
         ∧ match (gobble pre rest).2 with c :: _ => is_space c = false | [] => True end.
Proof.
  induction rest as [|c rest IH]; intros pre; cbn [gobble]; [done|].
  destruct (is_space c) eqn:Hc.
  - destruct (IH (pre ++ [NUL])) as (H1 & H2 & H3).
    rewrite length_app in H1. simpl in *. repeat split; [lia | lia | done].
  - simpl. done.
Qed.

Lemma scan_length rest :
  ∀ pre, (length (scan pre rest).1 + length (scan pre rest).2
          = length pre + length rest)%nat
         ∧ (length (scan pre rest).2 <= length rest)%nat
         ∧ match rest with
           | c :: _ => is_word c = true → (length (scan pre rest).2 < length rest)%nat
           | [] => True
           end.
Proof.
  induction rest as [|c rest IH]; intros pre; cbn [scan]; [done|].
  destruct (is_word c) eqn:Hc.
  - destruct (IH (pre ++ [c])) as (H1 & H2 & _).
    rewrite length_app in H1. simpl in *. repeat split; [lia | lia | intros _; lia].
  - simpl. repeat split; [lia | done].
Qed.

Lemma word_after_gobble c : c ≠ NUL → is_space c = false → is_word c = true.
Proof.
  unfold is_space, is_word. intros Hc.
  destruct (Ascii.eqb_spec c NUL); [done|]. simpl. by intros ->.
Qed.

Lemma parse_total fuel :
  ∀ argv pre rest,
    (length rest < fuel)%nat → (length argv <= 15)%nat →
    Forall (fun o => (o < length pre + length rest)%nat) argv →
    ∃ p, parse fuel argv pre rest = Some p
         ∧ parsed_within (length pre + length rest) p.
Proof.
  induction fuel as [|fuel IH]; intros argv pre rest Hfuel Hargv Hoffs; [lia|].
  cbn [parse].
  destruct (gobble_length rest pre) as (Hg1 & Hg2 & Hg3).
  destruct (gobble pre rest) as [pre1 rest1]. cbn [fst snd] in *.
  destruct (Ascii.eqb_spec (peek rest1) NUL) as [Hend|Hmore].
  { eexists. split; [done|]. cbn [parsed_within]. rewrite length_app, Hg1. done. }
  destruct rest1 as [|c rest1']; [done|]. cbn [peek] in Hmore.
  destruct (Z.eqb_spec (Z.of_nat (length argv)) (MAXARGS - 1)) as [Hfull|Hroom].
  { eexists. split; [done|]. done. }
  unfold MAXARGS in Hroom.
  destruct (scan_length (c :: rest1') pre1) as (Hs1 & _ & Hs2).
  specialize (Hs2 (word_after_gobble c Hmore Hg3)).
  destruct (scan pre1 (c :: rest1')) as [pre2 rest2]. cbn [fst snd] in *.
  destruct (IH (argv ++ [length pre1]) pre2 rest2) as (p & Hp & Hin).
  - simpl in *. lia.
  - rewrite length_app. simpl. lia.
  - apply Forall_app. split.
    + eapply Forall_impl; [exact Hoffs|]. simpl. intros o Ho. simpl in *. lia.
    + constructor; [|constructor]. simpl in *. lia.
  - exists p. split; [done|]. replace (length pre + length rest)%nat
      with (length pre2 + length rest2)%nat by (simpl in *; lia). done.
Qed.
End MonitorParseTotal.

(** X7: the parsing loop of [runcmd] ends on every buffer, with or
    without terminators inside, and either gives up ("Too many arguments")
    or leaves at most 15 arguments, so that [argv[argc] = 0] stays inside
    the 16 entries of [argv]; every argument starts inside the buffer, and
    the buffer keeps its length. *)
Theorem X7_runcmd_parse_total (buf : list ascii) :
  ∃ p, Monitor.parse (S (length buf)) [] [] buf = Some p
       ∧ MonitorReport.parsed_within (length buf) p.
Proof.
  destruct (parse_total (S (length buf)) [] [] buf) as (p & Hp & Hin);
    [lia | simpl; lia | constructor |].
  by exists p.
Qed.

(** ** kern/monitor.c: the page commands in a row *)

Section MonitorSession.
Import Monitor MonitorSpec MonitorReport.

Variable strtol : string → Z.

Lemma PPN_page2pa pp : Z.of_nat pp < 2 ^ 20 → Z.to_nat (PPN (page2pa pp)) = pp.
Proof.
  intros Hpp. unfold PPN, page2pa, PGSHIFT.
  rewrite Z.shiftl_mul_pow2 by lia. rewrite u32_small by lia.
  rewrite Z.shiftr_div_pow2 by lia. rewrite Z.div_mul by lia. lia.
Qed.

Lemma printed_printed fmt args fmt' args' m :
  printed fmt' args' (printed fmt args m)
  = set_console (fun c => c ++ [(fmt, args); (fmt', args')]) m.
Proof. unfold printed, set_console. simpl. by rewrite <- app_assoc. Qed.
End MonitorSession.

(** X8: [alloc_page], [page_status], [free_page] and [page_status] in a
    row, the last three on the address that [alloc_page] printed, for a
    free list whose first page has no reference: the page is taken from
    the free list and given one reference, reported as allocated, freed
    (its only reference dropped and the page put back at the head of the
    free list) and reported as free; afterwards the [pages] array and the
    free list are as they were before, and every command has returned
    0. *)
Theorem X8_alloc_status_free
        (strtol : string → Z) (m : Monitor.MonState) (fuel : nat) (tf : Z)
        (pp : nat) (rest : list nat) (a : string) :
  Monitor.page_free_list m = pp :: rest →
  Monitor.pages m !! pp = Some (Monitor.mkPage 0) →
  Z.of_nat pp < 2 ^ 20 →
  strtol a = Monitor.page2pa pp →
  (do r1 <- Monitor.mon_alloc_page fuel 1 ["alloc_page"%string] tf;
   do r2 <- Monitor.mon_page_status strtol fuel 2 ["page_status"%string; a] tf;
   do r3 <- Monitor.mon_free_page strtol fuel 2 ["free_page"%string; a] tf;
   do r4 <- Monitor.mon_page_status strtol fuel 2 ["page_status"%string; a] tf;
   ret [r1; r2; r3; r4]) m
  = (Ok [0; 0; 0; 0],
     Monitor.set_console
       (fun c => c ++
          [ ("    %C0x%x\n%C"%string,
             [Monitor.Col Monitor.COLOR_GRN; Monitor.Int (Monitor.page2pa pp);
              Monitor.Col Monitor.COLOR_CYN]);
            ("    %Callocated\n%C"%string,
             [Monitor.Col Monitor.COLOR_GRN; Monitor.Col Monitor.COLOR_CYN]);
            ("    %CFree successfully!\n%C"%string,
             [Monitor.Col Monitor.COLOR_GRN; Monitor.Col Monitor.COLOR_CYN]);
            ("    %Cfree\n%C"%string,
             [Monitor.Col Monitor.COLOR_GRN; Monitor.Col Monitor.COLOR_CYN]) ]) m).
Proof.
  intros Hfree Hpg Hpp Hstr.
  pose proof (lookup_lt_Some _ _ _ Hpg) as Hlt.
  (* alloc_page *)
  set (m1 := Monitor.set_pages (<[pp := Monitor.mkPage 1]>)
               (Monitor.set_page_free_list (fun _ => rest) m)).
  set (l1 := ("    %C0x%x\n%C"%string,
              [Monitor.Col Monitor.COLOR_GRN; Monitor.Int (Monitor.page2pa pp);
               Monitor.Col Monitor.COLOR_CYN])).
  assert (H1 : Monitor.mon_alloc_page fuel 1 ["alloc_page"%string] tf m
               = (Ok 0, Monitor.set_console (fun c => c ++ [l1]) m1)).
  { unfold Monitor.mon_alloc_page. unfold bind at 1. unfold Monitor.page_alloc.
    rewrite Hfree. change (0 =? 0) with true. cbn iota.
    unfold bind at 1. unfold bind at 1.
    rewrite (read_ref_ok _ pp (Monitor.mkPage 0)) by done. done. }
  erewrite bind_ok by exact H1.
  (* page_status *)
  set (m2 := Monitor.set_console (fun c => c ++ [l1]) m1).
  assert (Hpg2 : Monitor.pages m2 !! pp = Some (Monitor.mkPage 1)).
  { unfold m2, m1. simpl. by apply list_lookup_insert_eq. }
  assert (Hstatus : ∀ m' v, Monitor.pages m' !! pp = Some (Monitor.mkPage v) →
            Monitor.mon_page_status strtol fuel 2 ["page_status"%string; a] tf m'
            = (Ok 0, MonitorSpec.printed
                       (if 0 <? v then "    %Callocated\n%C"%string
                        else "    %Cfree\n%C"%string)
                       [Monitor.Col Monitor.COLOR_GRN; Monitor.Col Monitor.COLOR_CYN] m')).
  { intros m' v Hv. unfold Monitor.mon_page_status. change (2 =? 2) with true. cbn iota.
    unfold bind at 1.
    cbn [Monitor.arg nth]. rewrite Hstr.
    erewrite bind_ok
      by (apply (pa2page_ok _ _ (Monitor.mkPage v)); by rewrite PPN_page2pa).
    rewrite PPN_page2pa by done.
    erewrite bind_ok by (by apply read_ref_ok). cbn [Monitor.pp_ref].
    by destruct (0 <? v). }
  erewrite bind_ok by (by apply (Hstatus m2 1)).
  change (0 <? 1) with true. cbn iota.
  (* free_page *)
  set (m3 := MonitorSpec.printed _ _ m2).
  assert (Hpg3 : Monitor.pages m3 !! pp = Some (Monitor.mkPage 1)) by exact Hpg2.
  set (m4 := Monitor.set_page_free_list (cons pp)
               (Monitor.set_pages (<[pp := Monitor.mkPage 0]>) m3)).
  assert (H3 : Monitor.mon_free_page strtol fuel 2 ["free_page"%string; a] tf m3
               = (Ok 0, MonitorSpec.printed "    %CFree successfully!\n%C"
                          [Monitor.Col Monitor.COLOR_GRN; Monitor.Col Monitor.COLOR_CYN] m4)).
  { unfold Monitor.mon_free_page. change (2 =? 2) with true. cbn iota.
    unfold bind at 1.
    cbn [Monitor.arg nth]. rewrite Hstr.
    erewrite bind_ok
      by (apply (pa2page_ok _ _ (Monitor.mkPage 1)); by rewrite PPN_page2pa).
    rewrite PPN_page2pa by done.
    erewrite bind_ok by (by apply read_ref_ok). cbn [Monitor.pp_ref].
    change (1 =? 1) with true. cbn iota.
    assert (Hdec : Monitor.page_decref pp m3 = (Ok tt, m4)).
    { unfold Monitor.page_decref.
      erewrite bind_ok by (by apply read_ref_ok).
      unfold bind at 1. unfold Monitor.write_ref at 1.
      erewrite bind_ok.
      2:{ apply read_ref_ok. cbn [Monitor.pages Monitor.set_pages].
          apply list_lookup_insert_eq. by eapply lookup_lt_Some. }
      done. }
    unfold bind. rewrite Hdec. done. }
  erewrite bind_ok by exact H3.
  set (m5 := MonitorSpec.printed _ _ m4).
  assert (Hpg5 : Monitor.pages m5 !! pp = Some (Monitor.mkPage 0)).
  { unfold m5, m4. simpl. apply list_lookup_insert_eq.
    apply lookup_lt_Some in Hpg3. done. }
  erewrite bind_ok by (by apply (Hstatus m5 0)).
  change (0 <? 0) with false. cbn iota.
  unfold ret. f_equal.
  clear H1 H3 Hstatus Hpg2 Hpg3 Hpg5. subst m5 m4 m3 m2 m1.
  destruct m as [c pgs fl pgdir s1 s2 s3 s4 ebp eip km dbg].
  cbn [Monitor.pages Monitor.page_free_list] in Hfree, Hpg. subst fl.
  unfold MonitorSpec.printed.
  lazy beta iota delta
       [Monitor.set_console Monitor.set_page_free_list Monitor.set_pages
        Monitor.console Monitor.pages Monitor.page_free_list Monitor.boot_pgdir
        Monitor.sym_start Monitor.sym_etext Monitor.sym_edata Monitor.sym_end
        Monitor.reg_ebp Monitor.reg_eip Monitor.kmem Monitor.debuginfo].
  rewrite list_insert_insert_eq, list_insert_id by done.
  rewrite <- !app_assoc. done.
Qed.

Lemma X8_alloc_status_free_witness :
  (do r1 <- Monitor.mon_alloc_page O 1 ["alloc_page"%string] 0;
   do r2 <- Monitor.mon_page_status MonitorExamples.strtol O 2 ["page_status"; "0"]%string 0;
   do r3 <- Monitor.mon_free_page MonitorExamples.strtol O 2 ["free_page"; "0"]%string 0;
   do r4 <- Monitor.mon_page_status MonitorExamples.strtol O 2 ["page_status"; "0"]%string 0;
   ret [r1; r2; r3; r4]) MonitorExamples.kernel
  = (Ok [0; 0; 0; 0],
     Monitor.set_console
       (fun c => c ++
          [ ("    %C0x%x\n%C"%string,
             [Monitor.Col Monitor.COLOR_GRN; Monitor.Int 0; Monitor.Col Monitor.COLOR_CYN]);
            ("    %Callocated\n%C"%string,
             [Monitor.Col Monitor.COLOR_GRN; Monitor.Col Monitor.COLOR_CYN]);
            ("    %CFree successfully!\n%C"%string,
             [Monitor.Col Monitor.COLOR_GRN; Monitor.Col Monitor.COLOR_CYN]);
            ("    %Cfree\n%C"%string,
             [Monitor.Col Monitor.COLOR_GRN; Monitor.Col Monitor.COLOR_CYN]) ])
       MonitorExamples.kernel).
Proof.
  apply (X8_alloc_status_free MonitorExamples.strtol MonitorExamples.kernel O 0 O [] "0");
    [reflexivity | reflexivity | reflexivity | reflexivity].
Defined.

(** ** kern/monitor.c: [showmappings] and [backtrace] *)

Section MonitorLoops.
Import Monitor MonitorSpec MonitorReport.

Variable strtol : string → Z.

Lemma set_console_app f g m :
  set_console g (set_console f m) = set_console (fun c => g (f c)) m.
Proof. done. Qed.

(** What the body of the loop of [mon_showmappings] prints for the page
    at [i]. *)
Lemma showmappings_body (k : unit → M MonState unit) i m :
  (do pte <- pgdir_walk i;
   run cprintf "%C0x%x %C- %C0x%x    "
         [Col COLOR_GRN; Int i; Col COLOR_CYN; Col COLOR_GRN; Int (u32 (i + PGSIZE))];
   run match pte with
       | Some e =>
           if negb (Z.land e PTE_P =? 0) then
             run cprintf "%Cmapped %C0x%x  " [Col COLOR_YLW; Col COLOR_PUR; Int (PTE_ADDR e)];
             run (if negb (Z.land e PTE_U =? 0)
                  then cprintf "%Cuser: " [Col COLOR_BLK]
                  else cprintf "%Ckernel: " [Col COLOR_BLK]);
             run (if negb (Z.land e PTE_W =? 0)
                  then cprintf "%Cread/write" [Col COLOR_PUR]
                  else cprintf "%Cread only" [Col COLOR_PUR]);
             cprintf "\n%C" [Col COLOR_CYN]
           else cprintf "%Cnot mapped\n%C" [Col COLOR_RED; Col COLOR_CYN]
       | None => cprintf "%Cnot mapped\n%C" [Col COLOR_RED; Col COLOR_CYN]
       end;
   k tt) m
  = k tt (set_console (fun c => c ++ page_report m i) m).
Proof.
  unfold page_report, mapping_lines, range_line, pgdir_walk, get, bind, cprintf, set_console.
  cbn [boot_pgdir console pages page_free_list sym_start sym_etext sym_edata sym_end
       reg_ebp reg_eip kmem debuginfo].
  destruct (boot_pgdir m !! i) as [e|]; cbn.
  - destruct (Z.land e PTE_P =? 0); cbn.
    + by rewrite <- !app_assoc.
    + destruct (Z.land e PTE_U =? 0), (Z.land e PTE_W =? 0); cbn;
        by rewrite <- !app_assoc.
  - by rewrite <- !app_assoc.
Qed.

Lemma page_report_console f m i : page_report (set_console f m) i = page_report m i.
Proof. done. Qed.

Lemma pages_from_S lva n :
  pages_from lva (S n) = lva :: pages_from (lva + PGSIZE) n.
Proof.
  unfold pages_from. cbn [seq fmap list_fmap]. f_equal; [lia|].
  rewrite <- fmap_S_seq, <- list_fmap_compose. apply list_fmap_ext.
  intros _ k _. simpl. lia.
Qed.

(** The loop over the pages from [i] up to and including [hva], when
    [hva + PGSIZE] does not wrap around. *)
Lemma showmappings_loop_ok hva n :
  ∀ fuel i m,
    (n < fuel)%nat → 0 <= i → hva + PGSIZE < 2 ^ 32 →
    i + Z.of_nat n * PGSIZE = hva + PGSIZE →
    showmappings_loop fuel hva i m
    = (Ok tt, set_console (fun c => c ++ mjoin (page_report m <$> pages_from i n)) m).
Proof.
  assert (HP : PGSIZE = 4096) by reflexivity.
  induction n as [|n IH]; intros fuel i m Hfuel Hi Hhva Hn.
  - destruct fuel as [|fuel]; [lia|]. cbn [showmappings_loop].
    destruct (Z.leb_spec i hva); [lia|].
    unfold ret, set_console. simpl. rewrite app_nil_r. by destruct m.
  - destruct fuel as [|fuel]; [lia|]. cbn [showmappings_loop].
    destruct (Z.leb_spec i hva); [|lia].
    rewrite (showmappings_body (fun _ => showmappings_loop fuel hva (u32 (i + PGSIZE)))).
    rewrite u32_small by lia.
    rewrite IH by lia.
    rewrite set_console_app. rewrite pages_from_S. cbn [fmap list_fmap mjoin list_join].
    unfold set_console. simpl. f_equal. f_equal. by rewrite <- app_assoc.
Qed.

(** The loop when [hva] is the last page of the address space: [i]
    wraps around to 0 after it, and the test [i <= hva] never fails. *)
Lemma showmappings_loop_wraps fuel :
  ∀ i m, 0 <= i < 2 ^ 32 → i mod PGSIZE = 0 →
         (showmappings_loop fuel 0xFFFFF000 i m).1 = Spinning.
Proof.
  assert (HP : PGSIZE = 4096) by reflexivity.
  induction fuel as [|fuel IH]; intros i m Hi Hal; [done|].
  cbn [showmappings_loop].
  assert (i <= 0xFFFFF000).
  { pose proof (Z.div_mod i PGSIZE). rewrite HP in *.
    assert (i / 4096 < 1048576) by (apply Z.div_lt_upper_bound; lia). lia. }
  destruct (Z.leb_spec i 0xFFFFF000); [|lia].
  rewrite (showmappings_body (fun _ => showmappings_loop fuel 0xFFFFF000 (u32 (i + PGSIZE)))).
  apply IH; [apply u32_range|].
  unfold u32. rewrite Z.mod_mod_divide by (by exists 1048576).
  rewrite <- Z.add_mod_idemp_l by lia. rewrite Hal. done.
Qed.

(** The loop of [mon_help] over the names and descriptions. *)
Lemma help_loop_ok l :
  ∀ m, help_loop l m
       = (Ok tt,
          set_console
            (fun c => c ++ ((fun nd => help_line (mkCommand nd.1 nd.2 mon_help)) <$> l)) m).
Proof.
  induction l as [|[n d] l IH]; intros m; cbn [help_loop].
  - unfold ret, set_console. simpl. rewrite app_nil_r. by destruct m.
  - unfold bind, cprintf. rewrite IH, set_console_app.
    unfold set_console. simpl. f_equal. f_equal. by rewrite <- app_assoc.
Qed.

Lemma frame_chain_console f m n :
  ∀ ebp eip, frame_chain (set_console f m) n ebp eip ↔ frame_chain m n ebp eip.
Proof.
  induction n as [|n IH]; intros ebp eip; cbn [frame_chain]; [done|].
  by rewrite IH.
Qed.

Lemma frames_console f m n :
  ∀ ebp eip, frames (set_console f m) n ebp eip = frames m n ebp eip.
Proof.
  induction n as [|n IH]; intros ebp eip; cbn [frames]; [done|].
  by rewrite IH.
Qed.

(** The loop of [mon_backtrace] on a chain of [n] frames. *)
Lemma backtrace_loop_ok n :
  ∀ fuel ebp eip m,
    (n < fuel)%nat → frame_chain m n ebp eip →
    backtrace_loop fuel ebp eip m
    = (Ok tt, set_console (fun c => c ++ mjoin (frame_lines m <$> frames m n ebp eip)) m).
Proof.
  induction n as [|n IH]; intros fuel ebp eip m Hfuel Hchain;
    (destruct fuel as [|fuel]; [lia|]); cbn [backtrace_loop frame_chain frames] in *.
  - subst ebp. unfold ret, set_console. simpl. rewrite app_nil_r. by destruct m.
  - destruct Hchain as (Hne & Hlen & Hchain). apply Z.eqb_neq in Hne. rewrite Hne. cbn [negb].
    unfold bind at 1. unfold get at 1. unfold bind at 1. unfold copy_func_name.
    destruct (Z.ltb_spec (eip_fn_namelen (debuginfo m eip)) 0) as [|_]; [lia|].
    destruct (Z.leb_spec FUNC_NAME_SIZE (eip_fn_namelen (debuginfo m eip))) as [|_]; [lia|].
    cbn [orb]. unfold ret at 1.
    unfold bind at 1. unfold get at 1.
    unfold bind at 1. unfold cprintf at 1. unfold bind at 1. unfold cprintf at 1.
    match goal with
    | |- context [backtrace_loop fuel ?e ?i ?s] =>
        rewrite (IH fuel e i s) by (first [lia | by rewrite !frame_chain_console])
    end.
    rewrite !frames_console. rewrite !set_console_app. unfold set_console. simpl.
    f_equal. f_equal. rewrite <- !app_assoc. done.
Qed.
End MonitorLoops.


(** X9: [showmappings LOW HIGH] with [lva = ROUNDDOWN(LOW)] not above
    [hva = ROUNDUP(HIGH)], and [hva] below the last page of the address
    space: the command reports the pages [lva], [lva + PGSIZE], ... up to
    and including the page at [hva] (one more than the pages between the
    two), each with its range and what the page table says of it, returns
    0 and changes nothing but the console. *)
Theorem X9_showmappings_pages
        (strtol : string → Z) (fuel : nat) (argv : list string) (tf : Z)
        (m : Monitor.MonState) :
  let lva := ROUNDDOWN (strtol (Monitor.arg argv 1)) PGSIZE in
  let hva := ROUNDUP (strtol (Monitor.arg argv 2)) PGSIZE in
  let n := S (Z.to_nat ((hva - lva) / PGSIZE)) in
  lva <= hva → hva < 0xFFFFF000 → (n < fuel)%nat →
  Monitor.mon_showmappings strtol fuel 3 argv tf m
  = (Ok 0,
     Monitor.set_console
       (fun c => c ++ mjoin (MonitorReport.page_report m <$> MonitorReport.pages_from lva n)) m)
  ∧ last (MonitorReport.pages_from lva n) = Some hva.
Proof.
  intros lva hva n Hle Hhva Hfuel.
  assert (HP : PGSIZE = 4096) by reflexivity.
  assert (HP0 : 0 < PGSIZE) by lia.
  pose proof (ROUNDDOWN_range (strtol (Monitor.arg argv 1)) PGSIZE HP0) as Hl. fold lva in Hl.
  pose proof (ROUNDDOWN_aligned (strtol (Monitor.arg argv 1)) PGSIZE HP0) as Hla. fold lva in Hla.
  pose proof (ROUNDUP_aligned (strtol (Monitor.arg argv 2)) PGSIZE HP0) as Hha. fold hva in Hha.
  assert (Hd : (hva - lva) mod PGSIZE = 0) by (rewrite Zminus_mod, Hha, Hla; done).
  pose proof (Z.div_mod (hva - lva) PGSIZE).
  pose proof (Z.div_pos (hva - lva) PGSIZE).
  assert (Hn : lva + Z.of_nat n * PGSIZE = hva + PGSIZE).
  { unfold n. rewrite Nat2Z.inj_succ, Z2Nat.id by lia. lia. }
  split.
  - unfold Monitor.mon_showmappings. change (3 =? 3) with true. cbn iota.
    fold lva hva. destruct (Z.leb_spec lva hva); [|lia].
    unfold bind. rewrite (showmappings_loop_ok hva n) by lia. done.
  - unfold MonitorReport.pages_from, n. rewrite seq_S, fmap_app.
    cbn [fmap list_fmap]. rewrite last_snoc. cbn [Nat.add].
    f_equal. rewrite Z2Nat.id by lia. lia.
Qed.

Lemma X9_showmappings_pages_witness :
  Monitor.mon_showmappings MonitorExamples.strtol 3%nat 3 ["showmappings"; "0"; "4096"]%string 0
                           MonitorExamples.kernel
  = (Ok 0,
     Monitor.set_console
       (fun c => c ++ mjoin (MonitorReport.page_report MonitorExamples.kernel
                               <$> [0; 4096])) MonitorExamples.kernel).
Proof.
  apply (X9_showmappings_pages MonitorExamples.strtol 3%nat ["showmappings"; "0"; "4096"]%string 0
           MonitorExamples.kernel); [by vm_compute | by vm_compute | vm_compute; lia].
Defined.

(** X10: [showmappings LOW HIGH] with [ROUNDUP(HIGH) = 0xFFFFF000], the
    last page of the address space, does not come back: after that page
    [i += PGSIZE] wraps around to 0, which is again not above [hva], so
    that the loop is still running however long it is given. *)
Theorem X10_showmappings_last_page_spins
        (strtol : string → Z) (fuel : nat) (argv : list string) (tf : Z)
        (m : Monitor.MonState) :
  ROUNDUP (strtol (Monitor.arg argv 2)) PGSIZE = 0xFFFFF000 →
  (Monitor.mon_showmappings strtol fuel 3 argv tf m).1 = Spinning.
Proof.
  intros Hhva.
  assert (HP : PGSIZE = 4096) by reflexivity.
  assert (HP0 : 0 < PGSIZE) by lia.
  pose proof (ROUNDDOWN_range (strtol (Monitor.arg argv 1)) PGSIZE HP0) as Hl.
  pose proof (ROUNDDOWN_aligned (strtol (Monitor.arg argv 1)) PGSIZE HP0) as Hla.
  set (lva := ROUNDDOWN (strtol (Monitor.arg argv 1)) PGSIZE) in *.
  assert (Hle : lva <= 0xFFFFF000).
  { pose proof (Z.div_mod lva PGSIZE). rewrite HP in *.
    assert (lva / 4096 < 1048576) by (apply Z.div_lt_upper_bound; lia). lia. }
  unfold Monitor.mon_showmappings. change (3 =? 3) with true. cbn iota.
  fold lva. rewrite Hhva. destruct (Z.leb_spec lva 0xFFFFF000); [|lia].
  unfold bind.
  pose proof (showmappings_loop_wraps fuel lva m Hl Hla) as Hspin.
  destruct (Monitor.showmappings_loop fuel 0xFFFFF000 lva m) as [r m'].
  simpl in Hspin. by subst r.
Qed.

Lemma X10_showmappings_last_page_spins_witness :
  (Monitor.mon_showmappings MonitorExamples.strtol 1000%nat 3
     ["showmappings"; "0"; "4294963200"]%string 0 MonitorExamples.kernel).1 = Spinning.
Proof.
  apply (X10_showmappings_last_page_spins MonitorExamples.strtol 1000%nat
           ["showmappings"; "0"; "4294963200"]%string 0 MonitorExamples.kernel).
  by vm_compute.
Defined.

(** X11: [backtrace] on a stack whose saved frame pointers, from the
    frame pointer on entry on, form a chain of [n] frames ending in a null
    frame pointer, each in a function whose name fits in [func_name]: the
    command prints its heading and, for each frame from the innermost
    on, the source position with the name of the function cut to its
    length and the frame pointer with the return address and five
    arguments; it returns 0 and changes nothing but the console. *)
Theorem X11_backtrace_chain
        (fuel : nat) (argc : Z) (argv : list string) (tf : Z)
        (m : Monitor.MonState) (n : nat) :
  MonitorReport.frame_chain m n (Monitor.reg_ebp m) (Monitor.reg_eip m) →
  (n < fuel)%nat →
  Monitor.mon_backtrace fuel argc argv tf m
  = (Ok 0,
     Monitor.set_console
       (fun c => c ++ ("%CStack backtrace:\n"%string, [Monitor.Col Monitor.COLOR_GRN])
                   :: mjoin (MonitorReport.frame_lines m
                               <$> MonitorReport.frames m n (Monitor.reg_ebp m)
                                                        (Monitor.reg_eip m)))
       m).
Proof.
  intros Hchain Hfuel. unfold Monitor.mon_backtrace.
  unfold bind at 1. unfold Monitor.get at 1. unfold bind at 1. unfold Monitor.get at 1.
  unfold bind at 1. unfold Monitor.cprintf at 1.
  unfold bind.
  rewrite (backtrace_loop_ok n) by (first [lia | by rewrite frame_chain_console]).
  rewrite frames_console. unfold ret, Monitor.set_console. simpl.
  f_equal. f_equal. by rewrite <- app_assoc.
Qed.

Lemma X11_backtrace_chain_witness :
  Monitor.mon_backtrace 3%nat 1 ["backtrace"%string] 0 MonitorExamples.in_call
  = (Ok 0,
     Monitor.set_console
       (fun c => c ++
          [ ("%CStack backtrace:\n"%string, [Monitor.Col Monitor.COLOR_GRN]);
            ("%C%s:%d: %s+%x\n"%string,
             [Monitor.Col Monitor.COLOR_YLW; Monitor.Str "kern/monitor.c"; Monitor.Int 82;
              Monitor.Str "mon_backtrace"; Monitor.Int 0x2C]);
            ("  ebp %08x  eip %08x  args %08x %08x %08x %08x %08x\n%C"%string,
             [Monitor.Int 0xF010FF88; Monitor.Int 0xF0100068; Monitor.Int 0; Monitor.Int 0;
              Monitor.Int 0; Monitor.Int 0; Monitor.Int 0; Monitor.Col Monitor.COLOR_CYN]);
            ("%C%s:%d: %s+%x\n"%string,
             [Monitor.Col Monitor.COLOR_YLW; Monitor.Str "kern/init.c"; Monitor.Int 40;
              Monitor.Str "i386_init"; Monitor.Int 0x28]);
            ("  ebp %08x  eip %08x  args %08x %08x %08x %08x %08x\n%C"%string,
             [Monitor.Int 0xF010FFB8; Monitor.Int 0; Monitor.Int 0; Monitor.Int 0;
              Monitor.Int 0; Monitor.Int 0; Monitor.Int 0; Monitor.Col Monitor.COLOR_CYN]) ])
       MonitorExamples.in_call).
Proof.
  apply (X11_backtrace_chain 3%nat 1 ["backtrace"%string] 0 MonitorExamples.in_call 2%nat).
  - vm_compute. repeat split; discriminate.
  - lia.
Defined.

(** X12: the command table and [help]: [help] prints the name and the
    description of every entry of the table, in the order of the table,
    and returns 0; and a line that consists of the name of an entry calls
    the handler of that very entry, with that name as its only argument:
    no entry is hidden by an earlier one of the same name. *)
Theorem X12_command_table
        (strtol : string → Z) (fuel : nat) (argc : Z) (argv : list string) (tf : Z)
        (m : Monitor.MonState) :
  Monitor.mon_help fuel argc argv tf m
  = (Ok 0,
     Monitor.set_console
       (fun c => c ++ (MonitorReport.help_line <$> Monitor.commands strtol)) m)
  ∧ Forall (fun c =>
              Monitor.runcmd strtol fuel (list_ascii_of_string (Monitor.name c)) tf m
              = Monitor.func c fuel 1 [Monitor.name c] tf m)
           (Monitor.commands strtol).
Proof.
  split.
  - unfold Monitor.mon_help. unfold bind. rewrite help_loop_ok. done.
  - unfold Monitor.commands. repeat first [apply Forall_nil_2 | apply Forall_cons_2];
      reflexivity.
Qed.
